(** * Funda Wande sushi chef: a shallow embedding of [sushichef.py]

    The chef crawls two listing pages, turns the matched elements into
    resource records keyed by a composite string, downloads and
    size-reduces the documents, and assembles a topic / subtopic / leaf
    tree.  This file embeds the parts of the script that carry logic
    ([make_request], [download_page], [map_categories], [crawl],
    [download_and_compress_pdfs] and [construct_channel] with
    [get_subtopic_node]) and proves properties of them.

    Conventions.
    - Python [str] values are [string]s: the bytes of their UTF-8 encoding.
    - A Python [dict] is an insertion-ordered association list without
      duplicate keys ([PyDict] below); iteration follows insertion order,
      assignment to an existing key overwrites in place.
    - The file system is a finite map from path to file contents.
    - A Python exception that the script does not catch ends the
      computation with [Raise]; [sys.exit] ends it with [Exit]. *)

From Stdlib Require Import ZArith Ascii.
From stdpp Require Import base option list gmap strings fin_maps.

(** ** Python string primitives *)

Module Py.

(** [s.replace(" ", "_")], character by character. *)
Fixpoint replace_space (s : string) : string :=
  match s with
  | EmptyString => EmptyString
  | String c s' =>
      String (if Ascii.eqb c " "%char then "_"%char else c) (replace_space s')
  end.

(** [s.startswith(p)]. *)
Fixpoint startswith (p s : string) : bool :=
  match p, s with
  | EmptyString, _ => true
  | String a p', String b s' => Ascii.eqb a b && startswith p' s'
  | String _ _, EmptyString => false
  end.

(** [sub in s] on strings: [sub] occurs in [s] as a contiguous run. *)
Fixpoint contains (sub s : string) : bool :=
  startswith sub s ||
  match s with
  | EmptyString => false
  | String _ s' => contains sub s'
  end.

(** The characters [str.strip()] removes, as far as they are single
    bytes: tab, line feed, vertical tab, form feed, carriage return, the
    four separators 28..31 and the space.  White space outside ASCII
    (such as U+00A0) is not modelled. *)
Definition is_space (c : ascii) : bool :=
  let n := nat_of_ascii c in
  (Nat.leb 9 n && Nat.leb n 13) || (Nat.leb 28 n && Nat.leb n 32).

Fixpoint lstrip (s : string) : string :=
  match s with
  | EmptyString => EmptyString
  | String c s' => if is_space c then lstrip s' else s
  end.

(** Right strip: a character is kept when something that is kept
    follows it, or when it is not white space itself. *)
Fixpoint rstrip (s : string) : string :=
  match s with
  | EmptyString => EmptyString
  | String c s' =>
      match rstrip s' with
      | EmptyString => if is_space c then EmptyString else String c EmptyString
      | r => String c r
      end
  end.

Definition strip (s : string) : string := rstrip (lstrip s).

(** [s.split(sep)] for a one-character separator: the pieces between
    the separators; there is always at least one piece. *)
Fixpoint split (sep : ascii) (s : string) : list string :=
  match s with
  | EmptyString => [EmptyString]
  | String c s' =>
      if Ascii.eqb c sep then EmptyString :: split sep s'
      else match split sep s' with
           | p :: ps => String c p :: ps
           | [] => [String c EmptyString]
           end
  end.

(** [s[-3:]]: the last three characters, or all of [s] when shorter. *)
Fixpoint last3 (s : string) : string :=
  match s with
  | String _ s' => if Nat.leb 3 (String.length s') then last3 s' else s
  | EmptyString => EmptyString
  end.

(** A pattern without a space and without an underscore: replacing
    spaces by underscores neither creates nor destroys its occurrences. *)
Fixpoint plain (p : string) : bool :=
  match p with
  | EmptyString => true
  | String c p' =>
      negb (Ascii.eqb c " "%char) && negb (Ascii.eqb c "_"%char) && plain p'
  end.

End Py.

(** ** Results of computations that may raise or exit *)

Inductive exn : Type :=
  | KeyError | IndexError | AttributeError | UnboundLocalError
  | OSError | RequestException | FitzError.

Inductive result (A : Type) : Type :=
  | OK (a : A)
  | Raise (e : exn)
  | Exit (code : Z).
Arguments OK {A} a.
Arguments Raise {A} e.
Arguments Exit {A} code.

(** Sequencing, written [x ← m; k] below. *)
#[export] Instance result_ret : MRet result := λ A a, OK a.
#[export] Instance result_bind : MBind result := λ A B k m,
  match m with
  | OK a => k a
  | Raise e => Raise e
  | Exit c => Exit c
  end.

Definition of_option {A} (e : exn) (o : option A) : result A :=
  match o with Some a => OK a | None => Raise e end.

(** ** [make_request]: the retrying fetcher *)

Module Fetch.

(** What one call of [SESSION.request] does. *)
Inductive outcome : Type :=
  | ConnectionError
  | ReadTimeout
  | OtherError                       (* any exception the loop does not catch *)
  | Response (status_code : Z).

(** What the caller and the outside world can observe of one run. *)
Inductive event : Type :=
  | Request                          (* SESSION.request(...) was called *)
  | LogWarning (count trymax : nat)
  | Sleep (seconds : nat)            (* time.sleep(seconds) *)
  | LogError.

#[export] Instance event_eq_dec : EqDecision event.
Proof. solve_decision. Defined.

Definition max_retries : nat := 5.

(** The transport is an oracle: [transport n] is the outcome of the
    [n]-th call (counted from 0).  [attempt_loop] is the [while True]
    loop; [fuel] bounds the number of iterations, [n] counts the calls
    made so far, and the trace is accumulated in order. *)
Fixpoint attempt_loop (transport : nat -> outcome) (fuel n retry_count : nat)
    (tr : list event) : option (result (option Z) * list event) :=
  match fuel with
  | O => None
  | S fuel' =>
      let tr := tr ++ [Request] in
      match transport n with
      | Response sc => Some (OK (Some sc), tr)          (* break *)
      | OtherError => Some (Raise RequestException, tr)
      | ConnectionError | ReadTimeout =>
          let retry_count := S retry_count in
          let tr := tr ++ [LogWarning retry_count max_retries; Sleep (retry_count * 1)] in
          if Nat.leb max_retries retry_count
          then Some (OK None, tr ++ [LogError])          (* return None *)
          else attempt_loop transport fuel' (S n) retry_count tr
      end
  end.

(** [make_request]: [OK (Some sc)] is the response object (status 200),
    [OK None] is Python's [None]. *)
Definition make_request (transport : nat -> outcome) (fuel : nat)
    : option (result (option Z) * list event) :=
  match attempt_loop transport fuel 0 0 [] with
  | Some (OK (Some sc), tr) =>
      if negb (sc =? 200)%Z then Some (OK None, tr ++ [LogError])
      else Some (OK (Some sc), tr)
  | r => r
  end.

Definition attempts (tr : list event) : nat :=
  length (filter (λ e, e = Request) tr).

(** The sleeps that separate two consecutive requests: a sleep counts
    only when a request follows it somewhere later in the trace. *)
Fixpoint delays_between (tr : list event) : list nat :=
  match tr with
  | [] => []
  | Sleep d :: tr' =>
      if bool_decide (Request ∈ tr') then d :: delays_between tr'
      else delays_between tr'
  | _ :: tr' => delays_between tr'
  end.

End Fetch.

(** ** Python dictionaries with string keys *)

Module PyDict.
Section dict.
Context {V : Type}.

(** [d.get(k)] *)
Fixpoint get (k : string) (d : list (string * V)) : option V :=
  match d with
  | [] => None
  | (k', v) :: d' => if decide (k = k') then Some v else get k d'
  end.

(** [k in d] *)
Definition mem (k : string) (d : list (string * V)) : bool :=
  match get k d with Some _ => true | None => false end.

(** [d[k] = v]: overwrite where the key is, append when it is new. *)
Fixpoint set (k : string) (v : V) (d : list (string * V)) : list (string * V) :=
  match d with
  | [] => [(k, v)]
  | (k', v') :: d' =>
      if decide (k = k') then (k, v) :: d' else (k', v') :: set k v d'
  end.

(** [d.keys()], in insertion order. *)
Definition keys (d : list (string * V)) : list string := d.*1.
End dict.
End PyDict.

(** ** [crawl]: from the matched elements of a page to resource records *)

Module Crawl.

Definition COURSE_URL : string := "https://fundawande.org".

(** A matched element, as far as [crawl] reads it: [None] is an absent
    attribute ([link.get] then returns Python's [None], [link[...]]
    raises [KeyError]). *)
Record tag : Type := Tag {
  href : option string;
  onclick : option string;
  data_label : option string;
  data_cat1 : option string;
  data_cat2 : option string;
  data_cat3 : option string
}.

(** The dictionary built at lines 165-171. *)
Record resource : Type := Resource {
  name : string;
  topic : string;
  level : string;
  term : string;
  url : string
}.

#[export] Instance resource_eq_dec : EqDecision resource.
Proof. solve_decision. Defined.

(** The state the loop of [crawl] works on: [self.topics], the locals
    [resources] and [urls], and the local [level], which is unbound
    ([None]) until line 157 has run once. *)
Record state : Type := State {
  topics : list (string * list string);
  resources : list (string * resource);
  urls : list string;
  level_var : option string
}.

(** What lines 130-160 decide for one element. *)
Inductive decision : Type :=
  | Continue (urls' : list string)
  | Register (urls' : list string) (idx : string) (r : resource).

(** ["{}".format(x)] where [x] may be [None]. *)
Definition format_opt (o : option string) : string := default "None" o.

(** [x.strip()] where [x] comes from [link.get]. *)
Definition get_strip (o : option string) : result string :=
  match o with
  | Some s => OK (Py.strip s)
  | None => Raise AttributeError
  end.

(** Lines 130-136: [OK None] is the [continue] of line 136. *)
Definition resolve_url (element : string) (link : tag) : result (option string) :=
  if decide (element = "a") then
    OK (Some (COURSE_URL +:+ format_opt (href link)))
  else
    onclick_attr ← of_option KeyError (onclick link);
    piece ← of_option IndexError (Py.split "'"%char onclick_attr !! 1%nat);
    let url := COURSE_URL +:+ piece in
    if decide (Py.last3 url ≠ "mp4") then OK None else OK (Some url).

(** Lines 148-153. *)
Definition excluded (topic : string) : bool :=
  Py.contains "Covid" topic || Py.contains "Phonics" topic
  || Py.contains "Marksheets" topic || Py.contains "Strategy" topic.

(** Lines 159-160. *)
Definition make_idx (topic level term name : string) : string :=
  Py.replace_space
    (topic +:+ "-" +:+ level +:+ "-" +:+ term +:+ "-" +:+ name +:+ "_id").

(** Lines 130-160 and 165-171 for one element. *)
Definition examine (element : string) (urls : list string)
    (level_var : option string) (link : tag) : result decision :=
  ourl ← resolve_url element link;
  match ourl with
  | None => OK (Continue urls)
  | Some url =>
      if decide (url ∈ urls) then OK (Continue urls)
      else
        let urls := urls ++ [url] in
        name ← get_strip (data_label link);
        topic ← get_strip (data_cat1 link);
        name ← (if decide (topic = "Reading for Meaning Course") then
                  if decide (element ≠ "a") then
                    level ← of_option UnboundLocalError level_var;
                    OK (level +:+ ": " +:+ name)
                  else OK name
                else OK name);
        if excluded topic then OK (Continue urls)
        else
          let topic := if decide (topic = "Maths Workbooks") then "Maths" else topic in
          level ← get_strip (data_cat2 link);
          term ← get_strip (data_cat3 link);
          let idx := make_idx topic level term name in
          OK (Register urls idx (Resource name topic level term url))
  end.

(** Lines 161-164. *)
Definition register_topic (topic idx : string)
    (topics : list (string * list string)) : list (string * list string) :=
  match PyDict.get topic topics with
  | None => PyDict.set topic [idx] topics
  | Some l => PyDict.set topic (l ++ [idx]) topics
  end.

(** One iteration of the loop of line 129. *)
Definition loop_body (element : string) (st : state) (link : tag) : result state :=
  d ← examine element (urls st) (level_var st) link;
  match d with
  | Continue urls' =>
      OK (State (topics st) (resources st) urls' (level_var st))
  | Register urls' idx r =>
      OK (State (register_topic (topic r) idx (topics st))
                (PyDict.set idx r (resources st))
                urls'
                (Some (level r)))
  end.

Fixpoint loop (element : string) (links : list tag) (st : state) : result state :=
  match links with
  | [] => OK st
  | link :: links' => st' ← loop_body element st link; loop element links' st'
  end.

(** [resources[idx] = resource] *)
Definition assign (d : list (string * resource)) (p : string * resource) :=
  PyDict.set p.1 p.2 d.

(** The assignments [resources[idx] = resource] (line 172) that a run
    of the loop performs, in order, up to the first exception. *)
Fixpoint registrations (element : string) (links : list tag)
    (urls : list string) (level_var : option string) : list (string * resource) :=
  match links with
  | [] => []
  | link :: links' =>
      match examine element urls level_var link with
      | OK (Continue urls') => registrations element links' urls' level_var
      | OK (Register urls' idx r) =>
          (idx, r) :: registrations element links' urls' (Some (level r))
      | _ => []
      end
  end.

(** The last record assigned to the key [k] in a sequence of assignments. *)
Definition last_assigned (k : string) (regs : list (string * resource)) : option resource :=
  snd <$> last (filter (λ p, p.1 = k) regs).

(** The first record assigned to the key [k]. *)
Definition first_assigned (k : string) (regs : list (string * resource)) : option resource :=
  snd <$> head (filter (λ p, p.1 = k) regs).

(** [crawl(section, element)].  [page] is the list of elements
    [page.find_all] returns, or [None] when [download_page] gave no page
    (then [page.find_all] raises).  The result is the returned
    dictionary together with [self.topics]. *)
Definition crawl (element : string) (page : option (list tag))
    (topics : list (string * list string))
    : result (list (string * resource) * list (string * list string)) :=
  links ← of_option AttributeError page;
  st ← loop element links (State topics [] [] None);
  OK (resources st, Crawl.topics st).

(** The three dictionaries [pre_run] leaves on the chef before it
    starts downloading. *)
Record chef : Type := Chef {
  chef_topics : list (string * list string);
  pdfs : list (string * resource);
  videos : list (string * resource)
}.

(** Lines 209-211. *)
Definition pre_run_crawls (learning video : option (list tag)) : result chef :=
  '(pdfs, topics) ← crawl "a" learning [];
  '(videos, topics) ← crawl "button" video topics;
  OK (Chef topics pdfs videos).

End Crawl.

(** ** [download_and_compress_pdfs]: the size gate *)

Module Gate.
Import Crawl.

Definition SIZE_LIMIT : Z := 15 * 1024 * 1024.

(** What [fitz.open(...)] followed by [doc.save(...)] does. *)
Inductive fitz_result (content : Type) : Type :=
  | Saved (out : content)
  | SaveValueError                   (* caught at line 202: sys.exit(1) *)
  | OtherFailure.                    (* not caught *)
Arguments Saved {content} out.
Arguments SaveValueError {content}.
Arguments OtherFailure {content}.

(** The calls that leave the process, in order. *)
Inductive event : Type :=
  | Download (pdf pdf_url : string)  (* requests.get(pdf_url) *)
  | Compress (pdf : string)          (* doc.save(..., garbage=4, ...) *)
  | Copy (pdf : string).             (* shutil.copy2 *)

#[export] Instance event_eq_dec : EqDecision event.
Proof. solve_decision. Defined.

(** The key an event belongs to. *)
Definition event_key (e : event) : string :=
  match e with Download k _ | Compress k | Copy k => k end.

Definition pdf_name (pdf : string) : string := "chefdata/" +:+ pdf +:+ ".pdf".
Definition compressed_pdf (pdf : string) : string :=
  "chefdata/compressed/" +:+ pdf +:+ ".pdf".

Section gate.
(** File contents are kept abstract: the gate reads only their size.
    [getsize] is [os.path.getsize] of a file with that content,
    [http_get] is [requests.get(url).content] ([None] when the call
    raises), [fitz_save] is the compression transform. *)
Context {content : Type}.
Context (getsize : content → Z).
Context (http_get : string → option content).
Context (fitz_save : content → fitz_result content).

Record world : Type := World {
  fs : gmap string content;
  trace : list event
}.

(** The body of the loop of line 178, for the key [pdf].  The world
    is returned also when the run stops, with what happened so far. *)
Definition gate_body (pdfs : list (string * resource)) (w : world) (pdf : string)
    : world * result unit :=
  if decide (is_Some (fs w !! compressed_pdf pdf)) then (w, OK ())
  else
    let fetched : world * result unit :=
      if decide (is_Some (fs w !! pdf_name pdf)) then (w, OK ())
      else
        match PyDict.get pdf pdfs with
        | None => (w, Raise KeyError)
        | Some r =>
            let tr := trace w ++ [Download pdf (url r)] in
            match http_get (url r) with
            | None => (World (fs w) tr, Raise RequestException)
            | Some c => (World (<[pdf_name pdf := c]> (fs w)) tr, OK ())
            end
        end in
    match fetched with
    | (w, OK _) =>
        match fs w !! pdf_name pdf with
        | None => (w, Raise OSError)
        | Some raw =>
            if (getsize raw >? SIZE_LIMIT)%Z then
              let tr := trace w ++ [Compress pdf] in
              match fitz_save raw with
              | Saved out => (World (<[compressed_pdf pdf := out]> (fs w)) tr, OK ())
              | SaveValueError => (World (fs w) tr, Exit 1)
              | OtherFailure => (World (fs w) tr, Raise FitzError)
              end
            else
              (World (<[compressed_pdf pdf := raw]> (fs w)) (trace w ++ [Copy pdf]), OK ())
        end
    | stopped => stopped
    end.

Fixpoint gate_loop (pdfs : list (string * resource)) (keys : list string) (w : world)
    : world * result unit :=
  match keys with
  | [] => (w, OK ())
  | pdf :: keys' =>
      match gate_body pdfs w pdf with
      | (w', OK _) => gate_loop pdfs keys' w'
      | stopped => stopped
      end
  end.

(** [download_and_compress_pdfs], started on the file system [fs0]. *)
Definition download_and_compress_pdfs (pdfs : list (string * resource))
    (fs0 : gmap string content) : world * result unit :=
  gate_loop pdfs (PyDict.keys pdfs) (World fs0 []).
End gate.

End Gate.

(** ** [construct_channel]: the tree *)

Module Tree.
Import Crawl.

(** The labels of [le_utils.constants.labels.subjects] the chef uses. *)
Inductive subject : Type :=
  | LITERACY | READING_AND_WRITING | READING_COMPREHENSION
  | MATHEMATICS | FOR_TEACHERS | LANGUAGE_LEARNING.

(** [map_categories].  The last test of the source is [name in "..."]
    with a string on the right: a substring test. *)
Definition map_categories (name : string) : list subject :=
  let categories :=
    if bool_decide (name ∈ ["Literacy Workbooks"; "Reading Academy ";
                            "Reading Strategy 2022 - 2030"; "ECDoE Reading Policy"])
    then [LITERACY; READING_AND_WRITING; READING_COMPREHENSION] else [] in
  let categories :=
    if bool_decide (name ∈ ["Maths Workbooks"; "Maths"; "Numeracy Academy"])
    then categories ++ [MATHEMATICS] else categories in
  let categories :=
    if bool_decide (name ∈ ["Teaching Guides"; "Instructional Coaching";
                            "Lesson Plan Intervention"; "Reading for Meaning Course"])
    then categories ++ [FOR_TEACHERS] else categories in
  if Py.contains name "DBE Vocabulary Posters"
  then categories ++ [LANGUAGE_LEARNING] else categories.

Inductive leaf_kind : Type := DocumentNode | VideoNode.

(** A leaf of the tree.  [path] is the path of its one file; author and
    licence are the same constants on every leaf and are left out. *)
Record leaf : Type := Leaf {
  kind : leaf_kind;
  source_id : string;
  title : string;
  path : string;
  categories : list subject
}.

(** A subtopic [TopicNode] (lines 219-223) with its children. *)
Record subtopic_node : Type := SubtopicNode {
  sub_source_id : string;
  sub_title : string;
  sub_categories : list subject;
  sub_children : list leaf
}.

(** While a topic is being filled, a subtopic node is reachable both
    from [self.subtopics] and from the children of the topic node, and
    it is mutated through the former.  The dictionary [subtopics] is
    the store of these objects; the topic's child list refers to them
    by their key. *)
Inductive child : Type :=
  | ChildLeaf (l : leaf)
  | ChildSubtopic (level : string).

Record build : Type := Build {
  used_resorces : list string;
  subtopics : list (string * subtopic_node);
  children : list child
}.

(** The node [get_subtopic_node] returns. *)
Inductive target : Type :=
  | TheTopic
  | TheSubtopic (level : string).

Definition get_subtopic_node (using_subtopics : bool) (obj : resource)
    (categories : list subject) (b : build) : target * build :=
  if negb (Py.contains "Grade" (level obj)) then (TheTopic, b)
  else if using_subtopics then
    let b :=
      if negb (PyDict.mem (level obj) (subtopics b)) then
        Build (used_resorces b)
              (PyDict.set (level obj)
                 (SubtopicNode (level obj +:+ "_id") (level obj) categories [])
                 (subtopics b))
              (children b ++ [ChildSubtopic (level obj)])
      else b in
    (TheSubtopic (level obj), b)
  else (TheTopic, b).

(** [node.add_child(l)] for the node [get_subtopic_node] returned. *)
Definition add_child (t : target) (l : leaf) (b : build) : build :=
  match t with
  | TheTopic => Build (used_resorces b) (subtopics b) (children b ++ [ChildLeaf l])
  | TheSubtopic lvl =>
      match PyDict.get lvl (subtopics b) with
      | Some n =>
          Build (used_resorces b)
                (PyDict.set lvl
                   (SubtopicNode (sub_source_id n) (sub_title n) (sub_categories n)
                      (sub_children n ++ [l]))
                   (subtopics b))
                (children b)
      | None => b
      end
  end.

(** The body of the loop of line 244. *)
Definition attach (c : chef) (using_subtopics : bool) (categories : list subject)
    (b : build) (resource : string) : build :=
  if decide (resource ∈ used_resorces b) then b
  else
    let b := Build (used_resorces b ++ [resource]) (subtopics b) (children b) in
    match PyDict.get resource (pdfs c) with
    | Some obj_resource =>
        let '(subtopic_node, b) := get_subtopic_node using_subtopics obj_resource categories b in
        let term := if decide (term obj_resource ≠ "All")
                    then term obj_resource +:+ " - " else "" in
        add_child subtopic_node
          (Leaf DocumentNode resource (term +:+ name obj_resource)
                (Gate.compressed_pdf resource) categories) b
    | None =>
        match PyDict.get resource (videos c) with
        | Some obj_resource =>
            let '(subtopic_node, b) := get_subtopic_node using_subtopics obj_resource categories b in
            add_child subtopic_node
              (Leaf VideoNode resource (name obj_resource) (url obj_resource) categories) b
        | None => b
        end
    end.

(** The finished tree. *)
Inductive topic_child : Type :=
  | Direct (l : leaf)
  | Sub (s : subtopic_node).

Record topic_node : Type := TopicNode {
  topic_source_id : string;
  topic_title : string;
  topic_categories : list subject;
  topic_children : list topic_child
}.

(** The children of a topic node once its loop is over: every reference
    is replaced by the object it refers to. *)
Definition resolve (subtopics : list (string * subtopic_node)) (ch : child)
    : option topic_child :=
  match ch with
  | ChildLeaf l => Some (Direct l)
  | ChildSubtopic lvl => Sub <$> PyDict.get lvl subtopics
  end.

Definition freeze (b : build) : list topic_child :=
  omap (resolve (subtopics b)) (children b).

(** Lines 235-299 for one topic: the new [used_resorces] and the node
    given to [channel.add_child]. *)
Definition build_topic (c : chef) (used : list string) (topic : string)
    : result (list string * topic_node) :=
  let categories := map_categories topic in
  keys ← of_option KeyError (PyDict.get topic (chef_topics c));
  first ← of_option IndexError (keys !! 0%nat);
  let using_subtopics := Py.contains "Grade" first in
  let b := foldl (attach c using_subtopics categories) (Build used [] []) keys in
  OK (used_resorces b,
      TopicNode (Py.replace_space topic +:+ "_id") topic categories (freeze b)).

Fixpoint channel_loop (c : chef) (topics : list string) (used : list string)
    (channel : list topic_node) : result (list topic_node) :=
  match topics with
  | [] => OK channel
  | topic :: topics' =>
      '(used', node) ← build_topic c used topic;
      channel_loop c topics' used' (channel ++ [node])
  end.

(** [construct_channel]: the children of the channel node. *)
Definition construct_channel (c : chef) : result (list topic_node) :=
  channel_loop c (PyDict.keys (chef_topics c)) [] [].

(** All leaves of the tree, topic by topic. *)
Definition leaves_of_child (ch : topic_child) : list leaf :=
  match ch with
  | Direct l => [l]
  | Sub s => sub_children s
  end.

Definition leaves_of_topic (t : topic_node) : list leaf :=
  concat (leaves_of_child <$> topic_children t).

Definition leaves (channel : list topic_node) : list leaf :=
  concat (leaves_of_topic <$> channel).

(** The subtopic nodes of a topic node. *)
Definition subtopics_of (t : topic_node) : list subtopic_node :=
  omap (λ ch, match ch with Sub s => Some s | Direct _ => None end)
       (topic_children t).

(** The leaves reachable from a child list, given the subtopic store. *)
Definition leaves_with (subtopics : list (string * subtopic_node)) (chs : list child)
    : list leaf :=
  concat (leaves_of_child <$> omap (resolve subtopics) chs).

(** The leaves reachable from a topic node that is still being filled. *)
Definition build_leaves (b : build) : list leaf :=
  leaves_with (subtopics b) (children b).

(** The subtopics a child list refers to. *)
Definition sub_refs (chs : list child) : list string :=
  omap (λ ch, match ch with ChildSubtopic lvl => Some lvl | ChildLeaf _ => None end) chs.

(** The record a key stands for at lines 250 and 277: the document pool
    is asked first. *)
Definition record_of (c : chef) (k : string) : option resource :=
  match PyDict.get k (pdfs c) with
  | Some obj => Some obj
  | None => PyDict.get k (videos c)
  end.

(** The subtopic store and the child list of the topic node agree: the
    children refer to exactly the stored subtopics, each once. *)
Definition wf_build (b : build) : Prop :=
  sub_refs (children b) = PyDict.keys (subtopics b)
  ∧ NoDup (PyDict.keys (subtopics b)).

(** A subtopic is stored under its title. *)
Definition titled (subs : list (string * subtopic_node)) : Prop :=
  ∀ lvl n, PyDict.get lvl subs = Some n → sub_title n = lvl.

(** From one store to a later one, subtopics stay and keep their leaves. *)
Definition grows (subs subs' : list (string * subtopic_node)) : Prop :=
  ∀ lvl n, PyDict.get lvl subs = Some n →
    ∃ n', PyDict.get lvl subs' = Some n' ∧ sub_children n ⊆ sub_children n'.

(** A leaf is of the kind of the pool its key was found in, the document
    pool first. *)
Definition kind_ok (c : chef) (l : leaf) : Prop :=
  match PyDict.get (source_id l) (pdfs c) with
  | Some _ => kind l = DocumentNode ∧ path l = Gate.compressed_pdf (source_id l)
  | None => kind l = VideoNode
  end.

(** What holds of the keys marked as used and the leaves attached so far. *)
Definition attached_ok (c : chef) (used : list string) (ls : list leaf) : Prop :=
  NoDup (source_id <$> ls)
  ∧ (∀ l, l ∈ ls → source_id l ∈ used ∧ kind_ok c l)
  ∧ (∀ k, k ∈ used → is_Some (record_of c k) → ∃ l, l ∈ ls ∧ source_id l = k).

(** The key is registered under some topic of [self.topics]. *)
Definition registered (topics : list (string * list string)) (k : string) : Prop :=
  ∃ t l, PyDict.get t topics = Some l ∧ k ∈ l.

End Tree.


(** ** Sample inputs *)

Module Samples.

(** For the gate, a file is represented by its length. *)

Definition sample_pdf : Crawl.resource :=
  Crawl.Resource "Workbook 1" "Maths" "Grade 1" "Term 2"
                 "https://fundawande.org/docs/a.pdf".

Definition halve (raw : Z) : Gate.fitz_result Z := Gate.Saved (raw / 2)%Z.

Definition phonics_poster : Crawl.tag :=
  Crawl.Tag (Some "/docs/p.pdf") None (Some "Sounds") (Some "Phonics Posters")
            (Some "Grade 1") (Some "All").

Definition maths_same_file : Crawl.tag :=
  Crawl.Tag (Some "/docs/p.pdf") None (Some "Workbook") (Some "Maths Workbooks")
            (Some "Grade 1") (Some "Term 2").

Definition workbook_a : Crawl.tag :=
  Crawl.Tag (Some "/docs/a.pdf") None (Some " Workbook 1 ") (Some "Maths Workbooks")
            (Some "Grade 1") (Some "Term 2").

Definition workbook_b : Crawl.tag :=
  Crawl.Tag (Some "/docs/b.pdf") None (Some "Workbook 1") (Some "Maths")
            (Some "Grade 1") (Some "Term 2").

(** A video control with the descriptive fields of [workbook_b]. *)
Definition workbook_video : Crawl.tag :=
  Crawl.Tag None (Some "playVideo('/videos/w.mp4')") (Some "Workbook 1") (Some "Maths")
            (Some "Grade 1") (Some "Term 2").

Definition maths_video : Crawl.tag :=
  Crawl.Tag None (Some "playVideo('/videos/m.mp4')") (Some "Counting") (Some "Maths")
            (Some "Grade 2") (Some "All").

Definition course_video : Crawl.tag :=
  Crawl.Tag None (Some "playVideo('/videos/c.mp4')") (Some "Introduction")
            (Some "Reading for Meaning Course") (Some "Level 1") (Some "All").

Definition guide_overview : Crawl.tag :=
  Crawl.Tag (Some "/docs/overview.pdf") None (Some "Grade R overview")
            (Some "Teaching Guides") (Some "General") (Some "All").

Definition guide_grade1 : Crawl.tag :=
  Crawl.Tag (Some "/docs/guide1.pdf") None (Some "Teacher Guide")
            (Some "Teaching Guides") (Some "Grade 1") (Some "Term 2").

Definition clip_video : Crawl.tag :=
  Crawl.Tag None (Some "playVideo('/videos/clip.mp4')") (Some "Clip") (Some "Maths")
            (Some "General") (Some "Term 3").

End Samples.


(** ** Reading fetcher traces *)

Module FetchTrace.
Import Fetch.

(** The arguments of the calls of [time.sleep], in order. *)
Definition sleeps (tr : list event) : list nat :=
  omap (λ e, match e with Sleep d => Some d | _ => None end) tr.

(** The seconds spent sleeping. *)
Definition total_sleep (tr : list event) : nat := sum_list (sleeps tr).

(** What [j] failed attempts in a row leave in the trace, when
    [retry_count] failures came before them. *)
Fixpoint failed_rounds (retry_count j : nat) : list event :=
  match j with
  | O => []
  | S j' =>
      [Request; LogWarning (S retry_count) max_retries; Sleep (S retry_count)]
      ++ failed_rounds (S retry_count) j'
  end.

(** A failure that the loop of [make_request] catches. *)
Definition transient (o : outcome) : Prop :=
  o = ConnectionError ∨ o = ReadTimeout.

End FetchTrace.

(** ** [download_page] and the first lines of [crawl] *)

Module Listing.
Section listing.
(** A parsed page is kept abstract: [find_all page element] stands for
    [page.find_all(element, {"data-cat4": "ENG"})]. *)
Context {soup : Type}.
Context (find_all : soup → string → list Crawl.tag).

(** [download_page(url)].  [final_url] and [page] are what a response of
    the server carries ([response.url] and the parsed [response.text]).
    The call of [LOGGER.debug] is not traced. *)
Definition download_page (transport : nat → Fetch.outcome) (fuel : nat)
    (final_url : string) (page : soup)
    : option (result (option string * option soup) * list Fetch.event) :=
  match Fetch.make_request transport fuel with
  | None => None
  | Some (OK None, tr) => Some (OK (None, None), tr)
  | Some (OK (Some _), tr) => Some (OK (Some final_url, Some page), tr)
  | Some (Raise e, tr) => Some (Raise e, tr)
  | Some (Exit c, tr) => Some (Exit c, tr)
  end.

(** [crawl(section, element)] from its first line (lines 124-174): the
    page is downloaded, its elements are selected and walked. *)
Definition crawl_section (transport : nat → Fetch.outcome) (fuel : nat)
    (final_url : string) (page : soup) (element : string)
    (topics : list (string * list string))
    : option (result (list (string * Crawl.resource) * list (string * list string))
              * list Fetch.event) :=
  match download_page transport fuel final_url page with
  | None => None
  | Some (OK (_, page), tr) =>
      Some (Crawl.crawl element ((λ p, find_all p element) <$> page) topics, tr)
  | Some (Raise e, tr) => Some (Raise e, tr)
  | Some (Exit c, tr) => Some (Exit c, tr)
  end.
End listing.
End Listing.

(** ** More sample inputs *)

Module MoreSamples.
Import Samples.

(** The state after crawling a page of links and a page of video
    controls: one document and one video under the same key. *)
Definition maths_chef : Crawl.chef :=
  Crawl.Chef
    [("Maths", ["Maths-Grade_1-Term_2-Workbook_1_id";
                "Maths-Grade_1-Term_2-Workbook_1_id"])]
    [("Maths-Grade_1-Term_2-Workbook_1_id",
      Crawl.Resource "Workbook 1" "Maths" "Grade 1" "Term 2"
                     "https://fundawande.org/docs/a.pdf")]
    [("Maths-Grade_1-Term_2-Workbook_1_id",
      Crawl.Resource "Workbook 1" "Maths" "Grade 1" "Term 2"
                     "https://fundawande.org/videos/w.mp4")].

(** The one leaf and the tree that [construct_channel] builds from
    [maths_chef]. *)
Definition maths_leaf : Tree.leaf :=
  Tree.Leaf Tree.DocumentNode "Maths-Grade_1-Term_2-Workbook_1_id"
            "Term 2 - Workbook 1"
            "chefdata/compressed/Maths-Grade_1-Term_2-Workbook_1_id.pdf"
            [Tree.MATHEMATICS].

Definition maths_node : Tree.topic_node :=
  Tree.TopicNode "Maths_id" "Maths" [Tree.MATHEMATICS]
    [Tree.Sub (Tree.SubtopicNode "Grade 1_id" "Grade 1" [Tree.MATHEMATICS]
                                 [maths_leaf])].

Definition maths_channel : list Tree.topic_node := [maths_node].

(** A video control without an [onclick] attribute, one whose attribute
    has no quote in it, and a link without a label. *)
Definition button_without_onclick : Crawl.tag :=
  Crawl.Tag None None (Some "Clip") (Some "Maths") (Some "General") (Some "All").

Definition button_without_quote : Crawl.tag :=
  Crawl.Tag None (Some "playVideo()") (Some "Clip") (Some "Maths")
            (Some "General") (Some "All").

Definition link_without_label : Crawl.tag :=
  Crawl.Tag (Some "/docs/n.pdf") None None (Some "Maths") (Some "General") (Some "All").

End MoreSamples.

(** ** The leaf of a key *)

Module Leaves.
Import Crawl Tree.

(** The node built at lines 256-297 for the key [k] when it is attached
    under a topic with the labels [categories]: a document node when the
    key is in the document pool, else a video node when it is in the
    video pool, else nothing. *)
Definition leaf_for (c : chef) (categories : list subject) (k : string) : option leaf :=
  match PyDict.get k (pdfs c) with
  | Some obj =>
      Some (Leaf DocumentNode k
              ((if decide (term obj ≠ "All") then term obj +:+ " - " else "")
               +:+ name obj)
              (Gate.compressed_pdf k) categories)
  | None =>
      match PyDict.get k (videos c) with
      | Some obj => Some (Leaf VideoNode k (name obj) (url obj) categories)
      | None => None
      end
  end.

(** The leaves directly under a topic node. *)
Definition direct_leaves (t : topic_node) : list leaf :=
  omap (λ ch, match ch with Direct l => Some l | Sub _ => None end)
       (topic_children t).

End Leaves.
(** * Properties *)

Import Samples.

(** ** The fetcher *)

Section fetch_facts.
Import Fetch.

Variable transport : nat → outcome.
Hypothesis always_down :
  ∀ n, transport n = ConnectionError ∨ transport n = ReadTimeout.

(** One failed attempt: the loop logs, sleeps [retry_count + 1]
    seconds, and either gives up or goes round again. *)
Lemma attempt_loop_failed fuel n retry_count tr :
  attempt_loop transport (S fuel) n retry_count tr =
    let tr' := tr ++ [Request; LogWarning (S retry_count) max_retries;
                      Sleep (S retry_count)] in
    if Nat.leb max_retries (S retry_count) then Some (OK None, tr' ++ [LogError])
    else attempt_loop transport fuel (S n) (S retry_count) tr'.
Proof.
  cbn [attempt_loop]. rewrite Nat.mul_1_r, <- !app_assoc. cbn [app].
  destruct (always_down n) as [-> | ->]; reflexivity.
Qed.

Lemma attempt_loop_exhausts fuel :
  5 ≤ fuel →
  attempt_loop transport fuel 0 0 [] =
    Some (OK None,
          [Request; LogWarning 1 5; Sleep 1; Request; LogWarning 2 5; Sleep 2;
           Request; LogWarning 3 5; Sleep 3; Request; LogWarning 4 5; Sleep 4;
           Request; LogWarning 5 5; Sleep 5; LogError]).
Proof.
  intros Hfuel.
  do 5 (destruct fuel as [|fuel]; [lia|]).
  do 5 (rewrite attempt_loop_failed; cbn -[attempt_loop]). reflexivity.
Qed.
End fetch_facts.

(** C7.  When every call of the transport raises a connection error or a
    read timeout, [make_request] returns (given room for five iterations
    of its loop) and its result is [None], not an exception; it has called
    the transport exactly 5 times, and the sleeps between consecutive
    calls are 1, 2, 3 and 4 seconds: before attempt [n+1] the delay is
    [n]. *)
Theorem make_request_retry_exhaustion (transport : nat → Fetch.outcome) (fuel : nat) :
  (∀ n, transport n = Fetch.ConnectionError ∨ transport n = Fetch.ReadTimeout) →
  5 ≤ fuel →
  ∃ tr, Fetch.make_request transport fuel = Some (OK None, tr)
        ∧ Fetch.attempts tr = 5
        ∧ Fetch.delays_between tr = [1; 2; 3; 4]
        ∧ (∀ n, n < 4 → Fetch.delays_between tr !! n = Some (S n)).
Proof.
  intros Hdown Hfuel. eexists. unfold Fetch.make_request.
  rewrite (attempt_loop_exhausts transport Hdown fuel Hfuel).
  split; [reflexivity|]. split; [reflexivity|]. split; [reflexivity|].
  intros n Hn. do 4 (destruct n as [|n]; [reflexivity|]). lia.
Qed.

Lemma make_request_retry_exhaustion_witness :
  ∃ tr, Fetch.make_request (λ _, Fetch.ReadTimeout) 5 = Some (OK None, tr)
        ∧ Fetch.attempts tr = 5
        ∧ Fetch.delays_between tr = [1; 2; 3; 4]
        ∧ (∀ n, n < 4 → Fetch.delays_between tr !! n = Some (S n)).
Proof.
  apply (make_request_retry_exhaustion (λ _, Fetch.ReadTimeout) 5).
  - intros n. right. reflexivity.
  - lia.
Defined.

(** ** The size gate *)

Section gate_facts.
Import Crawl Gate.

Context {content : Type}.
Context (getsize : content → Z).
Context (http_get : string → option content).
Context (fitz_save : content → fitz_result content).

Abbreviation gate_body := (gate_body getsize http_get fitz_save).
Abbreviation gate_loop := (gate_loop getsize http_get fitz_save).

(** Line 181: with the output in place the body does nothing. *)
Lemma gate_body_present pdfs (w : world) pdf :
  is_Some (fs w !! compressed_pdf pdf) → gate_body pdfs w pdf = (w, OK ()).
Proof. intros H. unfold Gate.gate_body. rewrite decide_True by done. done. Qed.

(** The gate only ever writes to paths that do not exist yet. *)
Lemma gate_body_keeps_files pdfs (w : world) pdf p c :
  fs w !! p = Some c → fs (gate_body pdfs w pdf).1 !! p = Some c.
Proof.
  intros Hp. unfold Gate.gate_body.
  destruct (decide (is_Some (fs w !! compressed_pdf pdf))) as [|Hout]; [done|].
  assert (p ≠ compressed_pdf pdf) as Hne1 by (intros ->; apply Hout; eauto).
  destruct (decide (is_Some (fs w !! pdf_name pdf))) as [[raw Hraw]|Hraw].
  - rewrite Hraw.
    destruct (getsize raw >? SIZE_LIMIT)%Z; [destruct (fitz_save raw)|];
      cbn; rewrite ?lookup_insert_ne; done.
  - assert (p ≠ pdf_name pdf) as Hne2 by (intros ->; apply Hraw; eauto).
    destruct (PyDict.get pdf pdfs) as [r|]; [|done].
    destruct (http_get (url r)) as [c'|]; [|done].
    cbn. rewrite lookup_insert_eq.
    destruct (getsize c' >? SIZE_LIMIT)%Z; [destruct (fitz_save c')|];
      cbn; rewrite ?lookup_insert_ne by done; rewrite ?lookup_insert_ne; done.
Qed.

(** Every event of the body carries the key the body was called for. *)
Lemma gate_body_events pdfs (w : world) pdf :
  ∃ evs, trace (gate_body pdfs w pdf).1 = trace w ++ evs
         ∧ Forall (λ e, event_key e = pdf) evs.
Proof.
  unfold Gate.gate_body.
  destruct (decide (is_Some (fs w !! compressed_pdf pdf))).
  { exists []. by rewrite app_nil_r. }
  destruct (decide (is_Some (fs w !! pdf_name pdf))) as [[raw Hraw]|Hraw].
  - rewrite Hraw.
    destruct (getsize raw >? SIZE_LIMIT)%Z; [destruct (fitz_save raw)|];
      cbn; eexists; (split; [reflexivity|]); repeat constructor.
  - destruct (PyDict.get pdf pdfs) as [r|]; [|exists []; by rewrite app_nil_r].
    destruct (http_get (url r)) as [c'|]; cbn.
    + rewrite lookup_insert_eq.
      destruct (getsize c' >? SIZE_LIMIT)%Z; [destruct (fitz_save c')|];
        cbn; rewrite <- app_assoc; eexists; (split; [reflexivity|]);
        repeat constructor.
    + eexists; (split; [reflexivity|]); repeat constructor.
Qed.

Lemma gate_body_other_key pdfs (w : world) pdf k :
  k ≠ pdf →
  filter (λ e, event_key e = k) (trace (gate_body pdfs w pdf).1)
  = filter (λ e, event_key e = k) (trace w).
Proof.
  intros Hne. destruct (gate_body_events pdfs w pdf) as (evs & -> & Hevs).
  rewrite filter_app.
  replace (filter (λ e, event_key e = k) evs) with (@nil event);
    [by rewrite app_nil_r|].
  symmetry. induction Hevs as [|e evs He _ IH]; [done|].
  rewrite filter_cons_False by congruence. done.
Qed.

Lemma gate_loop_keeps pdfs keys (w : world) pdf out :
  fs w !! compressed_pdf pdf = Some out →
  fs (gate_loop pdfs keys w).1 !! compressed_pdf pdf = Some out
  ∧ filter (λ e, event_key e = pdf) (trace (gate_loop pdfs keys w).1)
    = filter (λ e, event_key e = pdf) (trace w).
Proof.
  revert w. induction keys as [|k keys IH]; intros w Hout; [done|].
  cbn [Gate.gate_loop].
  assert (fs (gate_body pdfs w k).1 !! compressed_pdf pdf = Some out
          ∧ filter (λ e, event_key e = pdf) (trace (gate_body pdfs w k).1)
            = filter (λ e, event_key e = pdf) (trace w)) as [Hfs Htr].
  { split; [by apply gate_body_keeps_files|].
    destruct (decide (pdf = k)) as [->|Hne].
    - rewrite gate_body_present; eauto.
    - by apply gate_body_other_key. }
  destruct (gate_body pdfs w k) as [w' [[]| |]]; cbn in *; [|done..].
  destruct (IH w' Hfs) as [? ->]. done.
Qed.

(** C9.  Once the output file of a key exists, the gate does nothing
    for that key: the loop body for it returns the world as it is, and a
    whole run over any keys, whatever it does for the other keys and
    however it ends, adds no download, no compression and no copy for
    this key, and leaves its output file as it was. *)
Theorem gate_idempotent pdfs keys (w : world) pdf out :
  fs w !! compressed_pdf pdf = Some out →
  gate_body pdfs w pdf = (w, OK ())
  ∧ fs (gate_loop pdfs keys w).1 !! compressed_pdf pdf = Some out
  ∧ filter (λ e, event_key e = pdf) (trace (gate_loop pdfs keys w).1)
    = filter (λ e, event_key e = pdf) (trace w).
Proof.
  intros Hout. split; [apply gate_body_present; eauto|].
  by apply gate_loop_keeps.
Qed.

(** A run that finds every output in place does nothing at all. *)
Lemma gate_loop_all_present pdfs keys (w : world) :
  Forall (λ k, is_Some (fs w !! compressed_pdf k)) keys →
  gate_loop pdfs keys w = (w, OK ()).
Proof.
  induction 1 as [|k keys Hk _ IH]; [done|].
  cbn [Gate.gate_loop]. by rewrite gate_body_present.
Qed.

(** After a run that came to its end every key has its output. *)
Lemma gate_loop_produces pdfs keys (w w' : world) :
  gate_loop pdfs keys w = (w', OK ()) →
  Forall (λ k, is_Some (fs w' !! compressed_pdf k)) keys.
Proof.
  revert w. induction keys as [|k keys IH]; intros w Hrun; [constructor|].
  cbn [Gate.gate_loop] in Hrun.
  assert (is_Some (fs (gate_body pdfs w k).1 !! compressed_pdf k)) as [c Hc].
  { unfold Gate.gate_body.
    destruct (decide (is_Some (fs w !! compressed_pdf k))) as [|Hout]; [done|].
    revert Hrun. unfold Gate.gate_body. rewrite (decide_False _ _ Hout).
    destruct (decide (is_Some (fs w !! pdf_name k))) as [[raw Hraw]|Hraw].
    - rewrite Hraw.
      destruct (getsize raw >? SIZE_LIMIT)%Z; [destruct (fitz_save raw)|];
        cbn; rewrite ?lookup_insert_eq; eauto; done.
    - destruct (PyDict.get k pdfs) as [r|]; [|done].
      destruct (http_get (url r)) as [c'|]; [|done].
      cbn. rewrite lookup_insert_eq.
      destruct (getsize c' >? SIZE_LIMIT)%Z; [destruct (fitz_save c')|];
        cbn; rewrite ?lookup_insert_eq; eauto; done. }
  destruct (gate_body pdfs w k) as [w1 [[]| |]] eqn:Hbody; [|done..].
  cbn in Hc. constructor.
  - pose proof (gate_loop_keeps pdfs keys w1 k c Hc) as [Hkeep _].
    rewrite Hrun in Hkeep. eauto.
  - by eapply IH.
Qed.

(** Running the gate a second time, on the files the first run left,
    performs no download and no compression and changes no file. *)
Lemma gate_second_run pdfs fs0 (w1 : world) :
  download_and_compress_pdfs getsize http_get fitz_save pdfs fs0 = (w1, OK ()) →
  download_and_compress_pdfs getsize http_get fitz_save pdfs (fs w1)
  = (World (fs w1) [], OK ()).
Proof.
  unfold download_and_compress_pdfs. intros Hrun.
  apply gate_loop_all_present. by apply gate_loop_produces in Hrun.
Qed.

Lemma at_limit_not_over : (SIZE_LIMIT >? SIZE_LIMIT)%Z = false.
Proof. reflexivity. Qed.

Lemma past_limit_over : (SIZE_LIMIT + 1 >? SIZE_LIMIT)%Z = true.
Proof. reflexivity. Qed.

(** C8.  With no output yet and the raw bytes at hand (cached, or just
    downloaded), a raw length of exactly [15 * 1024 * 1024] makes the
    body copy the raw bytes to the output without calling the
    compression transform; one byte more makes it call the transform on
    the raw bytes. *)
Theorem size_gate_boundary pdfs (w : world) pdf raw :
  fs w !! compressed_pdf pdf = None →
  (fs w !! pdf_name pdf = Some raw
   ∨ (fs w !! pdf_name pdf = None
      ∧ ∃ r, PyDict.get pdf pdfs = Some r ∧ http_get (url r) = Some raw)) →
  SIZE_LIMIT = 15728640%Z
  ∧ (getsize raw = SIZE_LIMIT →
       ∃ pre, (gate_body pdfs w pdf).2 = OK ()
              ∧ trace (gate_body pdfs w pdf).1 = trace w ++ pre ++ [Copy pdf]
              ∧ (Compress pdf ∉ pre)
              ∧ fs (gate_body pdfs w pdf).1 !! compressed_pdf pdf = Some raw)
  ∧ (getsize raw = (SIZE_LIMIT + 1)%Z →
       ∃ pre, (gate_body pdfs w pdf).2
                = match fitz_save raw with
                  | Saved _ => OK ()
                  | SaveValueError => Exit 1
                  | OtherFailure => Raise FitzError
                  end
              ∧ trace (gate_body pdfs w pdf).1 = trace w ++ pre ++ [Compress pdf]
              ∧ (Copy pdf ∉ pre)
              ∧ ∀ out, fitz_save raw = Saved out →
                       fs (gate_body pdfs w pdf).1 !! compressed_pdf pdf = Some out).
Proof.
  intros Hout Hraw. split; [reflexivity|].
  assert (¬ is_Some (fs w !! compressed_pdf pdf)) as Hno
    by (rewrite Hout; by intros [? ?]).
  unfold Gate.gate_body. rewrite (decide_False _ _ Hno).
  destruct Hraw as [Hraw | (Hraw & r & Hr & Hget)].
  - rewrite decide_True by eauto. rewrite Hraw. split; intros Hsize.
    + rewrite Hsize, at_limit_not_over. cbn. exists []. rewrite lookup_insert_eq.
      split; [done|]. split; [done|]. split; [|done]. by intros ?%elem_of_nil.
    + rewrite Hsize, past_limit_over. cbn. exists []. destruct (fitz_save raw); cbn;
        (split; [done|]); (split; [done|]);
        (split; [by intros ?%elem_of_nil|]); intros out' [=]; subst.
      by rewrite lookup_insert_eq.
  - rewrite decide_False by (rewrite Hraw; by intros [? ?]).
    rewrite Hr, Hget. cbn. rewrite lookup_insert_eq. split; intros Hsize.
    + rewrite Hsize, at_limit_not_over. cbn. exists [Download pdf (url r)].
      rewrite lookup_insert_eq, <- app_assoc.
      split; [done|]. split; [done|]. split; [|done].
      intros He%list_elem_of_singleton. discriminate He.
    + rewrite Hsize, past_limit_over. cbn. exists [Download pdf (url r)].
      rewrite <- app_assoc. destruct (fitz_save raw); cbn;
        (split; [done|]); (split; [done|]);
        (split; [intros He%list_elem_of_singleton; discriminate He|]);
        intros out' [=]; subst.
      by rewrite lookup_insert_eq.
Qed.
End gate_facts.


Lemma gate_idempotent_witness :
  let w := Gate.World ({[ Gate.compressed_pdf "k" := 7%Z ]} : gmap string Z) [] in
  Gate.gate_body id (λ _, None) halve [("k", sample_pdf)] w "k" = (w, OK ())
  ∧ Gate.fs (Gate.gate_loop id (λ _, None) halve [("k", sample_pdf)] ["k"] w).1
      !! Gate.compressed_pdf "k" = Some 7%Z
  ∧ filter (λ e, Gate.event_key e = "k")
      (Gate.trace (Gate.gate_loop id (λ _, None) halve [("k", sample_pdf)] ["k"] w).1)
    = filter (λ e, Gate.event_key e = "k") (Gate.trace w).
Proof.
  intros w.
  apply (gate_idempotent id (λ _, None) halve [("k", sample_pdf)] ["k"] w "k" 7%Z).
  reflexivity.
Defined.

Lemma size_gate_boundary_witness :
  (* exactly at the ceiling, raw bytes cached: copied *)
  (let w := Gate.World ({[ Gate.pdf_name "k" := 15728640%Z ]} : gmap string Z) [] in
   ∃ pre, (Gate.gate_body id (λ _, None) halve [("k", sample_pdf)] w "k").2 = OK ()
          ∧ Gate.trace (Gate.gate_body id (λ _, None) halve [("k", sample_pdf)] w "k").1
            = Gate.trace w ++ pre ++ [Gate.Copy "k"]
          ∧ (Gate.Compress "k" ∉ pre)
          ∧ Gate.fs (Gate.gate_body id (λ _, None) halve [("k", sample_pdf)] w "k").1
              !! Gate.compressed_pdf "k" = Some 15728640%Z)
  (* one byte more, raw bytes downloaded: compressed *)
  ∧ (let w := Gate.World (∅ : gmap string Z) [] in
     let get := λ _ : string, Some 15728641%Z in
     ∃ pre, (Gate.gate_body id get halve [("k", sample_pdf)] w "k").2 = OK ()
            ∧ Gate.trace (Gate.gate_body id get halve [("k", sample_pdf)] w "k").1
              = Gate.trace w ++ pre ++ [Gate.Compress "k"]
            ∧ (Gate.Copy "k" ∉ pre)
            ∧ ∀ out, halve 15728641%Z = Gate.Saved out →
                     Gate.fs (Gate.gate_body id get halve [("k", sample_pdf)] w "k").1
                       !! Gate.compressed_pdf "k" = Some out).
Proof.
  split.
  - intros w.
    apply (size_gate_boundary id (λ _, None) halve [("k", sample_pdf)] w "k" 15728640%Z).
    + reflexivity.
    + left. reflexivity.
    + reflexivity.
  - intros w get.
    apply (size_gate_boundary id get halve [("k", sample_pdf)] w "k" 15728641%Z).
    + reflexivity.
    + right. split; [reflexivity|]. exists sample_pdf. split; reflexivity.
    + reflexivity.
Defined.

(** ** Dictionaries *)

Section dict_facts.
Context {V : Type}.
Implicit Types (d : list (string * V)) (k : string) (v : V).

Lemma get_set d k k' v :
  PyDict.get k (PyDict.set k' v d) = if decide (k = k') then Some v else PyDict.get k d.
Proof.
  induction d as [|[k0 v0] d IH]; cbn.
  - by destruct (decide (k = k')).
  - destruct (decide (k' = k0)) as [->|Hne]; cbn.
    + by destruct (decide (k = k0)).
    + destruct (decide (k = k0)) as [->|]; [|done].
      by rewrite decide_False by done.
Qed.

Lemma get_set_eq d k v : PyDict.get k (PyDict.set k v d) = Some v.
Proof. rewrite get_set. by rewrite decide_True. Qed.

Lemma get_set_ne d k k' v :
  k ≠ k' → PyDict.get k (PyDict.set k' v d) = PyDict.get k d.
Proof. intros. rewrite get_set. by rewrite decide_False. Qed.

Lemma keys_set d k v :
  PyDict.keys (PyDict.set k v d)
  = if PyDict.mem k d then PyDict.keys d else PyDict.keys d ++ [k].
Proof.
  unfold PyDict.keys, PyDict.mem.
  induction d as [|[k0 v0] d IH]; cbn; [done|].
  destruct (decide (k = k0)) as [->|Hne]; cbn; [done|].
  rewrite IH. by destruct (PyDict.get k d).
Qed.

Lemma get_Some_keys d k v : PyDict.get k d = Some v → k ∈ PyDict.keys d.
Proof.
  unfold PyDict.keys. induction d as [|[k0 v0] d IH]; cbn; [done|].
  destruct (decide (k = k0)) as [->|]; [left|right; auto].
Qed.

Lemma keys_get_Some d k : k ∈ PyDict.keys d → is_Some (PyDict.get k d).
Proof.
  unfold PyDict.keys. induction d as [|[k0 v0] d IH]; cbn.
  - by intros ?%elem_of_nil.
  - destruct (decide (k = k0)) as [->|Hne]; [eauto|].
    intros [?|?]%elem_of_cons; [done|auto].
Qed.

Lemma get_None_keys d k : PyDict.get k d = None → k ∉ PyDict.keys d.
Proof. intros Hget [v Hv]%keys_get_Some. congruence. Qed.

Lemma get_Some_elem d k v : PyDict.get k d = Some v → (k, v) ∈ d.
Proof.
  induction d as [|[k0 v0] d IH]; cbn; [done|].
  destruct (decide (k = k0)) as [->|]; [intros [= ->]; left|right; auto].
Qed.

(** Assignment keeps the keys of a dictionary distinct. *)
Lemma NoDup_keys_set d k v :
  NoDup (PyDict.keys d) → NoDup (PyDict.keys (PyDict.set k v d)).
Proof.
  intros Hnd. rewrite keys_set. unfold PyDict.mem.
  destruct (PyDict.get k d) eqn:Hget; [done|].
  apply NoDup_app. split; [done|]. split; [|apply NoDup_singleton].
  intros x Hx ->%list_elem_of_singleton. by apply get_None_keys in Hget.
Qed.

(** With distinct keys, an entry is found by [get]. *)
Lemma elem_get_NoDup d k v :
  NoDup (PyDict.keys d) → (k, v) ∈ d → PyDict.get k d = Some v.
Proof.
  unfold PyDict.keys. induction d as [|[k0 v0] d IH]; cbn.
  - by intros _ ?%elem_of_nil.
  - intros [Hk0 Hnd]%NoDup_cons [[= -> ->]|Hin]%elem_of_cons.
    + by rewrite decide_True.
    + rewrite decide_False; [auto|].
      intros ->. apply Hk0. apply list_elem_of_fmap. by exists (k0, v).
Qed.
End dict_facts.

(** ** The extraction pass *)

Lemma bind_OK {A B} (m : result A) (k : A → result B) b :
  (m ≫= k) = OK b → ∃ a, m = OK a ∧ k a = OK b.
Proof. destruct m as [a| |]; cbn; [eauto|done..]. Qed.

Section crawl_facts.
Import Crawl.

Lemma get_strip_OK o s : get_strip o = OK s → ∃ raw, o = Some raw ∧ s = Py.strip raw.
Proof. destruct o; cbn; [intros [= <-]; eauto|done]. Qed.

(** The only outcomes of examining an element: it is skipped with the
    URL list untouched (wrong extension, or URL already seen), or its URL
    is new and recorded, and then it is either dropped by the topic
    filter or registered under the key computed from its own fields. *)
Lemma examine_cases element urls lv link d :
  examine element urls lv link = OK d →
  d = Continue urls
  ∨ ∃ u, resolve_url element link = OK (Some u) ∧ (u ∉ urls)
         ∧ (d = Continue (urls ++ [u])
            ∨ ∃ r, d = Register (urls ++ [u])
                       (make_idx (topic r) (level r) (term r) (name r)) r
                   ∧ url r = u).
Proof.
  unfold examine. intros (ourl & Hurl & H)%bind_OK.
  destruct ourl as [u|]; [|left; congruence].
  destruct (decide (u ∈ urls)) as [|Hnew]; [left; congruence|].
  right. exists u. split; [done|]. split; [done|].
  apply bind_OK in H as (nm & _ & H).
  apply bind_OK in H as (tp & _ & H).
  apply bind_OK in H as (nm' & _ & H).
  destruct (excluded tp); [left; congruence|].
  apply bind_OK in H as (lvl & _ & H).
  apply bind_OK in H as (tm & _ & H).
  injection H as <-. right. eexists (Resource _ _ _ _ _). split; reflexivity.
Qed.
Lemma loop_app element l1 l2 st :
  loop element (l1 ++ l2) st = (loop element l1 st ≫= loop element l2).
Proof.
  revert st. induction l1 as [|e l1 IH]; intros st; cbn; [done|].
  destruct (loop_body element st e); cbn; [apply IH|done..].
Qed.

Lemma loop_body_OK element st link st' :
  loop_body element st link = OK st' →
  ∃ d, examine element (urls st) (level_var st) link = OK d
       ∧ st' = match d with
               | Continue urls' =>
                   State (topics st) (resources st) urls' (level_var st)
               | Register urls' idx r =>
                   State (register_topic (topic r) idx (topics st))
                         (PyDict.set idx r (resources st)) urls' (Some (level r))
               end.
Proof.
  unfold loop_body. intros (d & Hd & H)%bind_OK. exists d. split; [done|].
  destruct d; congruence.
Qed.

(** The list of seen URLs only grows. *)
Lemma loop_body_urls element st link st' :
  loop_body element st link = OK st' → urls st ⊆ urls st'.
Proof.
  intros (d & Hd & ->)%loop_body_OK.
  apply examine_cases in Hd as [->|(u & _ & _ & [->|(r & -> & _)])]; cbn;
    set_solver.
Qed.

Lemma loop_urls element links st st' :
  loop element links st = OK st' → urls st ⊆ urls st'.
Proof.
  revert st. induction links as [|e links IH]; intros st; cbn.
  - by intros [= ->].
  - intros (st1 & H1 & H2)%bind_OK.
    apply loop_body_urls in H1. apply IH in H2. set_solver.
Qed.

(** Lines 138-139: an element whose URL has been seen changes nothing. *)
Lemma loop_body_seen element st link u :
  resolve_url element link = OK (Some u) → u ∈ urls st →
  loop_body element st link = OK st.
Proof.
  intros Hu Hseen. unfold loop_body, examine. rewrite Hu. cbn.
  rewrite decide_True by done. cbn. by destruct st.
Qed.

Lemma excluded_not_course t : excluded t = true → t ≠ "Reading for Meaning Course".
Proof. intros H ->. discriminate H. Qed.

(** Lines 140-154: an element with a new URL and an excluded topic is
    dropped, after its URL has been recorded. *)
Lemma loop_body_excluded element st link u raw_name raw_topic :
  resolve_url element link = OK (Some u) → u ∉ urls st →
  data_label link = Some raw_name → data_cat1 link = Some raw_topic →
  excluded (Py.strip raw_topic) = true →
  loop_body element st link
  = OK (State (topics st) (resources st) (urls st ++ [u]) (level_var st)).
Proof.
  intros Hu Hnew Hname Htopic Hex. unfold loop_body, examine.
  rewrite Hu. cbn. rewrite decide_False by done.
  rewrite Hname, Htopic. cbn.
  rewrite (decide_False _ _ (excluded_not_course _ Hex)). cbn.
  by rewrite Hex.
Qed.
End crawl_facts.

(** C10.  The URL of an element is appended to the list of seen URLs
    before the topic filter runs.  Hence when an element with a new URL is
    dropped by the filter, a later element of the same pass that resolves
    to the same URL is skipped as a duplicate, whatever its topic: the pass
    runs exactly as if that later element were not on the page. *)
Theorem url_recorded_before_exclusion
    element l1 e l2 e' l3 st0 st1 u raw_name raw_topic :
  Crawl.loop element l1 st0 = OK st1 →
  Crawl.resolve_url element e = OK (Some u) → u ∉ Crawl.urls st1 →
  Crawl.data_label e = Some raw_name → Crawl.data_cat1 e = Some raw_topic →
  Crawl.excluded (Py.strip raw_topic) = true →
  Crawl.resolve_url element e' = OK (Some u) →
  Crawl.loop element (l1 ++ [e]) st0
  = OK (Crawl.State (Crawl.topics st1) (Crawl.resources st1)
                    (Crawl.urls st1 ++ [u]) (Crawl.level_var st1))
  ∧ Crawl.loop element (l1 ++ e :: l2 ++ e' :: l3) st0
    = Crawl.loop element (l1 ++ e :: l2 ++ l3) st0.
Proof.
  intros Hl1 Hu Hnew Hname Htopic Hex Hu'.
  pose proof (loop_body_excluded element st1 e u _ _ Hu Hnew Hname Htopic Hex) as He.
  split.
  - rewrite loop_app, Hl1. cbn. by rewrite He.
  - rewrite !loop_app, Hl1. cbn. rewrite He. cbn.
    rewrite !loop_app.
    destruct (Crawl.loop element l2 _) as [st2| |] eqn:Hl2; cbn; [|done..].
    rewrite (loop_body_seen element st2 e' u Hu'); [done|].
    apply loop_urls in Hl2. cbn in Hl2. set_solver.
Qed.


Lemma url_recorded_before_exclusion_witness :
  let st0 := Crawl.State [] [] [] None in
  Crawl.loop "a" ([] ++ [phonics_poster]) st0
  = OK (Crawl.State [] [] ([] ++ ["https://fundawande.org/docs/p.pdf"]) None)
  ∧ Crawl.loop "a" ([] ++ phonics_poster :: [] ++ maths_same_file :: []) st0
    = Crawl.loop "a" ([] ++ phonics_poster :: [] ++ []) st0.
Proof.
  intros st0.
  apply (url_recorded_before_exclusion "a" [] phonics_poster [] maths_same_file []
           st0 st0 "https://fundawande.org/docs/p.pdf" "Sounds" "Phonics Posters").
  - reflexivity.
  - reflexivity.
  - apply not_elem_of_nil.
  - reflexivity.
  - reflexivity.
  - reflexivity.
  - reflexivity.
Defined.

Section crawl_records.
Import Crawl.


(** The returned dictionary is the initial one after the assignments
    of the pass, in order. *)
Lemma loop_resources element links st st' :
  loop element links st = OK st' →
  resources st'
  = foldl assign (resources st)
      (registrations element links (urls st) (level_var st)).
Proof.
  revert st. induction links as [|e links IH]; intros st; cbn.
  - by intros [= ->].
  - intros (st1 & H1 & H2)%bind_OK.
    apply loop_body_OK in H1 as (d & Hd & ->). rewrite Hd.
    destruct d as [urls'|urls' idx r]; apply IH in H2; cbn in H2; by rewrite H2.
Qed.

Lemma last_assigned_cons k k0 r0 regs :
  last_assigned k ((k0, r0) :: regs)
  = match last_assigned k regs with
    | Some r => Some r
    | None => if decide (k0 = k) then Some r0 else None
    end.
Proof.
  unfold last_assigned. rewrite filter_cons. cbn.
  destruct (decide (k0 = k)); [|by destruct (last _)].
  rewrite last_cons. by destruct (last _).
Qed.

(** Reading a key after a sequence of assignments gives the last value
    assigned to it, and the old value when there was none. *)
Lemma get_foldl_assign k regs d :
  PyDict.get k (foldl assign d regs)
  = match last_assigned k regs with
    | Some r => Some r
    | None => PyDict.get k d
    end.
Proof.
  revert d. induction regs as [|[k0 r0] regs IH]; intros d; [done|].
  cbn [foldl]. rewrite IH, last_assigned_cons.
  destruct (last_assigned k regs); [done|].
  unfold assign. cbn. rewrite get_set.
  destruct (decide (k = k0)) as [->|Hne].
  - by rewrite decide_True.
  - by rewrite decide_False.
Qed.

Lemma NoDup_keys_foldl_assign regs d :
  NoDup (PyDict.keys d) → NoDup (PyDict.keys (foldl assign d regs)).
Proof.
  revert d. induction regs as [|[k0 r0] regs IH]; intros d Hd; [done|].
  cbn [foldl]. apply IH. by apply NoDup_keys_set.
Qed.

Lemma crawl_OK element page topics0 res topics' :
  crawl element page topics0 = OK (res, topics') →
  ∃ links st, page = Some links
              ∧ loop element links (State topics0 [] [] None) = OK st
              ∧ res = resources st ∧ topics' = Crawl.topics st.
Proof.
  unfold crawl. intros (links & Hpage & H)%bind_OK.
  destruct page as [links'|]; [|done]. injection Hpage as ->.
  apply bind_OK in H as (st & Hst & [= <- <-]). eauto 6.
Qed.
End crawl_records.

(** C1 (as the code has it).  The mapping a crawl pass returns holds at
    most one record per identity key, and the record found under a key is
    the one of the last element of the pass that was registered under
    that key: a later assignment replaces an earlier one. *)
Theorem crawl_last_assignment_wins element links topics0 res topics' :
  Crawl.crawl element (Some links) topics0 = OK (res, topics') →
  NoDup (PyDict.keys res)
  ∧ ∀ k r, (k, r) ∈ res
           ↔ Crawl.last_assigned k (Crawl.registrations element links [] None) = Some r.
Proof.
  intros (links' & st & [= <-] & Hloop & -> & _)%crawl_OK.
  apply loop_resources in Hloop. cbn in Hloop.
  assert (NoDup (PyDict.keys (Crawl.resources st))) as Hnd.
  { rewrite Hloop. apply NoDup_keys_foldl_assign. constructor. }
  split; [done|]. intros k r.
  assert (PyDict.get k (Crawl.resources st)
          = Crawl.last_assigned k (Crawl.registrations element links [] None)) as Hget.
  { rewrite Hloop, get_foldl_assign. by destruct (Crawl.last_assigned _ _). }
  rewrite <- Hget. split.
  - by apply elem_get_NoDup.
  - apply get_Some_elem.
Qed.



Lemma crawl_last_assignment_wins_witness :
  NoDup (PyDict.keys [("Maths-Grade_1-Term_2-Workbook_1_id",
                       Crawl.Resource "Workbook 1" "Maths" "Grade 1" "Term 2"
                                      "https://fundawande.org/docs/b.pdf")])
  ∧ ∀ k r,
      (k, r) ∈ [("Maths-Grade_1-Term_2-Workbook_1_id",
                 Crawl.Resource "Workbook 1" "Maths" "Grade 1" "Term 2"
                                "https://fundawande.org/docs/b.pdf")]
      ↔ Crawl.last_assigned k
          (Crawl.registrations "a" [workbook_a; workbook_b] [] None) = Some r.
Proof.
  apply (crawl_last_assignment_wins "a" [workbook_a; workbook_b] []
           _ [("Maths", ["Maths-Grade_1-Term_2-Workbook_1_id";
                         "Maths-Grade_1-Term_2-Workbook_1_id"])]).
  reflexivity.
Defined.

(** C1 (as the spec has it) fails: two links to different files with the
    same topic, level, term and name produce the same identity key; the
    record that survives is the one of the second link, not of the
    first. *)
Lemma first_seen_record_is_replaced :
  let k := "Maths-Grade_1-Term_2-Workbook_1_id" in
  let r1 := Crawl.Resource "Workbook 1" "Maths" "Grade 1" "Term 2"
                           "https://fundawande.org/docs/a.pdf" in
  let r2 := Crawl.Resource "Workbook 1" "Maths" "Grade 1" "Term 2"
                           "https://fundawande.org/docs/b.pdf" in
  Crawl.registrations "a" [workbook_a; workbook_b] [] None = [(k, r1); (k, r2)]
  ∧ Crawl.first_assigned k [(k, r1); (k, r2)] = Some r1
  ∧ ∃ res topics',
      Crawl.crawl "a" (Some [workbook_a; workbook_b]) [] = OK (res, topics')
      ∧ PyDict.get k res = Some r2
      ∧ PyDict.get k res ≠ Some r1
      ∧ (k, r1) ∉ res.
Proof.
  intros k r1 r2. split; [reflexivity|]. split; [reflexivity|].
  eexists _, _. split; [reflexivity|]. split; [reflexivity|].
  split; [discriminate|].
  intros Hin%list_elem_of_singleton. discriminate Hin.
Qed.

Section idx_facts.
Import Crawl.

Lemma contains_space_replace s : Py.contains " " (Py.replace_space s) = false.
Proof.
  induction s as [|c s IH]; [reflexivity|].
  cbn [Py.replace_space Py.contains Py.startswith]. rewrite IH, orb_false_r, andb_true_r.
  destruct (Ascii.eqb c " ") eqn:Hc; [reflexivity|].
  by rewrite Ascii.eqb_sym.
Qed.

(** Every record of the returned dictionary sits under the key computed
    from its own four fields. *)
Lemma loop_keys element links st st' :
  (∀ k r, PyDict.get k (resources st) = Some r →
          k = make_idx (topic r) (level r) (term r) (name r)) →
  loop element links st = OK st' →
  ∀ k r, PyDict.get k (resources st') = Some r →
         k = make_idx (topic r) (level r) (term r) (name r).
Proof.
  revert st. induction links as [|e links IH]; intros st Hst; cbn.
  - by intros [= <-].
  - intros (st1 & H1 & H2)%bind_OK. apply (IH st1); [|done].
    apply loop_body_OK in H1 as (d & Hd & ->).
    apply examine_cases in Hd as [->|(u & _ & _ & [->|(r0 & -> & _)])]; cbn; [done..|].
    intros k r. rewrite get_set. case_decide; [|by auto].
    by intros [= <-].
Qed.

Lemma crawl_keys element page topics0 res topics' k r :
  crawl element page topics0 = OK (res, topics') →
  PyDict.get k res = Some r →
  k = make_idx (topic r) (level r) (term r) (name r).
Proof.
  intros (links & st & -> & Hloop & -> & _)%crawl_OK.
  by apply (loop_keys element links (State topics0 [] [] None) st).
Qed.

Lemma pre_run_crawls_OK learning video c :
  pre_run_crawls learning video = OK c →
  ∃ topics1,
    crawl "a" learning [] = OK (pdfs c, topics1)
    ∧ crawl "button" video topics1 = OK (videos c, chef_topics c).
Proof.
  unfold pre_run_crawls. intros ([pdfs1 topics1] & H1 & H)%bind_OK.
  apply bind_OK in H as ([videos1 topics2] & H2 & [= <-]). eauto.
Qed.
End idx_facts.

(** C5 (as the code has it).  In both pools the key of a record is its
    topic, level, term and name joined with [-], followed by the one
    suffix [_id], with every space replaced by an underscore.  The suffix
    does not depend on the kind of resource, so a document and a video
    with the same four fields have the same key. *)
Theorem identity_key_formula learning video c :
  Crawl.pre_run_crawls learning video = OK c →
  (∀ k r,
     PyDict.get k (Crawl.pdfs c) = Some r ∨ PyDict.get k (Crawl.videos c) = Some r →
     k = Py.replace_space
           (Crawl.topic r +:+ "-" +:+ Crawl.level r +:+ "-" +:+ Crawl.term r
            +:+ "-" +:+ Crawl.name r +:+ "_id")
     ∧ Py.contains " " k = false)
  ∧ (∀ kd rd kv rv,
       PyDict.get kd (Crawl.pdfs c) = Some rd →
       PyDict.get kv (Crawl.videos c) = Some rv →
       Crawl.topic rd = Crawl.topic rv → Crawl.level rd = Crawl.level rv →
       Crawl.term rd = Crawl.term rv → Crawl.name rd = Crawl.name rv →
       kd = kv).
Proof.
  intros (topics1 & Hpdfs & Hvideos)%pre_run_crawls_OK.
  assert (∀ k r,
            PyDict.get k (Crawl.pdfs c) = Some r ∨ PyDict.get k (Crawl.videos c) = Some r →
            k = Crawl.make_idx (Crawl.topic r) (Crawl.level r) (Crawl.term r)
                               (Crawl.name r)) as Hkey.
  { intros k r [H|H]; eauto using crawl_keys. }
  split.
  - intros k r H. rewrite (Hkey k r H). split; [reflexivity|].
    apply contains_space_replace.
  - intros kd rd kv rv Hd Hv Ht Hl Htm Hn.
    rewrite (Hkey kd rd), (Hkey kv rv) by auto. congruence.
Qed.

Lemma identity_key_formula_witness :
  let c := Crawl.Chef
             [("Maths", ["Maths-Grade_1-Term_2-Workbook_1_id";
                         "Maths-Grade_1-Term_2-Workbook_1_id"])]
             [("Maths-Grade_1-Term_2-Workbook_1_id",
               Crawl.Resource "Workbook 1" "Maths" "Grade 1" "Term 2"
                              "https://fundawande.org/docs/b.pdf")]
             [("Maths-Grade_1-Term_2-Workbook_1_id",
               Crawl.Resource "Workbook 1" "Maths" "Grade 1" "Term 2"
                              "https://fundawande.org/videos/w.mp4")] in
  (∀ k r,
     PyDict.get k (Crawl.pdfs c) = Some r ∨ PyDict.get k (Crawl.videos c) = Some r →
     k = Py.replace_space
           (Crawl.topic r +:+ "-" +:+ Crawl.level r +:+ "-" +:+ Crawl.term r
            +:+ "-" +:+ Crawl.name r +:+ "_id")
     ∧ Py.contains " " k = false)
  ∧ (∀ kd rd kv rv,
       PyDict.get kd (Crawl.pdfs c) = Some rd →
       PyDict.get kv (Crawl.videos c) = Some rv →
       Crawl.topic rd = Crawl.topic rv → Crawl.level rd = Crawl.level rv →
       Crawl.term rd = Crawl.term rv → Crawl.name rd = Crawl.name rv →
       kd = kv).
Proof.
  intros c.
  apply (identity_key_formula (Some [workbook_b]) (Some [workbook_video]) c).
  reflexivity.
Defined.

(** C5 (as the spec has it) fails: a link and a video control with the
    same topic, level, term and name are registered under one and the
    same key, in the document pool and in the video pool. *)
Lemma document_and_video_share_key :
  ∃ c k rd rv,
    Crawl.pre_run_crawls (Some [workbook_b]) (Some [workbook_video]) = OK c
    ∧ PyDict.get k (Crawl.pdfs c) = Some rd
    ∧ PyDict.get k (Crawl.videos c) = Some rv
    ∧ Crawl.url rd = "https://fundawande.org/docs/b.pdf"
    ∧ Crawl.url rv = "https://fundawande.org/videos/w.mp4"
    ∧ Crawl.topic rd = Crawl.topic rv ∧ Crawl.level rd = Crawl.level rv
    ∧ Crawl.term rd = Crawl.term rv ∧ Crawl.name rd = Crawl.name rv
    ∧ k = "Maths-Grade_1-Term_2-Workbook_1_id".
Proof.
  eexists _, "Maths-Grade_1-Term_2-Workbook_1_id", _, _.
  split; [reflexivity|]. repeat split; reflexivity.
Qed.

(** C4: what the code does.  For a video of the leveled course the name
    is prefixed with the value the variable [level] holds from the last
    element registered before it, not with the element's own level; when
    no element was registered before it, reading the variable raises. *)
Lemma course_video_prefix_is_stale :
  (∃ res topics' r,
     Crawl.crawl "button" (Some [maths_video; course_video]) [] = OK (res, topics')
     ∧ PyDict.get "Reading_for_Meaning_Course-Level_1-All-Grade_2:_Introduction_id" res
       = Some r
     ∧ Crawl.url r = "https://fundawande.org/videos/c.mp4"
     ∧ Crawl.level r = "Level 1"
     ∧ Crawl.name r = "Grade 2: Introduction"
     ∧ Crawl.name r ≠ "Level 1: Introduction")
  ∧ Crawl.crawl "button" (Some [course_video]) [] = Raise UnboundLocalError.
Proof.
  split; [|reflexivity].
  eexists _, _, _. split; [reflexivity|]. split; [reflexivity|].
  repeat split; try reflexivity. discriminate.
Qed.

(** ** The tree *)

Section tree_facts.
Import Crawl Tree.

Implicit Types (subs : list (string * subtopic_node)) (chs : list child).

Lemma leaves_with_app subs chs1 chs2 :
  leaves_with subs (chs1 ++ chs2) = leaves_with subs chs1 ++ leaves_with subs chs2.
Proof. unfold leaves_with. by rewrite omap_app, fmap_app, concat_app. Qed.

Lemma sub_refs_app chs1 chs2 : sub_refs (chs1 ++ chs2) = sub_refs chs1 ++ sub_refs chs2.
Proof. apply omap_app. Qed.

Lemma leaves_with_leaf subs l chs :
  leaves_with subs (ChildLeaf l :: chs) = l :: leaves_with subs chs.
Proof. reflexivity. Qed.

Lemma leaves_with_sub subs lvl chs :
  leaves_with subs (ChildSubtopic lvl :: chs)
  = match PyDict.get lvl subs with
    | Some n => sub_children n ++ leaves_with subs chs
    | None => leaves_with subs chs
    end.
Proof. unfold leaves_with. cbn. by destruct (PyDict.get lvl subs). Qed.

Lemma sub_refs_leaf l chs : sub_refs (ChildLeaf l :: chs) = sub_refs chs.
Proof. reflexivity. Qed.

Lemma sub_refs_sub lvl chs : sub_refs (ChildSubtopic lvl :: chs) = lvl :: sub_refs chs.
Proof. reflexivity. Qed.

(** Assigning to a subtopic the children do not refer to changes no leaf. *)
Lemma leaves_with_set_other subs chs lvl n :
  lvl ∉ sub_refs chs →
  leaves_with (PyDict.set lvl n subs) chs = leaves_with subs chs.
Proof.
  induction chs as [|[l|lvl'] chs IH]; intros Hnot; [done| |].
  - rewrite !leaves_with_leaf. rewrite sub_refs_leaf in Hnot. by rewrite IH.
  - rewrite !leaves_with_sub. rewrite sub_refs_sub in Hnot.
    rewrite get_set_ne by set_solver. rewrite IH by set_solver. done.
Qed.

(** Appending a leaf to a stored subtopic adds that leaf once, provided
    the children refer to the subtopic once. *)
Lemma leaves_with_set_grow subs chs lvl n n' l :
  NoDup (sub_refs chs) → PyDict.get lvl subs = Some n →
  sub_children n' = sub_children n ++ [l] →
  leaves_with (PyDict.set lvl n' subs) chs
  ≡ₚ (if decide (lvl ∈ sub_refs chs) then [l] else []) ++ leaves_with subs chs.
Proof.
  intros Hnd Hget Hn'.
  induction chs as [|[x|lvl'] chs IH].
  - by rewrite decide_False by apply not_elem_of_nil.
  - rewrite !leaves_with_leaf, sub_refs_leaf. rewrite sub_refs_leaf in Hnd.
    rewrite IH by done. by rewrite Permutation_middle.
  - rewrite !leaves_with_sub, sub_refs_sub. rewrite sub_refs_sub in Hnd.
    apply NoDup_cons in Hnd as [Hfresh Hnd].
    destruct (decide (lvl' = lvl)) as [->|Hne].
    + rewrite get_set_eq, Hget, Hn'. rewrite decide_True by left.
      rewrite leaves_with_set_other by done.
      rewrite <- app_assoc. cbn. by rewrite <- Permutation_middle.
    + rewrite get_set_ne by done.
      assert ((if decide (lvl ∈ lvl' :: sub_refs chs) then [l] else [])
              = if decide (lvl ∈ sub_refs chs) then [l] else []) as ->.
      { destruct (decide (lvl ∈ sub_refs chs)) as [Hin|Hnin].
        - by rewrite decide_True by (by right).
        - rewrite decide_False; [done|].
          intros [?|?]%elem_of_cons; [congruence|done]. }
      destruct (PyDict.get lvl' subs) as [m|]; rewrite IH by done; [|done].
      destruct (decide (lvl ∈ sub_refs chs)); cbn; [|done].
      by rewrite Permutation_middle.
Qed.
Lemma grows_refl subs : grows subs subs.
Proof. intros lvl n Hn. eauto. Qed.

Lemma grows_trans subs1 subs2 subs3 :
  grows subs1 subs2 → grows subs2 subs3 → grows subs1 subs3.
Proof.
  intros H12 H23 lvl n Hn.
  destruct (H12 lvl n Hn) as (n2 & Hn2 & Hsub2).
  destruct (H23 lvl n2 Hn2) as (n3 & Hn3 & Hsub3).
  exists n3. split; [done|]. set_solver.
Qed.

(** [topic_node.add_child(leaf)] *)
Lemma add_child_topic b l :
  wf_build b →
  let b' := add_child TheTopic l b in
  wf_build b' ∧ subtopics b' = subtopics b
  ∧ used_resorces b' = used_resorces b
  ∧ build_leaves b' ≡ₚ l :: build_leaves b.
Proof.
  intros [Hrefs Hnd]. unfold wf_build, build_leaves.
  cbn [add_child children subtopics used_resorces].
  rewrite sub_refs_app, leaves_with_app.
  change (sub_refs [ChildLeaf l]) with (@nil string).
  change (leaves_with (subtopics b) [ChildLeaf l]) with [l].
  rewrite app_nil_r. repeat split; [done..|].
  by rewrite <- Permutation_cons_append.
Qed.

(** [self.subtopics[lvl].add_child(leaf)] *)
Lemma add_child_sub b lvl n l :
  wf_build b → titled (subtopics b) → PyDict.get lvl (subtopics b) = Some n →
  let b' := add_child (TheSubtopic lvl) l b in
  wf_build b' ∧ titled (subtopics b') ∧ grows (subtopics b) (subtopics b')
  ∧ used_resorces b' = used_resorces b
  ∧ build_leaves b' ≡ₚ l :: build_leaves b
  ∧ ∃ n', PyDict.get lvl (subtopics b') = Some n' ∧ l ∈ sub_children n'.
Proof.
  intros [Hrefs Hnd] Htitled Hget. cbn [add_child]. rewrite Hget.
  unfold wf_build, build_leaves. cbn [children subtopics used_resorces].
  assert (PyDict.mem lvl (subtopics b) = true) as Hmem
    by (unfold PyDict.mem; by rewrite Hget).
  rewrite keys_set, Hmem. split; [done|]. split; [|split; [|split; [done|split]]].
  - intros lvl' n'. rewrite get_set. case_decide as Heq; [|by auto].
    intros [= <-]. cbn. subst. by apply Htitled.
  - intros lvl' n' Hn'. rewrite get_set. case_decide as Heq; [|by eauto].
    subst. eexists. split; [done|]. cbn.
    assert (n' = n) as -> by congruence. set_solver.
  - rewrite (leaves_with_set_grow _ _ _ n _ l); [|by rewrite Hrefs|done|done].
    rewrite decide_True; [done|].
    rewrite Hrefs. by eapply get_Some_keys.
  - eexists. rewrite get_set_eq. split; [done|]. cbn. set_solver.
Qed.

(** Lines 218-225: a new, empty subtopic node is stored and made a child
    of the topic node. *)
Lemma new_subtopic b lvl cats :
  wf_build b → titled (subtopics b) → PyDict.get lvl (subtopics b) = None →
  let n := SubtopicNode (lvl +:+ "_id") lvl cats [] in
  let b' := Build (used_resorces b) (PyDict.set lvl n (subtopics b))
                  (children b ++ [ChildSubtopic lvl]) in
  wf_build b' ∧ titled (subtopics b') ∧ grows (subtopics b) (subtopics b')
  ∧ build_leaves b' = build_leaves b
  ∧ PyDict.get lvl (subtopics b') = Some n.
Proof.
  intros [Hrefs Hnd] Htitled Hget. cbv zeta.
  assert (lvl ∉ sub_refs (children b)) as Hfresh
    by (rewrite Hrefs; by apply get_None_keys).
  unfold wf_build, build_leaves. cbn [children subtopics used_resorces].
  assert (PyDict.mem lvl (subtopics b) = false) as Hmem
    by (unfold PyDict.mem; by rewrite Hget).
  rewrite keys_set, Hmem, sub_refs_app, Hrefs.
  change (sub_refs [ChildSubtopic lvl]) with [lvl].
  split; [split; [done|]|split; [|split; [|split]]].
  - apply NoDup_app. split; [done|]. split; [|apply NoDup_singleton].
    intros x Hx ->%list_elem_of_singleton. by apply get_None_keys in Hget.
  - intros lvl' n'. rewrite get_set. case_decide as Heq; [|by auto].
    by intros [= <-].
  - intros lvl' n' Hn'. rewrite get_set_ne by congruence. eauto.
  - rewrite leaves_with_app, leaves_with_set_other by done.
    rewrite leaves_with_sub, get_set_eq. cbn. by rewrite app_nil_r.
  - by rewrite get_set_eq.
Qed.

(** Lines 252-276 and 283-297: the target node is chosen, created when
    needed, and the leaf is added to it. *)
Lemma place_spec us obj cats b l :
  wf_build b → titled (subtopics b) →
  let b' := (let '(t, b1) := get_subtopic_node us obj cats b in add_child t l b1) in
  wf_build b' ∧ titled (subtopics b') ∧ grows (subtopics b) (subtopics b')
  ∧ used_resorces b' = used_resorces b
  ∧ build_leaves b' ≡ₚ l :: build_leaves b
  ∧ (us = false → subtopics b' = subtopics b)
  ∧ (us = true → Py.contains "Grade" (level obj) = true →
       ∃ n, PyDict.get (level obj) (subtopics b') = Some n ∧ l ∈ sub_children n).
Proof.
  intros Hwf Htitled. unfold get_subtopic_node.
  assert (∀ b0, b0 = add_child TheTopic l b →
            wf_build b0 ∧ titled (subtopics b0) ∧ grows (subtopics b) (subtopics b0)
            ∧ used_resorces b0 = used_resorces b
            ∧ build_leaves b0 ≡ₚ l :: build_leaves b
            ∧ (subtopics b0 = subtopics b)) as Htopic.
  { intros b0 ->. destruct (add_child_topic b l Hwf) as (? & Hsubs & ? & ?).
    rewrite Hsubs. split_and!; try done. apply grows_refl. }
  destruct (Py.contains "Grade" (level obj)) eqn:HG; cbn [negb].
  2:{ destruct (Htopic _ eq_refl) as (?&?&?&?&?&?). split_and!; done. }
  destruct us.
  2:{ destruct (Htopic _ eq_refl) as (?&?&?&?&?&?). split_and!; done. }
  unfold PyDict.mem. destruct (PyDict.get (level obj) (subtopics b)) as [n|] eqn:Hget;
    cbn [negb].
  - destruct (add_child_sub b (level obj) n l Hwf Htitled Hget) as (?&?&?&?&?&?).
    split_and!; done.
  - destruct (new_subtopic b (level obj) cats Hwf Htitled Hget)
      as (Hwf1 & Htitled1 & Hgrows1 & Hleaves1 & Hget1).
    destruct (add_child_sub _ (level obj) _ l Hwf1 Htitled1 Hget1)
      as (?&?&Hgrows2&?&Hleaves2&?).
    split_and!; try done.
    + eapply grows_trans; [exact Hgrows1|exact Hgrows2].
    + by rewrite Hleaves2, Hleaves1.
Qed.
(** One iteration of the loop of line 244. *)
Lemma attach_spec c us cats b k :
  wf_build b → titled (subtopics b) →
  let b' := attach c us cats b k in
  wf_build b' ∧ titled (subtopics b') ∧ grows (subtopics b) (subtopics b')
  ∧ (us = false → subtopics b' = subtopics b)
  ∧ ((k ∈ used_resorces b ∧ b' = b)
     ∨ ((k ∉ used_resorces b) ∧ used_resorces b' = used_resorces b ++ [k]
        ∧ match record_of c k with
          | None => build_leaves b' = build_leaves b
          | Some obj =>
              ∃ l, build_leaves b' ≡ₚ l :: build_leaves b
                   ∧ source_id l = k ∧ kind_ok c l
                   ∧ (us = true → Py.contains "Grade" (level obj) = true →
                      ∃ n, PyDict.get (level obj) (subtopics b') = Some n
                           ∧ l ∈ sub_children n)
          end)).
Proof.
  intros Hwf Htitled. unfold attach.
  destruct (decide (k ∈ used_resorces b)) as [Hused|Hnew]; cbv zeta.
  { split_and!; [done|done|apply grows_refl|done|by left]. }
  set (b0 := Build (used_resorces b ++ [k]) (subtopics b) (children b)).
  assert (wf_build b0) as Hwf0 by done.
  assert (titled (subtopics b0)) as Htitled0 by done.
  unfold record_of.
  destruct (PyDict.get k (pdfs c)) as [obj|] eqn:Hpdf.
  - match goal with |- context [add_child _ ?leaf _] => set (l := leaf) end.
    pose proof (place_spec us obj cats b0 l Hwf0 Htitled0) as H. cbv zeta in H.
    destruct (get_subtopic_node us obj cats b0) as [t b1].
    destruct H as (?&?&?&Hu&?&?&?).
    split_and!; [done..|]. right. split; [done|]. split; [by rewrite Hu|].
    exists l. split_and!; [done|done| |done].
    unfold kind_ok. subst l. cbn. by rewrite Hpdf.
  - destruct (PyDict.get k (videos c)) as [obj|] eqn:Hvid.
    + match goal with |- context [add_child _ ?leaf _] => set (l := leaf) end.
      pose proof (place_spec us obj cats b0 l Hwf0 Htitled0) as H. cbv zeta in H.
      destruct (get_subtopic_node us obj cats b0) as [t b1].
      destruct H as (?&?&?&Hu&?&?&?).
      split_and!; [done..|]. right. split; [done|]. split; [by rewrite Hu|].
      exists l. split_and!; [done|done| |done].
      unfold kind_ok. subst l. cbn. by rewrite Hpdf.
    + split_and!; [done|done|apply grows_refl|done|]. right. done.
Qed.

Lemma attached_ok_step c used ls ls' k l :
  attached_ok c used ls → k ∉ used → source_id l = k → kind_ok c l →
  ls' ≡ₚ l :: ls → attached_ok c (used ++ [k]) ls'.
Proof.
  intros (Hnd & Hin & Hall) Hnew Hk Hkind Hperm. unfold attached_ok.
  split_and!.
  - rewrite Hperm, fmap_cons. apply NoDup_cons. split; [|done].
    intros (l' & Heq & Hl')%list_elem_of_fmap.
    apply Hin in Hl' as [Hl' _]. congruence.
  - intros l'. rewrite Hperm. intros [->|Hl']%elem_of_cons.
    + split; [|done]. rewrite Hk. apply elem_of_app. right. by left.
    + destruct (Hin l' Hl'). split; [|done]. apply elem_of_app. by left.
  - intros k' [Hk'| ->%list_elem_of_singleton]%elem_of_app Hrec.
    + destruct (Hall k' Hk' Hrec) as (l' & ? & ?). exists l'.
      rewrite Hperm. split; [by right|done].
    + exists l. rewrite Hperm. split; [by left|done].
Qed.

Lemma attached_ok_skip c used ls k :
  attached_ok c used ls → record_of c k = None → attached_ok c (used ++ [k]) ls.
Proof.
  intros (Hnd & Hin & Hall) Hrec. split_and!; [done| |].
  - intros l Hl. destruct (Hin l Hl). split; [|done]. apply elem_of_app. by left.
  - intros k' [Hk'| ->%list_elem_of_singleton]%elem_of_app [obj Hobj]; [eauto|].
    congruence.
Qed.

(** The loop of line 244 over the keys of one topic. *)
Lemma fold_attach_spec c us cats ls0 keys b :
  wf_build b → titled (subtopics b) →
  let b' := foldl (attach c us cats) b keys in
  wf_build b' ∧ titled (subtopics b') ∧ grows (subtopics b) (subtopics b')
  ∧ (attached_ok c (used_resorces b) (ls0 ++ build_leaves b) →
     attached_ok c (used_resorces b') (ls0 ++ build_leaves b'))
  ∧ used_resorces b ⊆ used_resorces b'
  ∧ (∀ k, k ∈ keys → k ∈ used_resorces b')
  ∧ (us = false → subtopics b' = subtopics b)
  ∧ (us = true → ∀ k obj,
       k ∈ keys → k ∉ used_resorces b → record_of c k = Some obj →
       Py.contains "Grade" (level obj) = true →
       ∃ n, PyDict.get (level obj) (subtopics b') = Some n
            ∧ k ∈ source_id <$> sub_children n).
Proof.
  revert b. induction keys as [|k keys IH]; intros b Hwf Htitled; cbn [foldl].
  { split_and!; try done; [apply grows_refl|by intros ? ?%elem_of_nil|].
    by intros _ ? ? ?%elem_of_nil. }
  destruct (attach_spec c us cats b k Hwf Htitled)
    as (Hwf1 & Htitled1 & Hgrows1 & Hsame1 & Hcase).
  set (b1 := attach c us cats b k) in *.
  assert (used_resorces b ⊆ used_resorces b1 ∧ k ∈ used_resorces b1) as (Hsub1 & Hk1).
  { destruct Hcase as [[Hused ->]|(Hnew & Hu & Hrec)]; [done|].
    rewrite Hu. split.
    - intros x Hx. apply elem_of_app. by left.
    - apply elem_of_app. right. by left. }
  assert (attached_ok c (used_resorces b) (ls0 ++ build_leaves b) →
          attached_ok c (used_resorces b1) (ls0 ++ build_leaves b1)) as Hok1.
  { intros Hok. destruct Hcase as [[Hused ->]|(Hnew & Hu & Hrec)]; [done|].
    rewrite Hu. destruct (record_of c k) as [obj|] eqn:Hobj.
    - destruct Hrec as (l & Hperm & Hid & Hkind & _).
      eapply attached_ok_step; [exact Hok|done..|].
      by rewrite Hperm, Permutation_middle.
    - rewrite Hrec. by apply attached_ok_skip. }
  destruct (IH b1 Hwf1 Htitled1)
    as (Hwf' & Htitled' & Hgrows' & Hok' & Hsub' & Hkeys' & Hsame' & Hplaced').
  split_and!; try done.
  - by eapply grows_trans.
  - auto.
  - by etrans.
  - intros k' [->|Hk']%elem_of_cons; [by apply Hsub'|auto].
  - intros Hus. by rewrite Hsame', Hsame1.
  - intros Hus k' obj Hk' Hnew' Hobj HG.
    destruct (decide (k' = k)) as [->|Hne].
    + destruct Hcase as [[Hused _]|(_ & _ & Hrec)]; [done|].
      rewrite Hobj in Hrec. destruct Hrec as (l & _ & Hid & _ & Hplace).
      destruct (Hplace Hus HG) as (n & Hn & Hl).
      destruct (Hgrows' _ _ Hn) as (n' & Hn' & Hsubset).
      exists n'. split; [done|]. apply list_elem_of_fmap. exists l. split; [done|].
      by apply Hsubset.
    + apply (Hplaced' Hus k' obj); [|  |done..].
      * apply elem_of_cons in Hk' as [?|?]; done.
      * destruct Hcase as [[_ ->]|(_ & Hu & _)]; [done|].
        rewrite Hu. intros [?|?%list_elem_of_singleton]%elem_of_app; done.
Qed.

Lemma subtopics_of_freeze sid ttl cats b :
  subtopics_of (TopicNode sid ttl cats (freeze b))
  = omap (λ lvl, PyDict.get lvl (subtopics b)) (sub_refs (children b)).
Proof.
  unfold subtopics_of, freeze. cbn [topic_children].
  induction (children b) as [|[l|lvl] chs IH]; [done|exact IH|].
  rewrite sub_refs_sub. cbn. destruct (PyDict.get lvl (subtopics b)); cbn; by rewrite IH.
Qed.

Lemma leaves_snoc channel node :
  leaves (channel ++ [node]) = leaves channel ++ leaves_of_topic node.
Proof. unfold leaves. rewrite fmap_app, concat_app. cbn. by rewrite app_nil_r. Qed.

(** Lines 235-299 for one topic. *)
Lemma build_topic_spec c used channel topic keys first :
  PyDict.get topic (chef_topics c) = Some keys → keys !! 0%nat = Some first →
  ∃ used' node,
    build_topic c used topic = OK (used', node)
    ∧ (attached_ok c used (leaves channel) →
       attached_ok c used' (leaves (channel ++ [node])))
    ∧ used ⊆ used'
    ∧ (∀ k, k ∈ keys → k ∈ used')
    ∧ (Py.contains "Grade" first = false → subtopics_of node = [])
    ∧ (Py.contains "Grade" first = true → ∀ k obj,
         k ∈ keys → k ∉ used → record_of c k = Some obj →
         Py.contains "Grade" (level obj) = true →
         ∃ s, s ∈ subtopics_of node ∧ sub_title s = level obj
              ∧ k ∈ source_id <$> sub_children s).
Proof.
  intros Hkeys Hfirst. unfold build_topic. rewrite Hkeys. cbn. rewrite Hfirst. cbn.
  set (b0 := Build used [] []).
  assert (wf_build b0) as Hwf0 by (split; [done|constructor]).
  assert (titled (subtopics b0)) as Htitled0 by (intros ? ? [=]).
  destruct (fold_attach_spec c (Py.contains "Grade" first) (map_categories topic)
              (leaves channel) keys b0 Hwf0 Htitled0)
    as ([Hrefs Hnd] & Htitled & _ & Hok' & Hsub & Hall & Hsame & Hplaced).
  set (b := foldl _ b0 keys) in *.
  eexists _, _. split; [reflexivity|]. split_and!; try done.
  - intros Hok. rewrite leaves_snoc. apply Hok'. by rewrite app_nil_r.
  - intros HG. rewrite subtopics_of_freeze, Hrefs, (Hsame HG). done.
  - intros HG k obj Hk Hnew Hobj Hlevel.
    destruct (Hplaced HG k obj Hk Hnew Hobj Hlevel) as (n & Hn & Hin).
    exists n. split; [|split; [by apply Htitled|done]].
    rewrite subtopics_of_freeze. apply list_elem_of_omap.
    exists (level obj). split; [|done]. rewrite Hrefs. by eapply get_Some_keys.
Qed.

(** The loop of line 234. *)
Lemma channel_loop_spec c topics used channel :
  attached_ok c used (leaves channel) →
  (∀ t, t ∈ topics →
        ∃ keys first, PyDict.get t (chef_topics c) = Some keys
                      ∧ keys !! 0%nat = Some first) →
  ∃ channel' used',
    channel_loop c topics used channel = OK channel'
    ∧ attached_ok c used' (leaves channel')
    ∧ used ⊆ used'
    ∧ (∀ t keys k, t ∈ topics → PyDict.get t (chef_topics c) = Some keys →
                   k ∈ keys → k ∈ used').
Proof.
  revert used channel.
  induction topics as [|t topics IH]; intros used channel Hok Htopics.
  { eexists _, used. split; [reflexivity|]. split_and!; [done..|].
    by intros ? ? ? ?%elem_of_nil. }
  destruct (Htopics t) as (keys & first & Hkeys & Hfirst); [by left|].
  destruct (build_topic_spec c used channel t keys first Hkeys Hfirst)
    as (used1 & node & Hbuild & Hok1 & Hsub1 & Hall1 & _).
  destruct (IH used1 (channel ++ [node]) (Hok1 Hok))
    as (channel' & used' & Hloop & Hok' & Hsub' & Hall').
  { intros t' Ht'. apply Htopics. by right. }
  exists channel', used'. cbn [channel_loop]. rewrite Hbuild. cbn.
  split; [done|]. split_and!; [done|set_solver|].
  intros t' keys' k [->|Ht']%elem_of_cons Hkeys' Hk.
  - assert (keys' = keys) as -> by congruence. set_solver.
  - by eapply Hall'.
Qed.

(** In a list whose elements have distinct images, an element is the only
    one with its image. *)
Lemma filter_unique {A B} `{EqDecision B} (f : A → B) (l : list A) (x : A) :
  NoDup (f <$> l) → x ∈ l → filter (λ y, f y = f x) l = [x].
Proof.
  induction l as [|a l IH]; [by intros _ ?%elem_of_nil|].
  rewrite fmap_cons. intros [Ha Hnd]%NoDup_cons [->|Hx]%elem_of_cons.
  - rewrite filter_cons_True by done. f_equal.
    destruct (filter (λ y, f y = f a) l) as [|y ys] eqn:Hfil; [done|].
    assert (y ∈ filter (λ y, f y = f a) l) as [Hy Hin]%list_elem_of_filter
      by (rewrite Hfil; left).
    destruct Ha. rewrite <- Hy. by apply list_elem_of_fmap_2.
  - rewrite filter_cons_False; [by apply IH|].
    intros Heq. destruct Ha. rewrite Heq. by apply list_elem_of_fmap_2.
Qed.
(** Lines 161-164. *)
Lemma register_topic_get t idx topics t' :
  PyDict.get t' (register_topic t idx topics)
  = if decide (t' = t) then Some (default [] (PyDict.get t topics) ++ [idx])
    else PyDict.get t' topics.
Proof.
  unfold register_topic. destruct (PyDict.get t topics) as [l|] eqn:Hl;
    rewrite get_set; by case_decide.
Qed.

Lemma registered_register_topic t idx topics k :
  registered topics k ∨ k = idx → registered (register_topic t idx topics) k.
Proof.
  intros [(t0 & l & Hl & Hk)| ->].
  - destruct (decide (t0 = t)) as [->|Hne].
    + exists t, (l ++ [idx]). rewrite register_topic_get, decide_True, Hl by done.
      split; [done|set_solver].
    + exists t0, l. by rewrite register_topic_get, decide_False.
  - eexists t, _. rewrite register_topic_get, decide_True by done.
    split; [done|set_solver].
Qed.

(** What a pass keeps true of [self.topics]: no topic has an empty key
    list, every key of the returned dictionary is registered under a
    topic, and keys registered before stay registered. *)
Lemma loop_topics element links st st' :
  loop element links st = OK st' →
  (∀ t l, PyDict.get t (topics st) = Some l → is_Some (l !! 0%nat)) →
  (∀ k, is_Some (PyDict.get k (resources st)) → registered (topics st) k) →
  (∀ t l, PyDict.get t (topics st') = Some l → is_Some (l !! 0%nat))
  ∧ (∀ k, is_Some (PyDict.get k (resources st')) → registered (topics st') k)
  ∧ (∀ k, registered (topics st) k → registered (topics st') k).
Proof.
  revert st. induction links as [|e links IH]; intros st; cbn.
  { intros [= <-]. auto. }
  intros (st1 & H1 & H2)%bind_OK Hne Hreg.
  apply loop_body_OK in H1 as (d & _ & ->).
  destruct d as [urls'|urls' idx r].
  { apply (IH _ H2); done. }
  destruct (IH _ H2) as (Hne' & Hreg' & Hmono'); cbn.
  - intros t l. rewrite register_topic_get. case_decide; [|by apply Hne].
    intros [= <-]. apply lookup_lt_is_Some. rewrite length_app. cbn. lia.
  - intros k. rewrite get_set. case_decide as Hk.
    + intros _. apply registered_register_topic. by right.
    + intros Hin. apply registered_register_topic. left. by apply Hreg.
  - split_and!; [done..|].
    intros k Hk. apply Hmono'. cbn. apply registered_register_topic. by left.
Qed.

Lemma pre_run_topics learning video c :
  pre_run_crawls learning video = OK c →
  (∀ t l, PyDict.get t (chef_topics c) = Some l → is_Some (l !! 0%nat))
  ∧ (∀ k, is_Some (PyDict.get k (pdfs c)) ∨ is_Some (PyDict.get k (videos c)) →
          registered (chef_topics c) k).
Proof.
  intros (topics1 & Hpdfs & Hvideos)%pre_run_crawls_OK.
  apply crawl_OK in Hpdfs as (links1 & st1 & _ & Hloop1 & Hres1 & ->).
  apply crawl_OK in Hvideos as (links2 & st2 & _ & Hloop2 & Hres2 & Htop2).
  destruct (loop_topics _ _ _ _ Hloop1) as (Hne1 & Hreg1 & _); cbn.
  { intros ? ? [=]. }
  { intros ? [? [=]]. }
  destruct (loop_topics _ _ _ _ Hloop2) as (Hne2 & Hreg2 & Hmono2); cbn.
  { done. }
  { intros ? [? [=]]. }
  rewrite Hres1, Hres2, Htop2. split; [done|].
  intros k [Hk|Hk]; [apply Hmono2; cbn|]; auto.
Qed.
End tree_facts.

(** C6.  After the two crawls the tree gets built, no two of its leaves
    have the same [source_id], and a key that is in the document pool and
    in the video pool has exactly one leaf, a document node on the
    compressed file of that key. *)
Theorem cross_pool_dedup learning video c :
  Crawl.pre_run_crawls learning video = OK c →
  ∃ channel,
    Tree.construct_channel c = OK channel
    ∧ NoDup (Tree.source_id <$> Tree.leaves channel)
    ∧ ∀ k, is_Some (PyDict.get k (Crawl.pdfs c)) →
           is_Some (PyDict.get k (Crawl.videos c)) →
           ∃ l, filter (λ x, Tree.source_id x = k) (Tree.leaves channel) = [l]
                ∧ Tree.kind l = Tree.DocumentNode
                ∧ Tree.path l = Gate.compressed_pdf k.
Proof.
  intros Hrun. destruct (pre_run_topics _ _ _ Hrun) as [Hne Hreg].
  destruct (channel_loop_spec c (PyDict.keys (Crawl.chef_topics c)) [] [])
    as (channel & used & Hloop & (Hnd & Hin & Hall) & _ & Hkeys).
  { split_and!; [constructor|by intros ? ?%elem_of_nil|by intros ? ?%elem_of_nil]. }
  { intros t [keys Hkeys]%keys_get_Some. destruct (Hne t keys Hkeys) as [first ?]. eauto. }
  exists channel. split; [done|]. split; [done|].
  intros k [obj Hpdf] Hvid.
  destruct (Hreg k) as (t & keys & Ht & Hk); [left; eauto|].
  assert (k ∈ used) as Hused.
  { eapply Hkeys; [|done..]. by eapply get_Some_keys. }
  destruct (Hall k Hused) as (l & Hl & Hid).
  { unfold Tree.record_of. rewrite Hpdf. eauto. }
  exists l. destruct (Hin l Hl) as [_ Hkind].
  unfold Tree.kind_ok in Hkind. rewrite Hid, Hpdf in Hkind.
  destruct Hkind as [? ?]. split_and!; [|done..].
  rewrite <- Hid. by apply filter_unique.
Qed.

Lemma cross_pool_dedup_witness :
  let k := "Maths-Grade_1-Term_2-Workbook_1_id" in
  let c := Crawl.Chef
             [("Maths", [k; k])]
             [(k, Crawl.Resource "Workbook 1" "Maths" "Grade 1" "Term 2"
                                 "https://fundawande.org/docs/b.pdf")]
             [(k, Crawl.Resource "Workbook 1" "Maths" "Grade 1" "Term 2"
                                 "https://fundawande.org/videos/w.mp4")] in
  ∃ channel,
    Tree.construct_channel c = OK channel
    ∧ NoDup (Tree.source_id <$> Tree.leaves channel)
    ∧ ∀ k, is_Some (PyDict.get k (Crawl.pdfs c)) →
           is_Some (PyDict.get k (Crawl.videos c)) →
           ∃ l, filter (λ x, Tree.source_id x = k) (Tree.leaves channel) = [l]
                ∧ Tree.kind l = Tree.DocumentNode
                ∧ Tree.path l = Gate.compressed_pdf k.
Proof.
  intros k c.
  apply (cross_pool_dedup (Some [workbook_b]) (Some [workbook_video]) c).
  reflexivity.
Defined.

(** ** The grade marker in keys *)

Section marker_facts.
Import Crawl Tree.

Lemma startswith_nil_r p : Py.startswith p "" = true → p = "".
Proof. by destruct p. Qed.

Lemma startswith_app p s s' :
  Py.startswith p s = true → Py.startswith p (s +:+ s') = true.
Proof.
  revert s. induction p as [|a p IH]; intros s; [done|].
  destruct s as [|b s]; [done|].
  change (String b s +:+ s') with (String b (s +:+ s')). cbn [Py.startswith].
  intros [Ha Hp]%andb_true_iff. rewrite Ha. cbn. auto.
Qed.

Lemma contains_nil p s : p = "" → Py.contains p s = true.
Proof. intros ->. by destruct s. Qed.

Lemma contains_app_l p s s' :
  Py.contains p s = true → Py.contains p (s +:+ s') = true.
Proof.
  induction s as [|c s IH].
  - cbn. rewrite orb_false_r. intros ?%startswith_nil_r. by apply contains_nil.
  - cbn [Py.contains]. intros [H|H]%orb_true_iff.
    + apply (startswith_app _ _ s') in H.
      change (String c s +:+ s') with (String c (s +:+ s')) in *.
      cbn [Py.contains]. by rewrite H.
    + change (String c s +:+ s') with (String c (s +:+ s')).
      cbn [Py.contains]. rewrite (IH H). apply orb_true_r.
Qed.

Lemma contains_app_r p s s' :
  Py.contains p s' = true → Py.contains p (s +:+ s') = true.
Proof.
  intros H. induction s as [|c s IH]; [done|].
  change (String c s +:+ s') with (String c (s +:+ s')).
  cbn [Py.contains]. rewrite IH. apply orb_true_r.
Qed.

Lemma startswith_replace_space p s :
  Py.plain p = true →
  Py.startswith p (Py.replace_space s) = Py.startswith p s.
Proof.
  revert s. induction p as [|a p IH]; intros s; [done|].
  destruct s as [|b s]; [done|]. cbn.
  intros [[Hsp Hus]%andb_true_iff Hp]%andb_true_iff.
  apply negb_true_iff in Hsp, Hus. rewrite (IH s Hp).
  destruct (Ascii.eqb b " ") eqn:Hb; [|done].
  apply Ascii.eqb_eq in Hb as ->. by rewrite Hsp, Hus.
Qed.

Lemma contains_replace_space p s :
  Py.plain p = true →
  Py.contains p (Py.replace_space s) = Py.contains p s.
Proof.
  intros Hp. induction s as [|c s IH]; [done|].
  change (Py.contains p (Py.replace_space (String c s)))
    with (Py.startswith p (Py.replace_space (String c s))
          || Py.contains p (Py.replace_space s)).
  by rewrite startswith_replace_space, IH.
Qed.

(** A key contains the marker whenever the level it was built from does. *)
Lemma make_idx_marker topic level term name :
  Py.contains "Grade" level = true →
  Py.contains "Grade" (make_idx topic level term name) = true.
Proof.
  intros H. unfold make_idx. rewrite contains_replace_space by done.
  apply contains_app_r, contains_app_r. by apply contains_app_l.
Qed.
End marker_facts.

(** C2 (as the code has it).  For a topic with a first registered key the
    node gets built, and whether it is split into subtopics is settled
    once, by that first key: when the key does not contain [Grade], the
    node has no subtopic node, whatever the levels of the resources of the
    topic; when it does, every resource attached in this topic whose level
    contains [Grade] is put under the subtopic node titled with its level.
    The key contains [Grade] whenever the level it was built from does. *)
Theorem split_decided_by_first_key c used topic keys first :
  PyDict.get topic (Crawl.chef_topics c) = Some keys →
  keys !! 0%nat = Some first →
  ∃ used' node,
    Tree.build_topic c used topic = OK (used', node)
    ∧ (Py.contains "Grade" first = false → Tree.subtopics_of node = [])
    ∧ (Py.contains "Grade" first = true → ∀ k obj,
         k ∈ keys → k ∉ used → Tree.record_of c k = Some obj →
         Py.contains "Grade" (Crawl.level obj) = true →
         ∃ s, s ∈ Tree.subtopics_of node ∧ Tree.sub_title s = Crawl.level obj
              ∧ k ∈ Tree.source_id <$> Tree.sub_children s)
    ∧ (∀ t lv tm nm, first = Crawl.make_idx t lv tm nm →
         Py.contains "Grade" lv = true → Py.contains "Grade" first = true).
Proof.
  intros Hkeys Hfirst.
  destruct (build_topic_spec c used [] topic keys first Hkeys Hfirst)
    as (used' & node & Hbuild & _ & _ & _ & Hnone & Hsplit).
  exists used', node. split_and!; [done..|].
  intros t lv tm nm -> Hlv. by apply make_idx_marker.
Qed.

Lemma split_decided_by_first_key_witness :
  let first := "Teaching_Guides-General-All-Grade_R_overview_id" in
  let second := "Teaching_Guides-Grade_1-Term_2-Teacher_Guide_id" in
  let c := Crawl.Chef
             [("Teaching Guides", [first; second])]
             [(first, Crawl.Resource "Grade R overview" "Teaching Guides" "General" "All"
                                     "https://fundawande.org/docs/overview.pdf");
              (second, Crawl.Resource "Teacher Guide" "Teaching Guides" "Grade 1" "Term 2"
                                      "https://fundawande.org/docs/guide1.pdf")]
             [] in
  ∃ used' node,
    Tree.build_topic c [] "Teaching Guides" = OK (used', node)
    ∧ (Py.contains "Grade" first = false → Tree.subtopics_of node = [])
    ∧ (Py.contains "Grade" first = true → ∀ k obj,
         k ∈ [first; second] → k ∉ [] → Tree.record_of c k = Some obj →
         Py.contains "Grade" (Crawl.level obj) = true →
         ∃ s, s ∈ Tree.subtopics_of node ∧ Tree.sub_title s = Crawl.level obj
              ∧ k ∈ Tree.source_id <$> Tree.sub_children s)
    ∧ (∀ t lv tm nm, first = Crawl.make_idx t lv tm nm →
         Py.contains "Grade" lv = true → Py.contains "Grade" first = true).
Proof.
  intros first second c.
  apply (split_decided_by_first_key c [] "Teaching Guides" [first; second] first).
  - reflexivity.
  - reflexivity.
Defined.

(** C2 (as the spec has it) fails: the first resource of the topic has
    the level [General], without the marker, but its name, and so its key,
    contains [Grade]; the topic is split and the second resource sits in a
    subtopic node. *)
Lemma split_despite_first_level_without_marker :
  ∃ c first_key rest obj node,
    Crawl.pre_run_crawls (Some [guide_overview; guide_grade1]) (Some []) = OK c
    ∧ PyDict.get "Teaching Guides" (Crawl.chef_topics c) = Some (first_key :: rest)
    ∧ Tree.record_of c first_key = Some obj
    ∧ Crawl.level obj = "General"
    ∧ Py.contains "Grade" (Crawl.level obj) = false
    ∧ Tree.construct_channel c = OK [node]
    ∧ Tree.sub_title <$> Tree.subtopics_of node = ["Grade 1"].
Proof.
  eexists _, _, _, _, _. split; [reflexivity|]. split; [reflexivity|].
  split; [reflexivity|]. repeat split; reflexivity.
Qed.

(** C3: what the code does.  A document leaf gets the term in front of
    its name, a video leaf gets the name alone, also when its term is not
    [All]. *)
Lemma video_title_has_no_term_prefix :
  ∃ c node doc video obj,
    Crawl.pre_run_crawls (Some [workbook_b]) (Some [clip_video]) = OK c
    ∧ Tree.construct_channel c = OK [node]
    ∧ Tree.leaves [node] = [doc; video]
    ∧ Tree.kind doc = Tree.DocumentNode ∧ Tree.title doc = "Term 2 - Workbook 1"
    ∧ Tree.kind video = Tree.VideoNode
    ∧ Tree.record_of c (Tree.source_id video) = Some obj
    ∧ Crawl.term obj = "Term 3" ∧ Crawl.name obj = "Clip"
    ∧ Tree.title video = "Clip"
    ∧ Tree.title video ≠ "Term 3 - Clip".
Proof.
  eexists _, _, _, _, _. split; [reflexivity|]. split; [reflexivity|].
  split; [reflexivity|]. repeat split; try reflexivity. discriminate.
Qed.

(** * Further properties *)

(** ** The fetcher: termination, bounds, and the first answer *)

Section fetch_more.
Import Fetch FetchTrace.

Lemma attempts_app tr1 tr2 : attempts (tr1 ++ tr2) = attempts tr1 + attempts tr2.
Proof. unfold attempts. by rewrite filter_app, length_app. Qed.

Lemma sleeps_app tr1 tr2 : sleeps (tr1 ++ tr2) = sleeps tr1 ++ sleeps tr2.
Proof. apply omap_app. Qed.

Lemma total_sleep_app tr1 tr2 :
  total_sleep (tr1 ++ tr2) = total_sleep tr1 + total_sleep tr2.
Proof. unfold total_sleep. by rewrite sleeps_app, sum_list_with_app. Qed.

Lemma attempts_round a b c tr :
  attempts ([Request; LogWarning a b; Sleep c] ++ tr) = S (attempts tr).
Proof. reflexivity. Qed.

Lemma total_sleep_round a b c tr :
  total_sleep ([Request; LogWarning a b; Sleep c] ++ tr) = c + total_sleep tr.
Proof. reflexivity. Qed.

(** From any point of the loop with [k] retries left, the loop ends
    within [k] iterations, whatever the transport does. *)
Lemma attempt_loop_total transport k :
  ∀ fuel n retry_count tr,
    retry_count + k = 5 → 0 < k → k ≤ fuel →
    ∃ r tr',
      attempt_loop transport fuel n retry_count tr = Some (r, tr ++ tr')
      ∧ attempt_loop transport k n retry_count tr = Some (r, tr ++ tr')
      ∧ 1 ≤ attempts tr' ≤ k
      ∧ 2 * total_sleep tr' + retry_count * (retry_count + 1) ≤ 30.
Proof.
  induction k as [|k IH]; intros fuel n rc tr Hrc Hk Hfuel; [lia|].
  destruct fuel as [|fuel]; [lia|]. cbn [attempt_loop].
  rewrite Nat.mul_1_r.
  assert (∀ r : result (option Z), ∃ r0 tr',
            Some (r, tr ++ [Request]) = Some (r0, tr ++ tr')
            ∧ Some (r, tr ++ [Request]) = Some (r0, tr ++ tr')
            ∧ 1 ≤ attempts tr' ≤ S k
            ∧ 2 * total_sleep tr' + rc * (rc + 1) ≤ 30) as Hstop.
  { intros r. exists r, [Request].
    change (attempts [Request]) with 1. change (total_sleep [Request]) with 0.
    split_and!; [done|done|lia|lia|nia]. }
  assert (∃ r tr',
            (if Nat.leb max_retries (S rc)
             then Some (OK None,
                        ((tr ++ [Request])
                           ++ [LogWarning (S rc) max_retries; Sleep (S rc)])
                          ++ [LogError])
             else attempt_loop transport fuel (S n) (S rc)
                    ((tr ++ [Request])
                       ++ [LogWarning (S rc) max_retries; Sleep (S rc)]))
            = Some (r, tr ++ tr')
            ∧ (if Nat.leb max_retries (S rc)
               then Some (OK None,
                          ((tr ++ [Request])
                             ++ [LogWarning (S rc) max_retries; Sleep (S rc)])
                            ++ [LogError])
               else attempt_loop transport k (S n) (S rc)
                      ((tr ++ [Request])
                         ++ [LogWarning (S rc) max_retries; Sleep (S rc)]))
              = Some (r, tr ++ tr')
            ∧ 1 ≤ attempts tr' ≤ S k
            ∧ 2 * total_sleep tr' + rc * (rc + 1) ≤ 30) as Hretry.
  { unfold max_retries. destruct (Nat.leb_spec 5 (S rc)) as [Hlast|Hmore].
    - exists (OK None), ([Request; LogWarning (S rc) 5; Sleep (S rc)] ++ [LogError]).
      rewrite attempts_round, total_sleep_round.
      change (attempts [LogError]) with 0. change (total_sleep [LogError]) with 0.
      rewrite <- !app_assoc. split_and!; [done|done|lia|lia|nia].
    - destruct (IH fuel (S n) (S rc)
                  ((tr ++ [Request]) ++ [LogWarning (S rc) 5; Sleep (S rc)]))
        as (r & tr' & H1 & H2 & Hatt & Hsleep); [lia..|].
      exists r, ([Request; LogWarning (S rc) 5; Sleep (S rc)] ++ tr').
      rewrite attempts_round, total_sleep_round.
      rewrite H1, H2, <- !app_assoc. split_and!; [done|done|lia|lia|nia]. }
  destruct (transport n); auto.
Qed.

Lemma attempts_failed_rounds retry_count j : attempts (failed_rounds retry_count j) = j.
Proof.
  revert retry_count. induction j as [|j IH]; intros rc; [done|].
  cbn [failed_rounds]. by rewrite attempts_round, IH.
Qed.

Lemma sleeps_failed_rounds retry_count j :
  sleeps (failed_rounds retry_count j) = seq (S retry_count) j.
Proof.
  revert retry_count. induction j as [|j IH]; intros rc; [done|].
  cbn [failed_rounds seq]. rewrite <- IH. reflexivity.
Qed.

(** The loop goes round as long as the transport fails with one of the
    two caught exceptions; the first other outcome ends it. *)
Lemma attempt_loop_answer transport j :
  ∀ fuel n retry_count tr,
    (∀ i, i < j → transient (transport (n + i))) →
    ¬ transient (transport (n + j)) →
    retry_count + j < 5 → j < fuel →
    attempt_loop transport fuel n retry_count tr
    = Some (match transport (n + j) with
            | Response sc => OK (Some sc)
            | _ => Raise RequestException
            end,
            tr ++ failed_rounds retry_count j ++ [Request]).
Proof.
  induction j as [|j IH]; intros fuel n rc tr Hfail Hans Hrc Hfuel;
    (destruct fuel as [|fuel]; [lia|]); cbn [attempt_loop failed_rounds].
  - rewrite Nat.add_0_r in *.
    destruct (transport n); try done; destruct Hans; [by left|by right].
  - assert (transient (transport n)) as Hn.
    { rewrite <- (Nat.add_0_r n). apply Hfail. lia. }
    rewrite Nat.mul_1_r.
    replace (Nat.leb max_retries (S rc)) with false
      by (symmetry; apply Nat.leb_gt; unfold max_retries; lia).
    rewrite <- Nat.add_succ_comm.
    destruct Hn as [-> | ->];
      (rewrite IH; [by rewrite <- !app_assoc| | |lia|lia]);
      try (intros i Hi; rewrite Nat.add_succ_comm; apply Hfail; lia);
      by rewrite Nat.add_succ_comm.
Qed.
End fetch_more.

(** Whatever the transport does, [make_request] comes back within five
    iterations of its loop: it calls the transport at least once and at
    most five times, and sleeps at most 15 seconds in total.  More room
    for the loop changes nothing. *)
Theorem make_request_terminates (transport : nat → Fetch.outcome) (fuel : nat) :
  5 ≤ fuel →
  ∃ r tr,
    Fetch.make_request transport fuel = Some (r, tr)
    ∧ Fetch.make_request transport 5 = Some (r, tr)
    ∧ 1 ≤ Fetch.attempts tr ≤ 5
    ∧ FetchTrace.total_sleep tr ≤ 15.
Proof.
  intros Hfuel.
  destruct (attempt_loop_total transport 5 fuel 0 0 [])
    as (r & tr & H1 & H2 & Hatt & Hsleep); [lia..|].
  unfold Fetch.make_request. rewrite H1, H2. cbn [app].
  destruct r as [[sc|]| |]; try (eexists _, _; split_and!; [done|done|lia..]).
  destruct (negb (sc =? 200)%Z).
  - eexists _, _. split_and!; [done|done|..].
    + rewrite attempts_app. cbn. lia.
    + rewrite attempts_app. change (Fetch.attempts [Fetch.LogError]) with 0. lia.
    + rewrite total_sleep_app. change (FetchTrace.total_sleep [Fetch.LogError]) with 0. lia.
  - eexists _, _; split_and!; [done|done|lia..].
Qed.

Lemma make_request_terminates_witness :
  ∃ r tr,
    Fetch.make_request (λ n, if Nat.even n then Fetch.ReadTimeout
                             else Fetch.ConnectionError) 7 = Some (r, tr)
    ∧ Fetch.make_request (λ n, if Nat.even n then Fetch.ReadTimeout
                               else Fetch.ConnectionError) 5 = Some (r, tr)
    ∧ 1 ≤ Fetch.attempts tr ≤ 5
    ∧ FetchTrace.total_sleep tr ≤ 15.
Proof.
  apply (make_request_terminates
           (λ n, if Nat.even n then Fetch.ReadTimeout else Fetch.ConnectionError) 7).
  lia.
Defined.

(** When the transport answers at call [j] (counted from 0, [j < 5])
    after failing with caught exceptions before, [make_request] returns
    the response if its status is 200 and [None] otherwise, without a
    further call: it has made [j + 1] calls and slept 1, 2, ..., [j]
    seconds.  A status other than 200 is not retried. *)
Theorem make_request_first_answer
    (transport : nat → Fetch.outcome) (fuel j : nat) (sc : Z) :
  j < 5 → j < fuel →
  (∀ i, i < j → FetchTrace.transient (transport i)) →
  transport j = Fetch.Response sc →
  ∃ tr,
    Fetch.make_request transport fuel
    = Some (if (sc =? 200)%Z then OK (Some sc) else OK None, tr)
    ∧ tr = FetchTrace.failed_rounds 0 j ++ [Fetch.Request]
             ++ (if (sc =? 200)%Z then [] else [Fetch.LogError])
    ∧ Fetch.attempts tr = S j
    ∧ FetchTrace.sleeps tr = seq 1 j.
Proof.
  intros Hj Hfuel Hfail Hans. unfold Fetch.make_request.
  rewrite (attempt_loop_answer transport j fuel 0 0 []); cbn [Nat.add];
    [|done|rewrite Hans; by intros [?|?]|lia|lia].
  rewrite Hans. cbn [app].
  assert (Fetch.attempts (FetchTrace.failed_rounds 0 j ++ [Fetch.Request]) = S j) as Hatt.
  { rewrite attempts_app, attempts_failed_rounds.
    change (Fetch.attempts [Fetch.Request]) with 1. lia. }
  assert (FetchTrace.sleeps (FetchTrace.failed_rounds 0 j ++ [Fetch.Request]) = seq 1 j)
    as Hsl.
  { rewrite sleeps_app, sleeps_failed_rounds. apply app_nil_r. }
  destruct (sc =? 200)%Z; cbn [negb]; eexists; (split; [reflexivity|]).
  - split_and!; done.
  - split; [by rewrite <- app_assoc|].
    rewrite attempts_app, sleeps_app, Hatt, Hsl.
    change (Fetch.attempts [Fetch.LogError]) with 0.
    change (FetchTrace.sleeps [Fetch.LogError]) with (@nil nat).
    rewrite app_nil_r. split; [lia|done].
Qed.

Lemma make_request_first_answer_witness :
  ∃ tr,
    Fetch.make_request (λ n, if Nat.ltb n 2 then Fetch.ConnectionError
                             else Fetch.Response 404) 5
    = Some (if (404 =? 200)%Z then OK (Some 404%Z) else OK None, tr)
    ∧ tr = FetchTrace.failed_rounds 0 2 ++ [Fetch.Request]
             ++ (if (404 =? 200)%Z then [] else [Fetch.LogError])
    ∧ Fetch.attempts tr = 3
    ∧ FetchTrace.sleeps tr = seq 1 2.
Proof.
  apply (make_request_first_answer
           (λ n, if Nat.ltb n 2 then Fetch.ConnectionError else Fetch.Response 404)
           5 2 404%Z).
  - lia.
  - lia.
  - intros i Hi. left. destruct i as [|[|i]]; [reflexivity|reflexivity|lia].
  - reflexivity.
Defined.

(** An exception of the transport other than the two caught ones leaves
    [make_request] as it is, after the calls made so far; it is neither
    retried nor turned into [None]. *)
Theorem make_request_other_exception
    (transport : nat → Fetch.outcome) (fuel j : nat) :
  j < 5 → j < fuel →
  (∀ i, i < j → FetchTrace.transient (transport i)) →
  transport j = Fetch.OtherError →
  Fetch.make_request transport fuel
  = Some (Raise RequestException, FetchTrace.failed_rounds 0 j ++ [Fetch.Request]).
Proof.
  intros Hj Hfuel Hfail Hans. unfold Fetch.make_request.
  rewrite (attempt_loop_answer transport j fuel 0 0 []); cbn [Nat.add];
    [|done|rewrite Hans; by intros [?|?]|lia|lia].
  by rewrite Hans.
Qed.

Lemma make_request_other_exception_witness :
  Fetch.make_request (λ n, if Nat.ltb n 1 then Fetch.ReadTimeout
                           else Fetch.OtherError) 5
  = Some (Raise RequestException, FetchTrace.failed_rounds 0 1 ++ [Fetch.Request]).
Proof.
  apply (make_request_other_exception
           (λ n, if Nat.ltb n 1 then Fetch.ReadTimeout else Fetch.OtherError) 5 1).
  - lia.
  - lia.
  - intros i Hi. right. destruct i as [|i]; [reflexivity|lia].
  - reflexivity.
Defined.

(** ** A listing page that cannot be fetched *)

Section listing_facts.
Import Fetch FetchTrace.

(** The two ways in which [make_request] ends without a result. *)
Lemma make_request_no_result transport fuel :
  5 ≤ fuel →
  (∀ n, transient (transport n))
  ∨ (∃ j sc, j < 5 ∧ (∀ i, i < j → transient (transport i))
             ∧ transport j = Response sc ∧ sc ≠ 200%Z) →
  ∃ tr, make_request transport fuel = Some (OK None, tr).
Proof.
  intros Hfuel [Hdown|(j & sc & Hj & Hfail & Hans & Hsc)]; unfold make_request.
  - rewrite (attempt_loop_exhausts transport Hdown fuel Hfuel). eauto.
  - rewrite (attempt_loop_answer transport j fuel 0 0 []); cbn [Nat.add];
      [|done|rewrite Hans; by intros [?|?]|lia|lia].
    rewrite Hans. apply Z.eqb_neq in Hsc. rewrite Hsc. cbn. eauto.
Qed.
End listing_facts.

(** When the listing page cannot be had, because every attempt fails
    with a caught exception or because the server answers with a status
    other than 200, [download_page] returns [(None, None)] and [crawl]
    does not return an empty pool: it raises [AttributeError] at
    [page.find_all]. *)
Theorem crawl_without_page_raises {soup : Type}
    (find_all : soup → string → list Crawl.tag)
    (transport : nat → Fetch.outcome) (fuel : nat)
    (final_url : string) (page : soup) (element : string)
    (topics : list (string * list string)) :
  5 ≤ fuel →
  (∀ n, FetchTrace.transient (transport n))
  ∨ (∃ j sc, j < 5 ∧ (∀ i, i < j → FetchTrace.transient (transport i))
             ∧ transport j = Fetch.Response sc ∧ sc ≠ 200%Z) →
  ∃ tr,
    Listing.download_page transport fuel final_url page = Some (OK (None, None), tr)
    ∧ Listing.crawl_section find_all transport fuel final_url page element topics
      = Some (Raise AttributeError, tr).
Proof.
  intros Hfuel Hcase.
  destruct (make_request_no_result transport fuel Hfuel Hcase) as [tr Htr].
  exists tr. unfold Listing.crawl_section, Listing.download_page. rewrite Htr.
  done.
Qed.

Lemma crawl_without_page_raises_witness :
  ∃ tr,
    Listing.download_page (λ _, Fetch.Response 404) 5 "https://fundawande.org/x" [workbook_a]
    = Some (OK (None, None), tr)
    ∧ Listing.crawl_section (λ (p : list Crawl.tag) (_ : string), p)
        (λ _, Fetch.Response 404) 5 "https://fundawande.org/x" [workbook_a] "a" []
      = Some (Raise AttributeError, tr).
Proof.
  apply (crawl_without_page_raises (λ (p : list Crawl.tag) (_ : string), p)
           (λ _, Fetch.Response 404) 5 "https://fundawande.org/x" [workbook_a] "a" []).
  - lia.
  - right. exists 0, 404%Z. split; [lia|]. split; [intros i Hi; lia|].
    split; [reflexivity|discriminate].
Defined.

(** ** The extraction pass: what is registered, and what stops it *)

Section crawl_more.
Import Crawl.

(** What is known of an element that gets registered. *)
Lemma examine_Register element urls lv link urls' idx r :
  examine element urls lv link = OK (Register urls' idx r) →
  resolve_url element link = OK (Some (url r))
  ∧ (url r ∉ urls) ∧ urls' = urls ++ [url r]
  ∧ idx = make_idx (topic r) (level r) (term r) (name r)
  ∧ excluded (topic r) = false ∧ topic r ≠ "Maths Workbooks".
Proof.
  unfold examine. intros (ourl & Hurl & H)%bind_OK.
  destruct ourl as [u|]; [|done].
  destruct (decide (u ∈ urls)) as [|Hnew]; [done|].
  apply bind_OK in H as (nm & _ & H).
  apply bind_OK in H as (tp & _ & H).
  apply bind_OK in H as (nm' & _ & H).
  destruct (excluded tp) eqn:Hex; [done|].
  apply bind_OK in H as (lvl & _ & H).
  apply bind_OK in H as (tm & _ & H).
  injection H as <- <- <-. cbn. split_and!; try done.
  - by case_decide.
  - case_decide; [discriminate|done].
Qed.

(** After an element has been examined, either it has no media URL, or
    its URL is in the list of seen URLs. *)
Lemma examine_url element urls lv link d :
  examine element urls lv link = OK d →
  resolve_url element link = OK None
  ∨ ∃ u, resolve_url element link = OK (Some u)
         ∧ u ∈ match d with Continue urls' | Register urls' _ _ => urls' end.
Proof.
  unfold examine. intros (ourl & Hurl & Hd)%bind_OK.
  destruct ourl as [u|]; [|by left]. right. exists u. split; [done|].
  destruct (decide (u ∈ urls)) as [Hseen|Hnew]; [by injection Hd as <-|].
  assert (u ∈ urls ++ [u]) as Hin by (apply elem_of_app; right; by left).
  apply bind_OK in Hd as (nm & _ & Hd).
  apply bind_OK in Hd as (tp & _ & Hd).
  apply bind_OK in Hd as (nm' & _ & Hd).
  destruct (excluded tp); [by injection Hd as <-|].
  apply bind_OK in Hd as (lvl & _ & Hd).
  apply bind_OK in Hd as (tm & _ & Hd).
  by injection Hd as <-.
Qed.
(** Line 136: an element without a media URL changes nothing. *)
Lemma loop_body_no_media element st link :
  resolve_url element link = OK None → loop_body element st link = OK st.
Proof.
  intros Hu. unfold loop_body, examine. rewrite Hu. cbn. by destruct st.
Qed.

(** An element that was walked once is skipped whenever it comes again. *)
Lemma loop_body_again element st1 st2 st3 link :
  loop_body element st1 link = OK st2 → urls st2 ⊆ urls st3 →
  loop_body element st3 link = OK st3.
Proof.
  intros (d & Hd & ->)%loop_body_OK Hsub.
  apply examine_url in Hd as [Hnone|(u & Hu & Hin)].
  - by apply loop_body_no_media.
  - apply (loop_body_seen element st3 link u Hu). apply Hsub.
    by destruct d.
Qed.

Lemma loop_raise element l1 l2 link st0 st1 e :
  loop element l1 st0 = OK st1 → loop_body element st1 link = Raise e →
  loop element (l1 ++ link :: l2) st0 = Raise e.
Proof. intros H1 H2. rewrite loop_app, H1. cbn. by rewrite H2. Qed.

(** Every record of the returned dictionary has a property that every
    registered record has. *)
Lemma loop_records (Q : resource → Prop) element links st st' :
  (∀ urls lv link urls' idx r,
     examine element urls lv link = OK (Register urls' idx r) → Q r) →
  (∀ k r, PyDict.get k (resources st) = Some r → Q r) →
  loop element links st = OK st' →
  ∀ k r, PyDict.get k (resources st') = Some r → Q r.
Proof.
  intros HQ. revert st. induction links as [|e links IH]; intros st Hst; cbn.
  - by intros [= <-].
  - intros (st1 & H1 & H2)%bind_OK. apply (IH st1); [|done].
    apply loop_body_OK in H1 as (d & Hd & ->).
    destruct d as [urls'|urls' idx r0]; cbn; [done|].
    intros k r. rewrite get_set. case_decide; [|by eauto].
    intros [= <-]. eauto.
Qed.

Lemma startswith_prefix p s : Py.startswith p (p +:+ s) = true.
Proof.
  induction p as [|a p IH]; [done|].
  change (String a p +:+ s) with (String a (p +:+ s)). cbn.
  by rewrite Ascii.eqb_refl, IH.
Qed.

(** Lines 130-136: a media URL is on the site, and for an element other
    than a link it ends in [mp4]. *)
Lemma resolve_url_shape element link u :
  resolve_url element link = OK (Some u) →
  Py.startswith COURSE_URL u = true ∧ (element ≠ "a" → Py.last3 u = "mp4").
Proof.
  unfold resolve_url. case_decide as Ha.
  - intros [= <-]. split; [apply startswith_prefix|done].
  - intros (oc & _ & H)%bind_OK. apply bind_OK in H as (piece & _ & H).
    destruct (decide (Py.last3 (COURSE_URL +:+ piece) ≠ "mp4")) as [|Hmp4]; [done|].
    injection H as <-. split; [apply startswith_prefix|].
    intros _. by destruct (decide (Py.last3 (COURSE_URL +:+ piece) = "mp4")).
Qed.

(** An onclick attribute without a quote has no second piece. *)
Lemma split_no_separator sep s :
  Py.contains (String sep "") s = false → Py.split sep s = [s].
Proof.
  induction s as [|c s IH]; [done|].
  cbn [Py.contains Py.startswith Py.split].
  intros [Hc Hs]%orb_false_iff. rewrite andb_true_r in Hc.
  rewrite Ascii.eqb_sym, Hc, (IH Hs). done.
Qed.
End crawl_more.

(** An element that occurs a second time on the page has no effect: the
    pass runs as if the later occurrence were not there, whether the
    first occurrence was registered, filtered out, skipped, or made the
    pass raise. *)
Theorem crawl_repeated_element element l1 e l2 l3 topics :
  Crawl.crawl element (Some (l1 ++ e :: l2 ++ e :: l3)) topics
  = Crawl.crawl element (Some (l1 ++ e :: l2 ++ l3)) topics.
Proof.
  unfold Crawl.crawl. cbn. f_equal.
  rewrite !loop_app.
  destruct (Crawl.loop element l1 _) as [st1| |]; cbn; [|done..].
  destruct (Crawl.loop_body element st1 e) as [st2| |] eqn:He; cbn; [|done..].
  rewrite !loop_app.
  destruct (Crawl.loop element l2 st2) as [st3| |] eqn:Hl2; cbn; [|done..].
  rewrite (loop_body_again element st1 st2 st3 e He); [done|].
  by apply loop_urls in Hl2.
Qed.

(** No record of either pool has a topic with one of the four excluded
    words in it, and none has the topic [Maths Workbooks]: that one is
    renamed to [Maths]. *)
Theorem excluded_topics_absent learning video c :
  Crawl.pre_run_crawls learning video = OK c →
  ∀ k r,
    PyDict.get k (Crawl.pdfs c) = Some r ∨ PyDict.get k (Crawl.videos c) = Some r →
    Py.contains "Covid" (Crawl.topic r) = false
    ∧ Py.contains "Phonics" (Crawl.topic r) = false
    ∧ Py.contains "Marksheets" (Crawl.topic r) = false
    ∧ Py.contains "Strategy" (Crawl.topic r) = false
    ∧ Crawl.topic r ≠ "Maths Workbooks".
Proof.
  intros (topics1 & Hpdfs & Hvideos)%pre_run_crawls_OK.
  assert (∀ element page topics0 res topics' k r,
            Crawl.crawl element page topics0 = OK (res, topics') →
            PyDict.get k res = Some r →
            Crawl.excluded (Crawl.topic r) = false
            ∧ Crawl.topic r ≠ "Maths Workbooks") as Hcrawl.
  { intros element page topics0 res topics' k r
      (links & st & -> & Hloop & -> & _)%crawl_OK.
    intros Hget.
    apply (loop_records
             (λ r, Crawl.excluded (Crawl.topic r) = false
                   ∧ Crawl.topic r ≠ "Maths Workbooks")
             element links (Crawl.State topics0 [] [] None) st) with k;
      [|done|done|done].
    intros urls lv link urls' idx r0 Hreg.
    apply examine_Register in Hreg. tauto. }
  intros k r Hk.
  assert (Crawl.excluded (Crawl.topic r) = false
          ∧ Crawl.topic r ≠ "Maths Workbooks") as [Hex Hne].
  { destruct Hk; eauto. }
  unfold Crawl.excluded in Hex.
  apply orb_false_iff in Hex as [Hex ?].
  apply orb_false_iff in Hex as [Hex ?].
  apply orb_false_iff in Hex as [? ?]. done.
Qed.

Import MoreSamples.

Lemma excluded_topics_absent_witness :
  let r := Crawl.Resource "Workbook 1" "Maths" "Grade 1" "Term 2"
                          "https://fundawande.org/docs/a.pdf" in
  Crawl.pre_run_crawls (Some [phonics_poster; workbook_a]) (Some [workbook_video])
  = OK maths_chef
  ∧ PyDict.get "Maths-Grade_1-Term_2-Workbook_1_id" (Crawl.pdfs maths_chef) = Some r
  ∧ Py.contains "Covid" (Crawl.topic r) = false
  ∧ Py.contains "Phonics" (Crawl.topic r) = false
  ∧ Py.contains "Marksheets" (Crawl.topic r) = false
  ∧ Py.contains "Strategy" (Crawl.topic r) = false
  ∧ Crawl.topic r ≠ "Maths Workbooks".
Proof.
  intros r. split; [reflexivity|]. split; [reflexivity|].
  refine (excluded_topics_absent (Some [phonics_poster; workbook_a])
            (Some [workbook_video]) maths_chef _
            "Maths-Grade_1-Term_2-Workbook_1_id" r _);
    [reflexivity | left; reflexivity].
Defined.

Section dict_values.
Context {V B : Type}.
Implicit Types (d : list (string * V)) (f : V → B).

Lemma elem_of_set d k v p : p ∈ PyDict.set k v d → p = (k, v) ∨ p ∈ d.
Proof.
  induction d as [|[k0 v0] d IH]; cbn.
  - intros ->%list_elem_of_singleton. by left.
  - case_decide.
    + intros [->|?]%elem_of_cons; [by left|right; by right].
    + intros [->|Hp]%elem_of_cons; [right; by left|].
      destruct (IH Hp); [by left|right; by right].
Qed.

Lemma elem_of_values_set f d k v x :
  x ∈ f <$> (PyDict.set k v d).*2 → x = f v ∨ x ∈ f <$> d.*2.
Proof.
  intros (v' & -> & ([k' v''] & -> & Hp)%list_elem_of_fmap)%list_elem_of_fmap.
  apply elem_of_set in Hp as [[= -> ->]|Hp]; [by left|right].
  apply list_elem_of_fmap. exists v''. split; [done|].
  apply list_elem_of_fmap. by exists (k', v'').
Qed.

(** Assigning a record with a new image keeps the images distinct. *)
Lemma NoDup_values_set f d k v :
  NoDup (f <$> d.*2) → f v ∉ f <$> d.*2 → NoDup (f <$> (PyDict.set k v d).*2).
Proof.
  induction d as [|[k0 v0] d IH]; cbn.
  - intros _ _. apply NoDup_singleton.
  - intros [Hv0 Hnd]%NoDup_cons Hv. case_decide; cbn.
    + apply NoDup_cons. split; [|done].
      intros Hin. apply Hv. by right.
    + apply NoDup_cons. split.
      * intros [Heq|Hin]%elem_of_values_set; [|done].
        apply Hv. rewrite Heq. by left.
      * apply IH; [done|]. intros Hin. apply Hv. by right.
Qed.
End dict_values.

Section crawl_urls.
Import Crawl.

(** The records hold pairwise distinct URLs, all of them seen. *)
Lemma loop_urls_distinct element links st st' :
  NoDup (url <$> (resources st).*2) →
  (∀ x, x ∈ url <$> (resources st).*2 → x ∈ urls st) →
  loop element links st = OK st' →
  NoDup (url <$> (resources st').*2)
  ∧ (∀ x, x ∈ url <$> (resources st').*2 → x ∈ urls st').
Proof.
  revert st. induction links as [|e links IH]; intros st Hnd Hseen; cbn.
  - by intros [= <-].
  - intros (st1 & H1 & H2)%bind_OK. apply (IH st1); [| |done].
    + apply loop_body_OK in H1 as (d & Hd & ->).
      destruct d as [urls'|urls' idx r]; cbn; [done|].
      apply examine_Register in Hd as (_ & Hnew & _).
      apply NoDup_values_set; [done|]. intros Hin. apply Hnew. by apply Hseen.
    + pose proof (loop_body_urls _ _ _ _ H1) as Hsub.
      apply loop_body_OK in H1 as (d & Hd & ->).
      destruct d as [urls'|urls' idx r]; cbn in *; [by auto|].
      apply examine_Register in Hd as (_ & _ & -> & _).
      intros x [->|Hx]%elem_of_values_set.
      * apply elem_of_app. right. by left.
      * apply elem_of_app. left. by apply Hseen.
Qed.

(** Keys registered under a topic come from the topics given to the
    pass or are keys of the returned dictionary. *)
Lemma registered_register_topic_inv t idx topics k :
  Tree.registered (register_topic t idx topics) k → Tree.registered topics k ∨ k = idx.
Proof.
  intros (t' & l & Hl & Hk). rewrite register_topic_get in Hl.
  case_decide as Ht; [|left; by exists t', l].
  injection Hl as <-. apply elem_of_app in Hk as [Hk| ->%list_elem_of_singleton];
    [|by right].
  left. subst t'. destruct (PyDict.get t topics) as [l0|] eqn:Hl0; cbn in Hk.
  - by exists t, l0.
  - by apply elem_of_nil in Hk.
Qed.

(** No key leaves the dictionary. *)
Lemma loop_keeps_keys element links st st' :
  loop element links st = OK st' →
  ∀ k, is_Some (PyDict.get k (resources st)) → is_Some (PyDict.get k (resources st')).
Proof.
  revert st. induction links as [|e links IH]; intros st; cbn.
  - by intros [= <-].
  - intros (st1 & Hb & Hl)%bind_OK k Hk. apply (IH st1 Hl).
    apply loop_body_OK in Hb as (d & _ & ->).
    destruct d as [?|? idx r]; cbn; [done|].
    rewrite get_set. case_decide; [eauto|done].
Qed.

Lemma loop_registered element links st st' :
  loop element links st = OK st' →
  ∀ k, Tree.registered (topics st') k →
       Tree.registered (topics st) k ∨ is_Some (PyDict.get k (resources st')).
Proof.
  revert st. induction links as [|e links IH]; intros st; cbn.
  - intros [= <-] k Hk. by left.
  - intros (st1 & H1 & H2)%bind_OK k Hk.
    destruct (IH _ H2 k Hk) as [Hreg|Hin]; [|by right].
    apply loop_body_OK in H1 as (d & _ & Hst1).
    destruct d as [?|? idx r]; subst st1; cbn in Hreg; [by left|].
    apply registered_register_topic_inv in Hreg as [?| ->]; [by left|].
    right. apply (loop_keeps_keys _ _ _ _ H2). cbn. rewrite get_set_eq. eauto.
Qed.
End crawl_urls.

(** The records a crawl pass returns point to pairwise distinct URLs:
    an asset that the page lists more than once is kept once. *)
Theorem crawl_urls_distinct element page topics0 res topics' :
  Crawl.crawl element page topics0 = OK (res, topics') →
  NoDup (Crawl.url <$> res.*2).
Proof.
  intros (links & st & -> & Hloop & -> & _)%crawl_OK.
  apply (loop_urls_distinct element links _ st) in Hloop as [Hnd _]; [done|..].
  - constructor.
  - by intros x ?%elem_of_nil.
Qed.

Lemma crawl_urls_distinct_witness :
  NoDup (Crawl.url <$> (Crawl.pdfs maths_chef).*2).
Proof.
  apply (crawl_urls_distinct "a" (Some [phonics_poster; workbook_a; workbook_a]) []
           (Crawl.pdfs maths_chef)
           [("Maths", ["Maths-Grade_1-Term_2-Workbook_1_id"])]).
  reflexivity.
Defined.

(** Every record of a crawl pass has a URL on the site
    [https://fundawande.org], and in a pass over elements other than
    links every URL ends in [mp4]. *)
Theorem crawl_url_shape element page topics0 res topics' k r :
  Crawl.crawl element page topics0 = OK (res, topics') →
  PyDict.get k res = Some r →
  Py.startswith "https://fundawande.org" (Crawl.url r) = true
  ∧ (element ≠ "a" → Py.last3 (Crawl.url r) = "mp4").
Proof.
  intros (links & st & -> & Hloop & -> & _)%crawl_OK Hget.
  apply (loop_records
           (λ r, Py.startswith Crawl.COURSE_URL (Crawl.url r) = true
                 ∧ (element ≠ "a" → Py.last3 (Crawl.url r) = "mp4"))
           element links (Crawl.State topics0 [] [] None) st) with k;
    [|done|done|done].
  intros urls lv link urls' idx r0 Hreg.
  apply examine_Register in Hreg as (Hurl & _).
  by apply resolve_url_shape in Hurl.
Qed.

Lemma crawl_url_shape_witness :
  Py.startswith "https://fundawande.org" "https://fundawande.org/videos/w.mp4" = true
  ∧ ("button" ≠ "a" → Py.last3 "https://fundawande.org/videos/w.mp4" = "mp4").
Proof.
  apply (crawl_url_shape "button" (Some [workbook_video]) []
           (Crawl.videos maths_chef)
           [("Maths", ["Maths-Grade_1-Term_2-Workbook_1_id"])]
           "Maths-Grade_1-Term_2-Workbook_1_id"
           (Crawl.Resource "Workbook 1" "Maths" "Grade 1" "Term 2"
                           "https://fundawande.org/videos/w.mp4")).
  - reflexivity.
  - reflexivity.
Defined.

(** After the two crawls, the keys listed under the topics are exactly
    the keys of the two pools: every key the tree assembly walks over
    stands for a record, and every record is listed under a topic. *)
Theorem topics_list_pool_keys learning video c :
  Crawl.pre_run_crawls learning video = OK c →
  ∀ k, Tree.registered (Crawl.chef_topics c) k ↔ is_Some (Tree.record_of c k).
Proof.
  intros Hrun k. split.
  - apply pre_run_crawls_OK in Hrun as (topics1 & Hpdfs & Hvideos).
    apply crawl_OK in Hpdfs as (links1 & st1 & _ & Hloop1 & Hres1 & ->).
    apply crawl_OK in Hvideos as (links2 & st2 & _ & Hloop2 & Hres2 & Htop2).
    rewrite Htop2. intros Hk. unfold Tree.record_of. rewrite Hres1, Hres2.
    assert (∀ A (o : option A), is_Some o → ∀ o' : option A,
              is_Some (match o with Some x => Some x | None => o' end)) as Hl
      by (intros A o [x ->] o'; eauto).
    destruct (loop_registered _ _ _ _ Hloop2 k Hk) as [Hreg|Hin]; cbn in *.
    + apply Hl.
      destruct (loop_registered _ _ _ _ Hloop1 k Hreg) as [(t & l & [=] & _)|Hin].
      done.
    + destruct (PyDict.get k (Crawl.resources st1)); eauto.
  - destruct (pre_run_topics _ _ _ Hrun) as [_ Hreg].
    unfold Tree.record_of. intros Hsome. apply Hreg.
    destruct (PyDict.get k (Crawl.pdfs c)); eauto.
Qed.

Lemma topics_list_pool_keys_witness :
  Tree.registered (Crawl.chef_topics maths_chef) "Maths-Grade_1-Term_2-Workbook_1_id"
  ↔ is_Some (Tree.record_of maths_chef "Maths-Grade_1-Term_2-Workbook_1_id").
Proof.
  refine (topics_list_pool_keys (Some [phonics_poster; workbook_a])
            (Some [workbook_video]) maths_chef _ "Maths-Grade_1-Term_2-Workbook_1_id").
  reflexivity.
Defined.

(** A page that breaks the expected markup stops the pass with an
    exception; the element is not skipped.  For an element other than a
    link, a missing [onclick] attribute raises [KeyError] and an
    attribute without a quote raises [IndexError]; for any element with
    a new URL, a missing [data-label] or [data-cat1] attribute raises
    [AttributeError]. *)
Theorem crawl_markup_errors element l1 e l2 st0 st1 :
  Crawl.loop element l1 st0 = OK st1 →
  (element ≠ "a" → Crawl.onclick e = None →
   Crawl.loop element (l1 ++ e :: l2) st0 = Raise KeyError)
  ∧ (element ≠ "a" → ∀ s, Crawl.onclick e = Some s → Py.contains "'" s = false →
     Crawl.loop element (l1 ++ e :: l2) st0 = Raise IndexError)
  ∧ (∀ u, Crawl.resolve_url element e = OK (Some u) → u ∉ Crawl.urls st1 →
     Crawl.data_label e = None ∨ Crawl.data_cat1 e = None →
     Crawl.loop element (l1 ++ e :: l2) st0 = Raise AttributeError).
Proof.
  intros Hl1. split_and!.
  - intros Ha Hoc. apply (loop_raise _ _ _ _ _ _ _ Hl1).
    unfold Crawl.loop_body, Crawl.examine, Crawl.resolve_url.
    rewrite decide_False by done. by rewrite Hoc.
  - intros Ha s Hoc Hs. apply (loop_raise _ _ _ _ _ _ _ Hl1).
    unfold Crawl.loop_body, Crawl.examine, Crawl.resolve_url.
    rewrite decide_False by done. rewrite Hoc. cbn.
    by rewrite (split_no_separator _ _ Hs).
  - intros u Hu Hnew Hmiss. apply (loop_raise _ _ _ _ _ _ _ Hl1).
    unfold Crawl.loop_body, Crawl.examine. rewrite Hu. cbn.
    rewrite decide_False by done.
    destruct Hmiss as [Hmiss|Hmiss]; rewrite Hmiss; [done|].
    by destruct (Crawl.data_label e).
Qed.

Lemma crawl_markup_errors_witness :
  Crawl.loop "button" ([workbook_video] ++ button_without_onclick :: [maths_video])
    (Crawl.State [] [] [] None) = Raise KeyError
  ∧ Crawl.loop "button" ([workbook_video] ++ button_without_quote :: [maths_video])
      (Crawl.State [] [] [] None) = Raise IndexError
  ∧ Crawl.loop "a" ([workbook_a] ++ link_without_label :: [workbook_b])
      (Crawl.State [] [] [] None) = Raise AttributeError.
Proof.
  split_and!.
  - eapply (crawl_markup_errors "button" [workbook_video] button_without_onclick
              [maths_video] (Crawl.State [] [] [] None)); [reflexivity| |reflexivity].
    discriminate.
  - eapply (crawl_markup_errors "button" [workbook_video] button_without_quote
              [maths_video] (Crawl.State [] [] [] None));
      [reflexivity| |reflexivity|reflexivity].
    discriminate.
  - eapply (crawl_markup_errors "a" [workbook_a] link_without_label
              [workbook_b] (Crawl.State [] [] [] None));
      [reflexivity|reflexivity| |left; reflexivity].
    cbn. intros Hin%list_elem_of_singleton. discriminate Hin.
Defined.

(** ** The size gate over a whole run *)

Section gate_more.
Import Crawl Gate.

Context {content : Type}.
Context (getsize : content → Z).
Context (http_get : string → option content).
Context (fitz_save : content → fitz_result content).

Abbreviation body := (gate_body getsize http_get fitz_save).
Abbreviation run_loop := (gate_loop getsize http_get fitz_save).
Abbreviation run := (download_and_compress_pdfs getsize http_get fitz_save).


Lemma gate_loop_keeps_files pdfs keys (w : world) p c :
  fs w !! p = Some c → fs (run_loop pdfs keys w).1 !! p = Some c.
Proof.
  revert w. induction keys as [|k keys IH]; intros w Hp; [done|].
  cbn [Gate.gate_loop].
  pose proof (gate_body_keeps_files getsize http_get fitz_save pdfs w k p c Hp) as Hb.
  destruct (body pdfs w k) as [w1 [[]| |]]; cbn in *; [by apply IH|done..].
Qed.

(** Lines 183-188: with the raw file in place nothing is downloaded. *)
Lemma gate_body_cached pdfs (w : world) pdf raw :
  fs w !! pdf_name pdf = Some raw →
  ∃ evs, trace (body pdfs w pdf).1 = trace w ++ evs
         ∧ ∀ k u, Download k u ∉ evs.
Proof.
  intros Hraw. unfold Gate.gate_body.
  destruct (decide (is_Some (fs w !! compressed_pdf pdf))).
  { exists []. split; [by rewrite app_nil_r|]. intros k u. apply not_elem_of_nil. }
  rewrite decide_True by eauto. rewrite Hraw.
  destruct (getsize raw >? SIZE_LIMIT)%Z; [destruct (fitz_save raw)|];
    cbn; eexists; (split; [reflexivity|]);
    intros k u Hin%list_elem_of_singleton; discriminate Hin.
Qed.

Lemma gate_loop_cached pdfs keys (w : world) k raw :
  fs w !! pdf_name k = Some raw →
  (∀ u, Download k u ∉ trace w) →
  ∀ u, Download k u ∉ trace (run_loop pdfs keys w).1.
Proof.
  revert w. induction keys as [|k0 keys IH]; intros w Hraw Hnone; [done|].
  cbn [Gate.gate_loop].
  assert (fs (body pdfs w k0).1 !! pdf_name k = Some raw
          ∧ ∀ u, Download k u ∉ trace (body pdfs w k0).1) as [Hraw1 Hnone1].
  { split; [by apply gate_body_keeps_files|]. intros u.
    destruct (decide (k0 = k)) as [->|Hne].
    - destruct (gate_body_cached pdfs w k raw Hraw) as (evs & -> & Hevs).
      intros [?|?]%elem_of_app; [by eapply Hnone|by eapply Hevs].
    - destruct (gate_body_events getsize http_get fitz_save pdfs w k0)
        as (evs & -> & Hevs).
      intros [?|Hin]%elem_of_app; [by eapply Hnone|].
      rewrite Forall_forall in Hevs. apply Hevs in Hin. cbn in Hin. congruence. }
  destruct (body pdfs w k0) as [w1 [[]| |]]; cbn in *; [by apply IH|done..].
Qed.

(** A run never overwrites or removes a file: whatever was on disk
    before is there, unchanged, when the run ends or stops. *)
Theorem gate_keeps_existing_files pdfs (fs0 : gmap string content) p c :
  fs0 !! p = Some c →
  fs (download_and_compress_pdfs getsize http_get fitz_save pdfs fs0).1 !! p = Some c.
Proof.
  intros Hp. unfold download_and_compress_pdfs.
  by apply gate_loop_keeps_files.
Qed.

(** After a run that came to its end, every document of the pool has its
    output file. *)
Theorem gate_outputs_complete pdfs (fs0 : gmap string content) (w : world) :
  download_and_compress_pdfs getsize http_get fitz_save pdfs fs0 = (w, OK ()) →
  ∀ k r, PyDict.get k pdfs = Some r → is_Some (fs w !! compressed_pdf k).
Proof.
  unfold download_and_compress_pdfs. intros Hrun k r Hk.
  apply gate_loop_produces in Hrun. rewrite Forall_forall in Hrun.
  apply Hrun. by eapply get_Some_keys.
Qed.

(** A document whose raw file is on disk is never downloaded. *)
Theorem cached_raw_not_downloaded pdfs (fs0 : gmap string content) k raw :
  fs0 !! pdf_name k = Some raw →
  ∀ u, Download k u
       ∉ trace (download_and_compress_pdfs getsize http_get fitz_save pdfs fs0).1.
Proof.
  intros Hraw. unfold download_and_compress_pdfs.
  apply (gate_loop_cached pdfs (PyDict.keys pdfs) (World fs0 []) k raw); [done|].
  intros u. apply not_elem_of_nil.
Qed.

End gate_more.

Lemma gate_second_run_witness :
  let w1 := Gate.World ({[ Gate.compressed_pdf "k" := 100%Z;
                            Gate.pdf_name "k" := 100%Z ]} : gmap string Z)
                       [Gate.Download "k" "https://fundawande.org/docs/a.pdf";
                        Gate.Copy "k"] in
  Gate.download_and_compress_pdfs id (λ _, Some 100%Z) halve
    [("k", sample_pdf)] (Gate.fs w1)
  = (Gate.World (Gate.fs w1) [], OK ()).
Proof.
  intros w1.
  apply (gate_second_run id (λ _, Some 100%Z) halve [("k", sample_pdf)] ∅ w1).
  vm_compute. reflexivity.
Defined.

Lemma gate_keeps_existing_files_witness :
  Gate.fs (Gate.download_and_compress_pdfs id (λ _, Some 100%Z) halve
             [("k", sample_pdf)] ({[ "chefdata/notes.txt" := 5%Z ]} : gmap string Z)).1
    !! "chefdata/notes.txt" = Some 5%Z.
Proof.
  apply (gate_keeps_existing_files id (λ _, Some 100%Z) halve [("k", sample_pdf)]
           ({[ "chefdata/notes.txt" := 5%Z ]} : gmap string Z) "chefdata/notes.txt" 5%Z).
  reflexivity.
Defined.

Lemma gate_outputs_complete_witness :
  let w := Gate.World ({[ Gate.compressed_pdf "k" := 100%Z;
                           Gate.pdf_name "k" := 100%Z ]} : gmap string Z)
                      [Gate.Download "k" "https://fundawande.org/docs/a.pdf";
                       Gate.Copy "k"] in
  Gate.download_and_compress_pdfs id (λ _, Some 100%Z) halve [("k", sample_pdf)] ∅
  = (w, OK ())
  ∧ PyDict.get "k" [("k", sample_pdf)] = Some sample_pdf
  ∧ is_Some (Gate.fs w !! Gate.compressed_pdf "k").
Proof.
  intros w. split; [vm_compute; reflexivity|]. split; [reflexivity|].
  refine (gate_outputs_complete id (λ _, Some 100%Z) halve [("k", sample_pdf)] ∅ w _
            "k" sample_pdf _); [vm_compute; reflexivity | reflexivity].
Defined.

Lemma cached_raw_not_downloaded_witness :
  Gate.Download "k" "https://fundawande.org/docs/a.pdf"
  ∉ Gate.trace (Gate.download_and_compress_pdfs id (λ _, Some 100%Z) halve
                  [("k", sample_pdf)]
                  ({[ Gate.pdf_name "k" := 7%Z ]} : gmap string Z)).1.
Proof.
  refine (cached_raw_not_downloaded id (λ _, Some 100%Z) halve [("k", sample_pdf)]
            ({[ Gate.pdf_name "k" := 7%Z ]} : gmap string Z) "k" 7%Z _
            "https://fundawande.org/docs/a.pdf").
  reflexivity.
Defined.


(** ** What the output of a document holds *)

Section path_facts.
Import Gate.

Lemma string_length_app s t :
  String.length (s +:+ t) = String.length s + String.length t.
Proof.
  induction s as [|a s IH]; [done|].
  change (String a s +:+ t) with (String a (s +:+ t)). cbn. by rewrite IH.
Qed.

Lemma string_app_inv_tail s1 s2 t : s1 +:+ t = s2 +:+ t → s1 = s2.
Proof.
  revert s2. induction s1 as [|a s1 IH]; intros [|b s2] H; [done| | |].
  - apply (f_equal String.length) in H.
    change ("" +:+ t) with t in H. rewrite string_length_app in H. cbn in H. lia.
  - apply (f_equal String.length) in H.
    change ("" +:+ t) with t in H. rewrite string_length_app in H. cbn in H. lia.
  - change (String a s1 +:+ t) with (String a (s1 +:+ t)) in H.
    change (String b s2 +:+ t) with (String b (s2 +:+ t)) in H.
    injection H as -> H. f_equal. by apply IH.
Qed.

(** Two keys have different raw paths and different output paths. *)
Lemma pdf_name_inj k1 k2 : pdf_name k1 = pdf_name k2 → k1 = k2.
Proof.
  unfold pdf_name. intros H. cbn in H. injection H as H.
  change ("" +:+ k1 +:+ ".pdf") with (k1 +:+ ".pdf") in H.
  change ("" +:+ k2 +:+ ".pdf") with (k2 +:+ ".pdf") in H.
  by apply string_app_inv_tail in H.
Qed.

Lemma compressed_pdf_inj k1 k2 : compressed_pdf k1 = compressed_pdf k2 → k1 = k2.
Proof.
  unfold compressed_pdf. intros H. cbn in H. injection H as H.
  change ("" +:+ k1 +:+ ".pdf") with (k1 +:+ ".pdf") in H.
  change ("" +:+ k2 +:+ ".pdf") with (k2 +:+ ".pdf") in H.
  by apply string_app_inv_tail in H.
Qed.
End path_facts.

Section gate_output.
Import Crawl Gate.

Context {content : Type}.
Context (getsize : content → Z).
Context (http_get : string → option content).
Context (fitz_save : content → fitz_result content).

(** The body for a key writes to the two paths of that key only. *)
Lemma gate_body_frame pdfs (w : world) k p :
  p ≠ pdf_name k → p ≠ compressed_pdf k →
  fs (gate_body getsize http_get fitz_save pdfs w k).1 !! p = fs w !! p.
Proof.
  intros Hraw Hout. unfold Gate.gate_body.
  destruct (decide (is_Some (fs w !! compressed_pdf k))); [done|].
  destruct (decide (is_Some (fs w !! pdf_name k))) as [[raw Hr]|Hr].
  - rewrite Hr.
    destruct (getsize raw >? SIZE_LIMIT)%Z; [destruct (fitz_save raw)|];
      cbn; rewrite ?lookup_insert_ne; done.
  - destruct (PyDict.get k pdfs) as [r|]; [|done].
    destruct (http_get (url r)) as [c|]; [|done].
    cbn. rewrite lookup_insert_eq.
    destruct (getsize c >? SIZE_LIMIT)%Z; [destruct (fitz_save c)|];
      cbn; rewrite ?lookup_insert_ne by done; rewrite ?lookup_insert_ne; done.
Qed.

(** The raw bytes the body for [k] will work on: the cached file, or
    else what the download gives. *)
Abbreviation raw_bytes pdfs w k raw :=
  (fs w !! pdf_name k = Some raw
   ∨ (fs w !! pdf_name k = None
      ∧ ∃ r, PyDict.get k pdfs = Some r ∧ http_get (url r) = Some raw)).

(** Lines 190-206 for one key whose output is missing. *)
Lemma gate_body_output pdfs (w w' : world) k (raw : content) :
  fs w !! compressed_pdf k = None → raw_bytes pdfs w k raw →
  gate_body getsize http_get fitz_save pdfs w k = (w', OK ()) →
  ((getsize raw ≤ SIZE_LIMIT)%Z → fs w' !! compressed_pdf k = Some raw)
  ∧ ((getsize raw > SIZE_LIMIT)%Z →
     ∃ out, fitz_save raw = Saved out ∧ fs w' !! compressed_pdf k = Some out).
Proof.
  intros Hout Hraw. unfold Gate.gate_body.
  rewrite decide_False by (rewrite Hout; by intros [? ?]).
  assert (∀ w0 : world,
            (if (getsize raw >? SIZE_LIMIT)%Z
             then match fitz_save raw with
                  | Saved out =>
                      (World (<[compressed_pdf k := out]> (fs w0))
                             (trace w0 ++ [Compress k]), OK ())
                  | SaveValueError => (World (fs w0) (trace w0 ++ [Compress k]), Exit 1)
                  | OtherFailure =>
                      (World (fs w0) (trace w0 ++ [Compress k]), Raise FitzError)
                  end
             else (World (<[compressed_pdf k := raw]> (fs w0))
                         (trace w0 ++ [Copy k]), OK ()))
            = (w', OK ()) →
            ((getsize raw ≤ SIZE_LIMIT)%Z → fs w' !! compressed_pdf k = Some raw)
            ∧ ((getsize raw > SIZE_LIMIT)%Z →
               ∃ out, fitz_save raw = Saved out
                      ∧ fs w' !! compressed_pdf k = Some out)) as Hsize.
  { intros w0. destruct (Z.gtb_spec (getsize raw) SIZE_LIMIT) as [Hgt|Hle].
    - destruct (fitz_save raw) as [out| |]; [|done..].
      intros [= <-]. split; [lia|]. intros _. exists out.
      split; [done|]. cbn. by rewrite lookup_insert_eq.
    - intros [= <-]. split; [|lia]. intros _. cbn. by rewrite lookup_insert_eq. }
  destruct Hraw as [Hraw|(Hraw & r & Hr & Hget)].
  - rewrite decide_True by eauto. rewrite Hraw. apply Hsize.
  - rewrite decide_False by (rewrite Hraw; by intros [? ?]).
    rewrite Hr, Hget. cbn. rewrite lookup_insert_eq.
    exact (Hsize (World (<[pdf_name k := raw]> (fs w))
                        (trace w ++ [Download k (url r)]))).
Qed.

Lemma gate_loop_output pdfs keys (w w' : world) k (raw : content) :
  gate_loop getsize http_get fitz_save pdfs keys w = (w', OK ()) →
  k ∈ keys →
  fs w !! compressed_pdf k = None → raw_bytes pdfs w k raw →
  (∀ k', k' ∈ keys →
         pdf_name k' ≠ compressed_pdf k ∧ compressed_pdf k' ≠ pdf_name k) →
  ((getsize raw ≤ SIZE_LIMIT)%Z → fs w' !! compressed_pdf k = Some raw)
  ∧ ((getsize raw > SIZE_LIMIT)%Z →
     ∃ out, fitz_save raw = Saved out ∧ fs w' !! compressed_pdf k = Some out).
Proof.
  revert w. induction keys as [|k0 keys IH]; intros w Hrun Hk Hout Hraw Hpaths;
    [by apply elem_of_nil in Hk|].
  cbn [Gate.gate_loop] in Hrun.
  destruct (gate_body getsize http_get fitz_save pdfs w k0) as [w1 [[]| |]] eqn:Hbody;
    [|done..].
  destruct (decide (k0 = k)) as [->|Hne].
  - destruct (gate_body_output pdfs w w1 k raw Hout Hraw Hbody) as [Hle Hgt].
    pose proof (gate_loop_keeps_files getsize http_get fitz_save pdfs keys w1
                  (compressed_pdf k)) as Hkeep.
    rewrite Hrun in Hkeep. cbn in Hkeep. split.
    + intros Hsize. apply Hkeep. by apply Hle.
    + intros Hsize. destruct (Hgt Hsize) as (out & Hsave & Hfs).
      exists out. split; [done|]. by apply Hkeep.
  - destruct (Hpaths k0) as [Hp1 Hp2]; [by left|].
    assert (fs w1 = fs (gate_body getsize http_get fitz_save pdfs w k0).1) as Hfs1
      by (by rewrite Hbody).
    apply (IH w1 Hrun).
    + apply elem_of_cons in Hk as [?|?]; done.
    + rewrite Hfs1, gate_body_frame; [done|congruence|].
      intros ?%compressed_pdf_inj. done.
    + destruct Hraw as [Hraw|(Hraw & Hrest)].
      * left. rewrite Hfs1. by apply gate_body_keeps_files.
      * right. split; [|done]. rewrite Hfs1, gate_body_frame; [done| |congruence].
        intros ?%pdf_name_inj. done.
    + intros k' Hk'. apply Hpaths. by right.
Qed.

(** After a run that came to its end, the output of a document that had
    none before holds the raw bytes themselves when they are at most
    15 MiB long, and what the compression made of them otherwise,
    provided no raw path of the pool is the output path of that document
    or the other way round. *)
Theorem gate_output_content pdfs (fs0 : gmap string content) (w : world) k r raw :
  download_and_compress_pdfs getsize http_get fitz_save pdfs fs0 = (w, OK ()) →
  PyDict.get k pdfs = Some r →
  fs0 !! compressed_pdf k = None →
  (fs0 !! pdf_name k = Some raw
   ∨ (fs0 !! pdf_name k = None ∧ http_get (url r) = Some raw)) →
  (∀ k', k' ∈ PyDict.keys pdfs →
         pdf_name k' ≠ compressed_pdf k ∧ compressed_pdf k' ≠ pdf_name k) →
  ((getsize raw ≤ SIZE_LIMIT)%Z → fs w !! compressed_pdf k = Some raw)
  ∧ ((getsize raw > SIZE_LIMIT)%Z →
     ∃ out, fitz_save raw = Saved out ∧ fs w !! compressed_pdf k = Some out).
Proof.
  unfold download_and_compress_pdfs. intros Hrun Hk Hout Hraw Hpaths.
  apply (gate_loop_output pdfs _ _ w k raw Hrun); [by eapply get_Some_keys|done| |done].
  destruct Hraw as [?|[? ?]]; [by left|right]. split; [done|]. eauto.
Qed.
End gate_output.

Lemma gate_output_content_witness :
  let w := Gate.World ({[ Gate.compressed_pdf "k" := 100%Z;
                           Gate.pdf_name "k" := 100%Z ]} : gmap string Z)
                      [Gate.Download "k" "https://fundawande.org/docs/a.pdf";
                       Gate.Copy "k"] in
  ((id 100 ≤ Gate.SIZE_LIMIT)%Z → Gate.fs w !! Gate.compressed_pdf "k" = Some 100%Z)
  ∧ ((id 100 > Gate.SIZE_LIMIT)%Z →
     ∃ out, halve 100%Z = Gate.Saved out
            ∧ Gate.fs w !! Gate.compressed_pdf "k" = Some out).
Proof.
  intros w.
  apply (gate_output_content id (λ _, Some 100%Z) halve [("k", sample_pdf)] ∅ w
           "k" sample_pdf 100%Z).
  - vm_compute. reflexivity.
  - reflexivity.
  - reflexivity.
  - right. split; reflexivity.
  - intros k' ->%list_elem_of_singleton. split; discriminate.
Defined.

(** ** The tree: nodes, leaves and where they sit *)

Section tree_more.
Import Crawl Tree Leaves.

Implicit Types (subs : list (string * subtopic_node)) (chs : list child).

Lemma leaf_for_source_id c cats k l : leaf_for c cats k = Some l → source_id l = k.
Proof.
  unfold leaf_for. destruct (PyDict.get k (pdfs c)); [by intros [= <-]|].
  destruct (PyDict.get k (videos c)); [by intros [= <-]|done].
Qed.

Lemma leaf_for_record c cats k :
  is_Some (leaf_for c cats k) ↔ is_Some (record_of c k).
Proof.
  unfold leaf_for, record_of. destruct (PyDict.get k (pdfs c)).
  - split; eauto.
  - destruct (PyDict.get k (videos c)); split; intros [? ?]; eauto; done.
Qed.

(** One iteration of the loop of line 244 adds the leaf of the key, when
    the key is new and stands for a record, and nothing else. *)
Lemma attach_leaf c us cats b k :
  wf_build b → titled (subtopics b) →
  build_leaves (attach c us cats b k)
  ≡ₚ (if decide (k ∈ used_resorces b) then []
      else match leaf_for c cats k with Some l => [l] | None => [] end)
     ++ build_leaves b.
Proof.
  intros Hwf Htitled. unfold attach, leaf_for.
  destruct (decide (k ∈ used_resorces b)) as [Hused|Hnew]; [done|]. cbv zeta.
  set (b0 := Build (used_resorces b ++ [k]) (subtopics b) (children b)).
  assert (wf_build b0) as Hwf0 by done.
  assert (titled (subtopics b0)) as Htitled0 by done.
  destruct (PyDict.get k (pdfs c)) as [obj|] eqn:Hpdf.
  - match goal with |- context [add_child _ ?leaf _] => set (l := leaf) end.
    pose proof (place_spec us obj cats b0 l Hwf0 Htitled0) as H. cbv zeta in H.
    destruct (get_subtopic_node us obj cats b0) as [t b1].
    by destruct H as (_ & _ & _ & _ & -> & _).
  - destruct (PyDict.get k (videos c)) as [obj|] eqn:Hvid; [|done].
    match goal with |- context [add_child _ ?leaf _] => set (l := leaf) end.
    pose proof (place_spec us obj cats b0 l Hwf0 Htitled0) as H. cbv zeta in H.
    destruct (get_subtopic_node us obj cats b0) as [t b1].
    by destruct H as (_ & _ & _ & _ & -> & _).
Qed.

(** Every leaf of a topic under construction was there before or is the
    leaf of one of the keys walked over. *)
Lemma fold_attach_leaves c us cats keys b :
  wf_build b → titled (subtopics b) →
  ∀ l, l ∈ build_leaves (foldl (attach c us cats) b keys) →
       l ∈ build_leaves b ∨ ∃ k, k ∈ keys ∧ leaf_for c cats k = Some l.
Proof.
  revert b. induction keys as [|k keys IH]; intros b Hwf Htitled l; cbn [foldl].
  { by left. }
  destruct (attach_spec c us cats b k Hwf Htitled) as (Hwf1 & Htitled1 & _).
  intros [Hl|(k' & Hk' & Hleaf)]%(IH _ Hwf1 Htitled1).
  - rewrite attach_leaf in Hl by done.
    apply elem_of_app in Hl as [Hl|Hl]; [|by left]. right. exists k.
    split; [by left|].
    destruct (decide (k ∈ used_resorces b)); [by apply elem_of_nil in Hl|].
    destruct (leaf_for c cats k); [|by apply elem_of_nil in Hl].
    by apply list_elem_of_singleton in Hl as ->.
  - right. exists k'. split; [by right|done].
Qed.

Lemma of_option_OK {A} (e : exn) (o : option A) a : of_option e o = OK a → o = Some a.
Proof. destruct o; [by intros [= ->]|done]. Qed.

Lemma build_topic_OK c used topic used' node :
  build_topic c used topic = OK (used', node) →
  ∃ keys first,
    PyDict.get topic (chef_topics c) = Some keys ∧ keys !! 0%nat = Some first
    ∧ node = TopicNode (Py.replace_space topic +:+ "_id") topic (map_categories topic)
               (freeze (foldl (attach c (Py.contains "Grade" first) (map_categories topic))
                              (Build used [] []) keys)).
Proof.
  unfold build_topic. intros (keys & Hkeys%of_option_OK & H)%bind_OK.
  apply bind_OK in H as (first & Hfirst%of_option_OK & [= _ <-]).
  by exists keys, first.
Qed.

(** What holds of every node built holds of every node of the channel. *)
Lemma channel_loop_nodes (P : string → topic_node → Prop) c topics used channel channel' :
  (∀ used topic used' node,
     build_topic c used topic = OK (used', node) → P topic node) →
  channel_loop c topics used channel = OK channel' →
  ∃ nodes, channel' = channel ++ nodes ∧ Forall2 P topics nodes.
Proof.
  intros HP. revert used channel.
  induction topics as [|t topics IH]; intros used channel; cbn [channel_loop].
  - intros [= <-]. exists []. by rewrite app_nil_r.
  - intros ([used1 node] & Hbuild & Hloop)%bind_OK.
    destruct (IH _ _ Hloop) as (nodes & -> & Hnodes).
    exists (node :: nodes). rewrite <- app_assoc. split; [done|].
    constructor; [by eapply HP|done].
Qed.
Lemma Forall2_elem_of_r {A B} (P : A → B → Prop) l k y :
  Forall2 P l k → y ∈ k → ∃ x, x ∈ l ∧ P x y.
Proof.
  induction 1 as [|x y' l k Hxy _ IH]; [by intros ?%elem_of_nil|].
  intros [->|Hy]%elem_of_cons.
  - exists x. split; [by left|done].
  - destruct (IH Hy) as (x' & ? & ?). exists x'. split; [by right|done].
Qed.

Lemma elem_of_concat {A} (x : A) (ls : list (list A)) :
  x ∈ concat ls ↔ ∃ l, l ∈ ls ∧ x ∈ l.
Proof.
  induction ls as [|l ls IH]; cbn.
  - split; [by intros ?%elem_of_nil|by intros (? & ?%elem_of_nil & _)].
  - rewrite elem_of_app, IH. split.
    + intros [?|(l' & ? & ?)]; [exists l; split; [by left|done]|].
      exists l'. split; [by right|done].
    + intros (l' & [->|?]%elem_of_cons & ?); [by left|right; eauto].
Qed.

(** Every node of the channel is what [build_topic] made of one topic. *)
Lemma construct_channel_nodes c channel :
  construct_channel c = OK channel →
  Forall2 (λ topic node, ∃ used used', build_topic c used topic = OK (used', node))
          (PyDict.keys (chef_topics c)) channel.
Proof.
  unfold construct_channel. intros Hloop.
  apply (channel_loop_nodes
           (λ topic node, ∃ used used', build_topic c used topic = OK (used', node)))
    in Hloop as (nodes & -> & Hnodes); [done|eauto].
Qed.

Lemma leaves_of_built_topic c used topic used' node l :
  build_topic c used topic = OK (used', node) → l ∈ leaves_of_topic node →
  ∃ k, leaf_for c (map_categories topic) k = Some l.
Proof.
  intros (keys & first & _ & _ & ->)%build_topic_OK Hl.
  apply (fold_attach_leaves c _ _ keys (Build used [] [])) in Hl
    as [?%elem_of_nil|(k & _ & Hk)]; [done|eauto|split; [done|constructor]|].
  intros ? ? [=].
Qed.

Lemma channel_leaf c channel l :
  construct_channel c = OK channel → l ∈ leaves channel →
  ∃ topic, topic ∈ PyDict.keys (chef_topics c)
           ∧ leaf_for c (map_categories topic) (source_id l) = Some l.
Proof.
  intros Hnodes%construct_channel_nodes (ls & Hls & Hl)%elem_of_concat.
  apply list_elem_of_fmap in Hls as (node & -> & Hnode).
  destruct (Forall2_elem_of_r _ _ _ _ Hnodes Hnode) as (topic & Htopic & used & used' & Hb).
  destruct (leaves_of_built_topic _ _ _ _ _ _ Hb Hl) as (k & Hk).
  exists topic. split; [done|]. by rewrite (leaf_for_source_id _ _ _ _ Hk).
Qed.
End tree_more.

(** The channel gets one topic node per topic of [self.topics], in the
    order in which the topics were first seen; a node carries the topic as
    its title, the title with underscores for spaces and [_id] appended as
    its source id, and the labels [map_categories] gives for the topic. *)
Theorem channel_topic_nodes c channel :
  Tree.construct_channel c = OK channel →
  Tree.topic_title <$> channel = PyDict.keys (Crawl.chef_topics c)
  ∧ ∀ node, node ∈ channel →
      Tree.topic_source_id node = Py.replace_space (Tree.topic_title node) +:+ "_id"
      ∧ Tree.topic_categories node = Tree.map_categories (Tree.topic_title node).
Proof.
  intros Hnodes%construct_channel_nodes. split.
  - induction Hnodes as [|topic node topics nodes (u & u' & Hb) _ IH]; [done|].
    apply build_topic_OK in Hb as (? & ? & _ & _ & ->). cbn. by rewrite IH.
  - intros node Hnode.
    destruct (Forall2_elem_of_r _ _ _ _ Hnodes Hnode) as (topic & _ & u & u' & Hb).
    by apply build_topic_OK in Hb as (? & ? & _ & _ & ->).
Qed.

Lemma channel_topic_nodes_witness :
  Tree.topic_title <$> maths_channel = PyDict.keys (Crawl.chef_topics maths_chef)
  ∧ ∀ node, node ∈ maths_channel →
      Tree.topic_source_id node = Py.replace_space (Tree.topic_title node) +:+ "_id"
      ∧ Tree.topic_categories node = Tree.map_categories (Tree.topic_title node).
Proof. apply (channel_topic_nodes maths_chef maths_channel). reflexivity. Defined.

(** Every leaf of the tree is the node of its key: when the key is in
    the document pool, a document node on the compressed file of the key,
    titled with the name of the record, preceded by the term and [ - ]
    unless the term is [All]; otherwise a video node on the URL of the
    record in the video pool. *)
Theorem leaf_contents c channel l :
  Tree.construct_channel c = OK channel → l ∈ Tree.leaves channel →
  (∃ obj, PyDict.get (Tree.source_id l) (Crawl.pdfs c) = Some obj
          ∧ Tree.kind l = Tree.DocumentNode
          ∧ Tree.path l = Gate.compressed_pdf (Tree.source_id l)
          ∧ Tree.title l
            = (if decide (Crawl.term obj ≠ "All") then Crawl.term obj +:+ " - " else "")
              +:+ Crawl.name obj)
  ∨ (PyDict.get (Tree.source_id l) (Crawl.pdfs c) = None
     ∧ ∃ obj, PyDict.get (Tree.source_id l) (Crawl.videos c) = Some obj
              ∧ Tree.kind l = Tree.VideoNode
              ∧ Tree.path l = Crawl.url obj).
Proof.
  intros Hc Hl. destruct (channel_leaf c channel l Hc Hl) as (topic & _ & Hleaf).
  unfold Leaves.leaf_for in Hleaf.
  destruct (PyDict.get (Tree.source_id l) (Crawl.pdfs c)) as [obj|].
  - left. exists obj. injection Hleaf as Hleaf.
    pose proof (f_equal Tree.kind Hleaf) as Hkind.
    pose proof (f_equal Tree.path Hleaf) as Hpath.
    pose proof (f_equal Tree.title Hleaf) as Htitle.
    cbn in Hkind, Hpath, Htitle. done.
  - right. split; [done|].
    destruct (PyDict.get (Tree.source_id l) (Crawl.videos c)) as [obj|]; [|done].
    exists obj. injection Hleaf as Hleaf.
    pose proof (f_equal Tree.kind Hleaf) as Hkind.
    pose proof (f_equal Tree.path Hleaf) as Hpath.
    cbn in Hkind, Hpath. done.
Qed.

Lemma leaf_contents_witness :
  (∃ obj, PyDict.get (Tree.source_id maths_leaf) (Crawl.pdfs maths_chef) = Some obj
          ∧ Tree.kind maths_leaf = Tree.DocumentNode
          ∧ Tree.path maths_leaf = Gate.compressed_pdf (Tree.source_id maths_leaf)
          ∧ Tree.title maths_leaf
            = (if decide (Crawl.term obj ≠ "All") then Crawl.term obj +:+ " - " else "")
              +:+ Crawl.name obj)
  ∨ (PyDict.get (Tree.source_id maths_leaf) (Crawl.pdfs maths_chef) = None
     ∧ ∃ obj, PyDict.get (Tree.source_id maths_leaf) (Crawl.videos maths_chef) = Some obj
              ∧ Tree.kind maths_leaf = Tree.VideoNode
              ∧ Tree.path maths_leaf = Crawl.url obj).
Proof.
  apply (leaf_contents maths_chef maths_channel maths_leaf).
  - reflexivity.
  - change (Tree.leaves maths_channel) with [maths_leaf]. left.
Defined.

(** After the two crawls the tree has a leaf for a key exactly when the
    key is in one of the two pools: no record is left out of the tree and
    no leaf stands for anything else. *)
Theorem tree_leaves_are_pool_keys learning video c :
  Crawl.pre_run_crawls learning video = OK c →
  ∃ channel,
    Tree.construct_channel c = OK channel
    ∧ ∀ k, k ∈ Tree.source_id <$> Tree.leaves channel ↔ is_Some (Tree.record_of c k).
Proof.
  intros Hrun. destruct (pre_run_topics _ _ _ Hrun) as [Hne Hreg].
  destruct (channel_loop_spec c (PyDict.keys (Crawl.chef_topics c)) [] [])
    as (channel & used & Hloop & (_ & _ & Hall) & _ & Hkeys).
  { split_and!; [constructor|by intros ? ?%elem_of_nil|by intros ? ?%elem_of_nil]. }
  { intros t [keys Hkeys]%keys_get_Some. destruct (Hne t keys Hkeys) as [first ?]. eauto. }
  exists channel. split; [done|]. intros k. split.
  - intros (l & -> & Hl)%list_elem_of_fmap.
    destruct (channel_leaf c channel l Hloop Hl) as (topic & _ & Hleaf).
    apply (leaf_for_record c (Tree.map_categories topic)). eauto.
  - intros Hrec. destruct (Hreg k) as (t & keys & Ht & Hk).
    { unfold Tree.record_of in Hrec.
      destruct (PyDict.get k (Crawl.pdfs c)); [left; eauto|by right]. }
    destruct (Hall k) as (l & Hl & <-); [|done|by apply list_elem_of_fmap_2].
    eapply Hkeys; [|done..]. by eapply get_Some_keys.
Qed.

Lemma tree_leaves_are_pool_keys_witness :
  ∃ channel,
    Tree.construct_channel maths_chef = OK channel
    ∧ ∀ k, k ∈ Tree.source_id <$> Tree.leaves channel
           ↔ is_Some (Tree.record_of maths_chef k).
Proof.
  apply (tree_leaves_are_pool_keys (Some [phonics_poster; workbook_a])
           (Some [workbook_video]) maths_chef).
  reflexivity.
Defined.

(** ** Subtopic nodes and the placement of leaves *)

Section placement.
Import Crawl Tree Leaves.

(** What is kept true of the stored subtopic nodes: the source id is the
    level with [_id], the labels are those of the topic, the level has
    the marker, there is a leaf, and every leaf stands for a record of
    that level. *)
Abbreviation store_ok c cats subs :=
  (∀ lvl n, PyDict.get lvl subs = Some n →
     sub_source_id n = lvl +:+ "_id" ∧ sub_categories n = cats
     ∧ Py.contains "Grade" lvl = true ∧ sub_children n ≠ []
     ∧ ∀ l, l ∈ sub_children n →
            ∃ obj, record_of c (source_id l) = Some obj ∧ level obj = lvl).

(** What is kept true of the leaves directly under the topic node. *)
Abbreviation direct_ok c us chs :=
  (∀ l, ChildLeaf l ∈ chs →
     ∃ obj, record_of c (source_id l) = Some obj
            ∧ (us = false ∨ Py.contains "Grade" (level obj) = false)).

Lemma place_store c us cats obj b l :
  record_of c (source_id l) = Some obj →
  store_ok c cats (subtopics b) → direct_ok c us (children b) →
  let b' := (let '(t, b1) := get_subtopic_node us obj cats b in add_child t l b1) in
  store_ok c cats (subtopics b') ∧ direct_ok c us (children b').
Proof.
  intros Hrec Hstore Hdirect. unfold get_subtopic_node.
  assert (∀ why : us = false ∨ Py.contains "Grade" (level obj) = false,
            store_ok c cats (subtopics (add_child TheTopic l b))
            ∧ direct_ok c us (children (add_child TheTopic l b))) as Htopic.
  { intros why. cbn. split; [done|].
    intros l' [Hl'|Hl']%elem_of_app; [by apply Hdirect|].
    apply list_elem_of_singleton in Hl'. injection Hl' as ->. eauto. }
  destruct (Py.contains "Grade" (level obj)) eqn:HG; cbn [negb]; [|by apply Htopic; right].
  destruct us; [|by apply Htopic; left].
  unfold PyDict.mem.
  destruct (PyDict.get (level obj) (subtopics b)) as [n|] eqn:Hget; cbn [negb add_child].
  - rewrite Hget. cbn [subtopics children]. split; [|done].
    intros lvl m. rewrite get_set. case_decide as Hlvl; [|by apply Hstore].
    intros [= <-]. subst lvl. cbn.
    destruct (Hstore _ _ Hget) as (? & ? & ? & _ & Hleaves).
    split_and!; [done..|by destruct (sub_children n)|].
    intros l' [Hl'| ->%list_elem_of_singleton]%elem_of_app; [by apply Hleaves|eauto].
  - cbn [subtopics]. rewrite get_set_eq. cbn [subtopics children]. split.
    + intros lvl m. rewrite get_set. case_decide as Hlvl.
      * intros [= <-]. subst lvl. cbn. split_and!; [done..|].
        intros l' ->%list_elem_of_singleton. eauto.
      * rewrite get_set_ne by done. by apply Hstore.
    + intros l' [Hl'|Hl']%elem_of_app; [by apply Hdirect|].
      apply list_elem_of_singleton in Hl'. discriminate Hl'.
Qed.

Lemma attach_store c us cats b k :
  store_ok c cats (subtopics b) → direct_ok c us (children b) →
  store_ok c cats (subtopics (attach c us cats b k))
  ∧ direct_ok c us (children (attach c us cats b k)).
Proof.
  intros Hstore Hdirect. unfold attach.
  destruct (decide (k ∈ used_resorces b)); [done|]. cbv zeta.
  set (b0 := Build (used_resorces b ++ [k]) (subtopics b) (children b)).
  destruct (PyDict.get k (pdfs c)) as [obj|] eqn:Hpdf.
  - match goal with |- context [add_child _ ?leaf _] => set (l := leaf) end.
    assert (record_of c (source_id l) = Some obj) as Hrec
      by (unfold record_of; cbn; by rewrite Hpdf).
    pose proof (place_store c us cats obj b0 l Hrec Hstore Hdirect) as H.
    cbv zeta in H. by destruct (get_subtopic_node us obj cats b0).
  - destruct (PyDict.get k (videos c)) as [obj|] eqn:Hvid; [|done].
    match goal with |- context [add_child _ ?leaf _] => set (l := leaf) end.
    assert (record_of c (source_id l) = Some obj) as Hrec
      by (unfold record_of; cbn; by rewrite Hpdf, Hvid).
    pose proof (place_store c us cats obj b0 l Hrec Hstore Hdirect) as H.
    cbv zeta in H. by destruct (get_subtopic_node us obj cats b0).
Qed.

Lemma fold_attach_store c us cats keys b :
  store_ok c cats (subtopics b) → direct_ok c us (children b) →
  store_ok c cats (subtopics (foldl (attach c us cats) b keys))
  ∧ direct_ok c us (children (foldl (attach c us cats) b keys)).
Proof.
  revert b. induction keys as [|k keys IH]; intros b Hstore Hdirect; [done|].
  cbn [foldl]. destruct (attach_store c us cats b k Hstore Hdirect). by apply IH.
Qed.

(** The node of a topic, with what its construction keeps true. *)
Lemma built_topic_store c used topic used' node :
  build_topic c used topic = OK (used', node) →
  ∃ keys first b,
    PyDict.get topic (chef_topics c) = Some keys ∧ keys !! 0%nat = Some first
    ∧ node = TopicNode (Py.replace_space topic +:+ "_id") topic (map_categories topic)
               (freeze b)
    ∧ wf_build b ∧ titled (subtopics b)
    ∧ store_ok c (map_categories topic) (subtopics b)
    ∧ direct_ok c (Py.contains "Grade" first) (children b).
Proof.
  intros (keys & first & Hkeys & Hfirst & ->)%build_topic_OK.
  assert (wf_build (Build used [] [])) as Hwf0 by (split; [done|constructor]).
  assert (titled (subtopics (Build used [] []))) as Htitled0 by (intros ? ? [=]).
  destruct (fold_attach_spec c (Py.contains "Grade" first) (map_categories topic)
              [] keys (Build used [] []) Hwf0 Htitled0) as (Hwf & Htitled & _).
  destruct (fold_attach_store c (Py.contains "Grade" first) (map_categories topic)
              keys (Build used [] [])) as [Hstore Hdirect];
    [intros ? ? [=]|by intros ? ?%elem_of_nil|].
  exists keys, first. eexists. split_and!; [done|done|reflexivity|done..].
Qed.

Lemma elem_of_subtopics_of sid ttl cats b s :
  wf_build b →
  s ∈ subtopics_of (TopicNode sid ttl cats (freeze b)) ↔
  ∃ lvl, PyDict.get lvl (subtopics b) = Some s.
Proof.
  intros [Hrefs _]. rewrite subtopics_of_freeze, list_elem_of_omap, Hrefs. split.
  - intros (lvl & _ & ?). eauto.
  - intros (lvl & Hlvl). exists lvl. split; [by eapply get_Some_keys|done].
Qed.

Lemma titles_omap (subs : list (string * subtopic_node)) (ls : list string) :
  titled subs → (∀ lvl, lvl ∈ ls → is_Some (PyDict.get lvl subs)) →
  sub_title <$> omap (λ lvl, PyDict.get lvl subs) ls = ls.
Proof.
  intros Htitled. induction ls as [|lvl ls IH]; intros Hall; [done|].
  cbn. destruct (Hall lvl) as [n Hn]; [by left|]. rewrite Hn. cbn.
  rewrite (Htitled _ _ Hn). f_equal. apply IH. intros lvl' Hlvl'. apply Hall. by right.
Qed.

Lemma titles_of_subtopics sid ttl cats b :
  wf_build b → titled (subtopics b) →
  sub_title <$> subtopics_of (TopicNode sid ttl cats (freeze b))
  = PyDict.keys (subtopics b).
Proof.
  intros [Hrefs _] Htitled. rewrite subtopics_of_freeze, Hrefs.
  apply titles_omap; [done|]. intros lvl. apply keys_get_Some.
Qed.

Lemma elem_of_direct_leaves sid ttl cats b l :
  l ∈ direct_leaves (TopicNode sid ttl cats (freeze b)) → ChildLeaf l ∈ children b.
Proof.
  unfold direct_leaves, freeze. cbn [topic_children].
  intros (ch & (ch0 & Hch0 & Hres)%list_elem_of_omap & Hch)%list_elem_of_omap.
  destruct ch as [l'|]; [|done]. injection Hch as ->.
  destruct ch0 as [l'|lvl]; cbn in Hres.
  - by injection Hres as ->.
  - by destruct (PyDict.get lvl (subtopics b)).
Qed.
End placement.

(** The subtopic nodes of a topic node have pairwise distinct titles;
    each is titled with a level that contains [Grade], has that level
    with [_id] appended as its source id, carries the labels of its
    topic node, and has at least one leaf. *)
Theorem subtopic_nodes_shape c channel node :
  Tree.construct_channel c = OK channel → node ∈ channel →
  NoDup (Tree.sub_title <$> Tree.subtopics_of node)
  ∧ ∀ s, s ∈ Tree.subtopics_of node →
      Py.contains "Grade" (Tree.sub_title s) = true
      ∧ Tree.sub_source_id s = Tree.sub_title s +:+ "_id"
      ∧ Tree.sub_categories s = Tree.topic_categories node
      ∧ Tree.sub_children s ≠ [].
Proof.
  intros Hnodes%construct_channel_nodes Hnode.
  destruct (Forall2_elem_of_r _ _ _ _ Hnodes Hnode) as (topic & _ & u & u' & Hb).
  apply built_topic_store in Hb
    as (keys & first & b & _ & _ & -> & Hwf & Htitled & Hstore & _).
  split.
  - rewrite titles_of_subtopics by done. apply Hwf.
  - intros s (lvl & Hlvl)%elem_of_subtopics_of; [|done].
    destruct (Hstore _ _ Hlvl) as (? & ? & ? & ? & _).
    rewrite (Htitled _ _ Hlvl). done.
Qed.

Lemma subtopic_nodes_shape_witness :
  NoDup (Tree.sub_title <$> Tree.subtopics_of maths_node)
  ∧ ∀ s, s ∈ Tree.subtopics_of maths_node →
      Py.contains "Grade" (Tree.sub_title s) = true
      ∧ Tree.sub_source_id s = Tree.sub_title s +:+ "_id"
      ∧ Tree.sub_categories s = Tree.topic_categories maths_node
      ∧ Tree.sub_children s ≠ [].
Proof.
  apply (subtopic_nodes_shape maths_chef maths_channel maths_node).
  - reflexivity.
  - apply list_elem_of_singleton. reflexivity.
Defined.

(** A leaf inside a subtopic node stands for a record whose level is the
    title of that subtopic node.  A leaf directly under a topic node
    stands for a record whose level does not contain [Grade], unless the
    first key of the topic does not contain [Grade] and the topic is not
    split at all. *)
Theorem leaf_placement c channel node :
  Tree.construct_channel c = OK channel → node ∈ channel →
  (∀ s l, s ∈ Tree.subtopics_of node → l ∈ Tree.sub_children s →
     ∃ obj, Tree.record_of c (Tree.source_id l) = Some obj
            ∧ Crawl.level obj = Tree.sub_title s)
  ∧ (∀ l, l ∈ Leaves.direct_leaves node →
       ∃ obj, Tree.record_of c (Tree.source_id l) = Some obj
              ∧ (Py.contains "Grade" (Crawl.level obj) = false
                 ∨ ∃ keys first,
                     PyDict.get (Tree.topic_title node) (Crawl.chef_topics c) = Some keys
                     ∧ keys !! 0%nat = Some first
                     ∧ Py.contains "Grade" first = false)).
Proof.
  intros Hnodes%construct_channel_nodes Hnode.
  destruct (Forall2_elem_of_r _ _ _ _ Hnodes Hnode) as (topic & _ & u & u' & Hb).
  apply built_topic_store in Hb
    as (keys & first & b & Hkeys & Hfirst & -> & Hwf & Htitled & Hstore & Hdirect).
  split.
  - intros s l (lvl & Hlvl)%elem_of_subtopics_of Hl; [|done].
    destruct (Hstore _ _ Hlvl) as (_ & _ & _ & _ & Hleaves).
    rewrite (Htitled _ _ Hlvl). by apply Hleaves.
  - intros l Hl%elem_of_direct_leaves.
    destruct (Hdirect l Hl) as (obj & Hobj & [Hus|HG]).
    + exists obj. split; [done|]. right. by exists keys, first.
    + exists obj. split; [done|]. by left.
Qed.

Lemma leaf_placement_witness :
  (∀ s l, s ∈ Tree.subtopics_of maths_node → l ∈ Tree.sub_children s →
     ∃ obj, Tree.record_of maths_chef (Tree.source_id l) = Some obj
            ∧ Crawl.level obj = Tree.sub_title s)
  ∧ (∀ l, l ∈ Leaves.direct_leaves maths_node →
       ∃ obj, Tree.record_of maths_chef (Tree.source_id l) = Some obj
              ∧ (Py.contains "Grade" (Crawl.level obj) = false
                 ∨ ∃ keys first,
                     PyDict.get (Tree.topic_title maths_node)
                                (Crawl.chef_topics maths_chef) = Some keys
                     ∧ keys !! 0%nat = Some first
                     ∧ Py.contains "Grade" first = false)).
Proof.
  apply (leaf_placement maths_chef maths_channel maths_node).
  - reflexivity.
  - apply list_elem_of_singleton. reflexivity.
Defined.

(** ** Subject labels *)

(** A topic gets the labels of at most one of the groups of
    [map_categories]: the three literacy labels, or mathematics, or the
    label for teachers, or language learning, or none.  Labels of two
    groups are never mixed. *)
Theorem map_categories_one_group name :
  Tree.map_categories name = []
  ∨ Tree.map_categories name
    = [Tree.LITERACY; Tree.READING_AND_WRITING; Tree.READING_COMPREHENSION]
  ∨ Tree.map_categories name = [Tree.MATHEMATICS]
  ∨ Tree.map_categories name = [Tree.FOR_TEACHERS]
  ∨ Tree.map_categories name = [Tree.LANGUAGE_LEARNING].
Proof.
  unfold Tree.map_categories.
  destruct (bool_decide (name ∈ ["Literacy Workbooks"; "Reading Academy ";
                                 "Reading Strategy 2022 - 2030"; "ECDoE Reading Policy"]))
    eqn:H1.
  { apply bool_decide_eq_true in H1.
    repeat (apply elem_of_cons in H1 as [->|H1]; [vm_compute; tauto|]).
    by apply elem_of_nil in H1. }
  destruct (bool_decide (name ∈ ["Maths Workbooks"; "Maths"; "Numeracy Academy"])) eqn:H2.
  { apply bool_decide_eq_true in H2.
    repeat (apply elem_of_cons in H2 as [->|H2]; [vm_compute; tauto|]).
    by apply elem_of_nil in H2. }
  destruct (bool_decide (name ∈ ["Teaching Guides"; "Instructional Coaching";
                                 "Lesson Plan Intervention";
                                 "Reading for Meaning Course"])) eqn:H3.
  { apply bool_decide_eq_true in H3.
    repeat (apply elem_of_cons in H3 as [->|H3]; [vm_compute; tauto|]).
    by apply elem_of_nil in H3. }
  destruct (Py.contains name "DBE Vocabulary Posters"); cbn; tauto.
Qed.

(** ** One topic node per topic, and where records come from *)

Section provenance.
Import Crawl Tree.

Lemma loop_topics_NoDup element links st st' :
  NoDup (PyDict.keys (topics st)) → loop element links st = OK st' →
  NoDup (PyDict.keys (topics st')).
Proof.
  revert st. induction links as [|e links IH]; intros st Hnd; cbn.
  - by intros [= <-].
  - intros (st1 & H1 & H2)%bind_OK. apply (IH st1); [|done].
    apply loop_body_OK in H1 as (d & _ & ->).
    destruct d as [?|? idx r]; cbn; [done|].
    unfold register_topic. destruct (PyDict.get (topic r) (topics st));
      by apply NoDup_keys_set.
Qed.

Lemma channel_titles c channel :
  construct_channel c = OK channel →
  topic_title <$> channel = PyDict.keys (chef_topics c).
Proof.
  intros Hnodes%construct_channel_nodes.
  induction Hnodes as [|topic node topics nodes (u & u' & Hb) _ IH]; [done|].
  apply build_topic_OK in Hb as (? & ? & _ & _ & ->). cbn. by rewrite IH.
Qed.

(** The fields of a registered record are the stripped attributes of
    its element; only the name of a video of the leveled course is
    something else. *)
Lemma examine_Register_fields element urls lv link urls' idx r :
  examine element urls lv link = OK (Register urls' idx r) →
  ∃ label cat1 cat2 cat3,
    data_label link = Some label ∧ data_cat1 link = Some cat1
    ∧ data_cat2 link = Some cat2 ∧ data_cat3 link = Some cat3
    ∧ topic r = (if decide (Py.strip cat1 = "Maths Workbooks") then "Maths"
                 else Py.strip cat1)
    ∧ level r = Py.strip cat2 ∧ term r = Py.strip cat3
    ∧ (name r = Py.strip label
       ∨ (element ≠ "a" ∧ topic r = "Reading for Meaning Course")).
Proof.
  unfold examine. intros (ourl & Hurl & H)%bind_OK.
  destruct ourl as [u|]; [|done].
  destruct (decide (u ∈ urls)) as [|Hnew]; [done|].
  apply bind_OK in H as (nm & (label & Hlabel & ->)%get_strip_OK & H).
  apply bind_OK in H as (tp & (cat1 & Hcat1 & ->)%get_strip_OK & H).
  apply bind_OK in H as (nm' & Hnm' & H).
  destruct (excluded (Py.strip cat1)) eqn:Hex; [done|].
  apply bind_OK in H as (lvl & (cat2 & Hcat2 & ->)%get_strip_OK & H).
  apply bind_OK in H as (tm & (cat3 & Hcat3 & ->)%get_strip_OK & H).
  injection H as <- <- <-. exists label, cat1, cat2, cat3. cbn.
  split_and!; try done.
  destruct (decide (Py.strip cat1 = "Reading for Meaning Course")) as [Hc|Hc].
  - destruct (decide (element ≠ "a")) as [Ha|Ha].
    + right. split; [done|]. rewrite Hc. by rewrite decide_False.
    + left. by injection Hnm' as <-.
  - left. by injection Hnm' as <-.
Qed.

(** Every record of the returned dictionary has a property that every
    record registered for an element of the page has. *)
Lemma loop_records_in (Q : resource → Prop) element (page links : list tag) st st' :
  (∀ link, link ∈ links → link ∈ page) →
  (∀ urls lv link urls' idx r,
     link ∈ page → examine element urls lv link = OK (Register urls' idx r) → Q r) →
  (∀ k r, PyDict.get k (resources st) = Some r → Q r) →
  loop element links st = OK st' →
  ∀ k r, PyDict.get k (resources st') = Some r → Q r.
Proof.
  intros Hsub HQ. revert st. induction links as [|e links IH]; intros st Hst; cbn.
  - by intros [= <-].
  - intros (st1 & H1 & H2)%bind_OK.
    apply (IH (λ l Hl, Hsub l (proj2 (elem_of_cons _ _ _) (or_intror Hl))) st1);
      [|done].
    apply loop_body_OK in H1 as (d & Hd & ->).
    destruct d as [urls'|urls' idx r0]; cbn; [done|].
    intros k r. rewrite get_set. case_decide; [|by eauto].
    intros [= <-]. eapply HQ; [|done]. apply Hsub. by left.
Qed.
End provenance.

(** After the two crawls the channel has one topic node per distinct
    topic: no two topic nodes have the same title. *)
Theorem topic_nodes_distinct learning video c channel :
  Crawl.pre_run_crawls learning video = OK c →
  Tree.construct_channel c = OK channel →
  NoDup (Tree.topic_title <$> channel).
Proof.
  intros (topics1 & Hpdfs & Hvideos)%pre_run_crawls_OK Hchannel.
  rewrite (channel_titles c channel Hchannel).
  apply crawl_OK in Hpdfs as (links1 & st1 & _ & Hloop1 & _ & ->).
  apply crawl_OK in Hvideos as (links2 & st2 & _ & Hloop2 & _ & ->).
  apply (loop_topics_NoDup _ _ _ _) in Hloop1; [|constructor].
  by apply (loop_topics_NoDup _ _ _ _) in Hloop2.
Qed.

Lemma topic_nodes_distinct_witness :
  NoDup (Tree.topic_title <$> maths_channel).
Proof.
  apply (topic_nodes_distinct (Some [phonics_poster; workbook_a])
           (Some [workbook_video]) maths_chef maths_channel).
  - reflexivity.
  - reflexivity.
Defined.

(** Every record a crawl pass returns was made from an element of the
    page: its URL is the resolved URL of that element, its level and term
    are the stripped [data-cat2] and [data-cat3] attributes, its topic is
    the stripped [data-cat1] attribute, with [Maths Workbooks] turned
    into [Maths], and its name is the stripped [data-label] attribute,
    except for the videos of the leveled course. *)
Theorem record_provenance element links topics0 res topics' k r :
  Crawl.crawl element (Some links) topics0 = OK (res, topics') →
  PyDict.get k res = Some r →
  ∃ link label cat1 cat2 cat3,
    link ∈ links
    ∧ Crawl.resolve_url element link = OK (Some (Crawl.url r))
    ∧ Crawl.data_label link = Some label ∧ Crawl.data_cat1 link = Some cat1
    ∧ Crawl.data_cat2 link = Some cat2 ∧ Crawl.data_cat3 link = Some cat3
    ∧ Crawl.topic r = (if decide (Py.strip cat1 = "Maths Workbooks") then "Maths"
                       else Py.strip cat1)
    ∧ Crawl.level r = Py.strip cat2 ∧ Crawl.term r = Py.strip cat3
    ∧ (Crawl.name r = Py.strip label
       ∨ (element ≠ "a" ∧ Crawl.topic r = "Reading for Meaning Course")).
Proof.
  intros (links' & st & [= <-] & Hloop & -> & _)%crawl_OK Hget.
  apply (loop_records_in
           (λ r, ∃ link label cat1 cat2 cat3,
              link ∈ links
              ∧ Crawl.resolve_url element link = OK (Some (Crawl.url r))
              ∧ Crawl.data_label link = Some label ∧ Crawl.data_cat1 link = Some cat1
              ∧ Crawl.data_cat2 link = Some cat2 ∧ Crawl.data_cat3 link = Some cat3
              ∧ Crawl.topic r = (if decide (Py.strip cat1 = "Maths Workbooks")
                                 then "Maths" else Py.strip cat1)
              ∧ Crawl.level r = Py.strip cat2 ∧ Crawl.term r = Py.strip cat3
              ∧ (Crawl.name r = Py.strip label
                 ∨ (element ≠ "a" ∧ Crawl.topic r = "Reading for Meaning Course")))
           element links links (Crawl.State topics0 [] [] None) st) with k;
    [done| |done|done|done].
  intros urls lv link urls' idx r0 Hin Hreg.
  pose proof (examine_Register _ _ _ _ _ _ _ Hreg) as (Hurl & _).
  apply examine_Register_fields in Hreg
    as (label & cat1 & cat2 & cat3 & ? & ? & ? & ? & ? & ? & ? & ?).
  exists link, label, cat1, cat2, cat3. split_and!; done.
Qed.

Lemma record_provenance_witness :
  let r := Crawl.Resource "Workbook 1" "Maths" "Grade 1" "Term 2"
                          "https://fundawande.org/docs/a.pdf" in
  ∃ link label cat1 cat2 cat3,
    link ∈ [phonics_poster; workbook_a]
    ∧ Crawl.resolve_url "a" link = OK (Some (Crawl.url r))
    ∧ Crawl.data_label link = Some label ∧ Crawl.data_cat1 link = Some cat1
    ∧ Crawl.data_cat2 link = Some cat2 ∧ Crawl.data_cat3 link = Some cat3
    ∧ Crawl.topic r = (if decide (Py.strip cat1 = "Maths Workbooks") then "Maths"
                       else Py.strip cat1)
    ∧ Crawl.level r = Py.strip cat2 ∧ Crawl.term r = Py.strip cat3
    ∧ (Crawl.name r = Py.strip label
       ∨ ("a" ≠ "a" ∧ Crawl.topic r = "Reading for Meaning Course")).
Proof.
  intros r.
  apply (record_provenance "a" [phonics_poster; workbook_a] []
           [("Maths-Grade_1-Term_2-Workbook_1_id", r)]
           [("Maths", ["Maths-Grade_1-Term_2-Workbook_1_id"])]
           "Maths-Grade_1-Term_2-Workbook_1_id" r).
  - reflexivity.
  - reflexivity.
Defined.

(** ** What a run downloads *)

Section downloads.
Import Crawl Gate.

Context {content : Type}.
Context (getsize : content → Z).
Context (http_get : string → option content).
Context (fitz_save : content → fitz_result content).

(** A download is made for a key of the pool, from the URL of its record. *)
Lemma gate_body_downloads pdfs (w : world) pdf k u :
  Download k u ∈ trace (gate_body getsize http_get fitz_save pdfs w pdf).1 →
  Download k u ∈ trace w
  ∨ ∃ r, PyDict.get k pdfs = Some r ∧ u = url r.
Proof.
  unfold Gate.gate_body.
  destruct (decide (is_Some (fs w !! compressed_pdf pdf))); [by left|].
  destruct (decide (is_Some (fs w !! pdf_name pdf))) as [[raw Hraw]|Hraw].
  - rewrite Hraw.
    destruct (getsize raw >? SIZE_LIMIT)%Z; [destruct (fitz_save raw)|]; cbn;
      (intros [?|Hin%list_elem_of_singleton]%elem_of_app; [by left|discriminate Hin]).
  - destruct (PyDict.get pdf pdfs) as [r|] eqn:Hr; [|by left].
    assert (Download k u ∈ trace w ++ [Download pdf (url r)] →
            Download k u ∈ trace w ∨ ∃ r, PyDict.get k pdfs = Some r ∧ u = url r) as Hd.
    { intros [?|Hin%list_elem_of_singleton]%elem_of_app; [by left|].
      injection Hin as -> ->. right. eauto. }
    destruct (http_get (url r)) as [c|]; cbn; [|done].
    rewrite lookup_insert_eq.
    destruct (getsize c >? SIZE_LIMIT)%Z; [destruct (fitz_save c)|]; cbn;
      (intros [?|Hin%list_elem_of_singleton]%elem_of_app; [auto|discriminate Hin]).
Qed.

Lemma gate_loop_downloads pdfs keys (w : world) k u :
  Download k u ∈ trace (gate_loop getsize http_get fitz_save pdfs keys w).1 →
  Download k u ∈ trace w
  ∨ ∃ r, PyDict.get k pdfs = Some r ∧ u = url r.
Proof.
  revert w. induction keys as [|k0 keys IH]; intros w; [by left|].
  cbn [Gate.gate_loop].
  pose proof (gate_body_downloads pdfs w k0 k u) as Hb.
  destruct (gate_body getsize http_get fitz_save pdfs w k0) as [w1 [[]| |]];
    cbn in *; [|done..].
  intros [?|?]%IH; auto.
Qed.

(** After a crawl of the learning resources, whatever the run of the
    gate downloads is the URL of a record of the document pool, fetched
    for the key of that record, and it is a URL of the site
    [https://fundawande.org]. *)
Theorem run_downloads_from_site page topics0 pdfs topics'
    (fs0 : gmap string content) k u :
  crawl "a" page topics0 = OK (pdfs, topics') →
  Download k u
  ∈ trace (download_and_compress_pdfs getsize http_get fitz_save pdfs fs0).1 →
  (∃ r, PyDict.get k pdfs = Some r ∧ u = url r)
  ∧ Py.startswith "https://fundawande.org" u = true.
Proof.
  intros Hcrawl Hin. unfold download_and_compress_pdfs in Hin.
  apply gate_loop_downloads in Hin as [?%elem_of_nil|(r & Hr & ->)]; [done|].
  split; [eauto|].
  apply crawl_OK in Hcrawl as (links & st & -> & Hloop & -> & _).
  apply (loop_records (λ r, Py.startswith COURSE_URL (url r) = true)
           "a" links (State topics0 [] [] None) st) with k; [|done|done|done].
  intros urls lv link urls' idx r0 Hreg.
  apply examine_Register in Hreg as (Hurl & _).
  by apply resolve_url_shape in Hurl as [? _].
Qed.
End downloads.

Lemma run_downloads_from_site_witness :
  (∃ r, PyDict.get "Maths-Grade_1-Term_2-Workbook_1_id" (Crawl.pdfs maths_chef) = Some r
        ∧ "https://fundawande.org/docs/a.pdf" = Crawl.url r)
  ∧ Py.startswith "https://fundawande.org" "https://fundawande.org/docs/a.pdf" = true.
Proof.
  apply (run_downloads_from_site id (λ _, Some 100%Z) halve
           (Some [phonics_poster; workbook_a]) [] (Crawl.pdfs maths_chef)
           [("Maths", ["Maths-Grade_1-Term_2-Workbook_1_id"])]
           (∅ : gmap string Z)
           "Maths-Grade_1-Term_2-Workbook_1_id" "https://fundawande.org/docs/a.pdf").
  - reflexivity.
  - vm_compute. left.
Defined.
